(** * StorageObjectStorageQueue: the S3Queue / AzureQueue table engine

    A shallow embedding of
    [src/Storages/ObjectStorageQueue/StorageObjectStorageQueue.cpp]
    and the properties of its construction, read path, commit, streaming
    task, ALTER of settings and [getSettings].

    Conventions.
    - [UInt64] / [size_t] values are [Z] in [[0, 2^64)]; additions are
      written with their wrap-around ([wrap64]).
    - A C++ function that may throw returns a [Result]; one that also talks
      to the outside world (blob store, coordinator, scheduler, logs)
      returns an [Eff]: the list of the effects it performed, in order, and
      its result.
    - Collaborators whose code is outside this translation unit
      ([AlterCommands::apply], [Field::safeGet], the settings defaults,
      [Configuration::isPathWithGlobs], the sources, the coordinator) are
      parameters: functions or answers supplied by the caller of the model. *)

From Stdlib Require Import ZArith List String Ascii Bool Lia Sorted OrderedTypeEx.
Import ListNotations.
Open Scope string_scope.
Open Scope Z_scope.

(* ================================================================== *)
(** * Errors *)

(** [namespace ErrorCodes] of the translation unit. *)
Inductive ErrorCode : Type :=
| LOGICAL_ERROR
| BAD_ARGUMENTS
| BAD_QUERY_PARAMETER
| QUERY_NOT_ALLOWED
| SUPPORT_IS_DISABLED
| UNKNOWN_EXCEPTION.

Definition ErrorCode_eqb (a b : ErrorCode) : bool :=
  match a, b with
  | LOGICAL_ERROR, LOGICAL_ERROR
  | BAD_ARGUMENTS, BAD_ARGUMENTS
  | BAD_QUERY_PARAMETER, BAD_QUERY_PARAMETER
  | QUERY_NOT_ALLOWED, QUERY_NOT_ALLOWED
  | SUPPORT_IS_DISABLED, SUPPORT_IS_DISABLED
  | UNKNOWN_EXCEPTION, UNKNOWN_EXCEPTION => true
  | _, _ => false
  end.

(** [Coordination::Error], the codes [tryMulti] can hand back. *)
Inductive CoordinationError : Type :=
| ZOK
| ZBADVERSION
| ZNONODE
| ZNODEEXISTS
| ZNOTEMPTY.

Definition is_ZOK (c : CoordinationError) : bool :=
  match c with ZOK => true | _ => false end.

(** One operation of a coordinator transaction ([Coordination::Request])
    and its answer. *)
Inductive Request : Type :=
| CreateRequest (path data : string)
| RemoveRequest (path : string)
| SetRequest (path data : string)
| CheckRequest (path : string).

Definition Requests := list Request.
Definition Responses := list CoordinationError.

(** A blob ([StoredObject]) is known by its remote path. *)
Definition StoredObject := string.
Definition StoredObjects := list StoredObject.

(** The arguments a format string is instantiated with. *)
Inductive FmtArg : Type :=
| ArgString (s : string)
| ArgNumber (n : Z).

(** What can fly out of a function: [DB::Exception] with its code, format
    string and arguments; [zkutil::KeeperMultiException]; or an exception
    raised inside a collaborator (the pipeline executor, [Field::safeGet]). *)
Inductive Exception : Type :=
| DBException (code : ErrorCode) (format : string) (args : list FmtArg)
| KeeperMultiException (code : CoordinationError) (requests : Requests)
                       (responses : Responses)
| CollaboratorException (what : string).

Definition has_code (c : ErrorCode) (e : Exception) : bool :=
  match e with
  | DBException c' _ _ => ErrorCode_eqb c c'
  | _ => false
  end.

Definition exception_args (e : Exception) : list FmtArg :=
  match e with
  | DBException _ _ args => args
  | _ => []
  end.

Inductive Result (A : Type) : Type :=
| Ok (a : A)
| Throw (e : Exception).
Arguments Ok {A} a.
Arguments Throw {A} e.

Definition is_ok {A} (r : Result A) : bool :=
  match r with Ok _ => true | Throw _ => false end.

Definition rbind {A B} (r : Result A) (k : A -> Result B) : Result B :=
  match r with
  | Ok a => k a
  | Throw e => Throw e
  end.

Declare Scope result_scope.
Delimit Scope result_scope with result.
Notation "x <-? r ; k" := (rbind r (fun x => k))
  (at level 61, r at next level, right associativity) : result_scope.
Notation "r ;;? k" := (rbind r (fun _ => k))
  (at level 61, right associativity) : result_scope.

(* ================================================================== *)
(** * Machine integers and strings *)

Definition two64 : Z := 2 ^ 64.

Definition wrap64 (z : Z) : Z := z mod two64.

(** [std::string::starts_with]. *)
Definition starts_with (s pre : string) : bool := String.prefix pre s.

(** [std::string::ends_with(char)]. *)
Fixpoint ends_with (s : string) (c : ascii) : bool :=
  match s with
  | EmptyString => false
  | String a EmptyString => Ascii.eqb a c
  | String _ rest => ends_with rest c
  end.

(** [std::string::empty]. *)
Definition empty (s : string) : bool :=
  match s with EmptyString => true | _ => false end.

(** [std::string::substr(pos)]: everything from [pos] on. *)
Definition substr (s : string) (pos : nat) : string :=
  String.substring pos (String.length s - pos) s.

(** A [std::set<std::string>] is kept as the strictly increasing list of
    its elements (bytewise lexicographic order, as [std::less<std::string>]). *)
Fixpoint set_insert (x : string) (s : list string) : list string * bool :=
  match s with
  | [] => ([x], true)
  | y :: rest =>
      match String.compare x y with
      | Lt => (x :: s, true)
      | Eq => (s, false)
      | Gt => let '(rest', inserted) := set_insert x rest in
              (y :: rest', inserted)
      end
  end.

Definition lt_name (a b : string) : Prop := String.compare a b = Lt.

Definition ordered_set (s : list string) : Prop := StronglySorted lt_name s.

(** [contains], of [std::set] and [std::unordered_set] alike. *)
Definition contains (s : list string) (x : string) : bool :=
  existsb (String.eqb x) s.

(** [std::set_difference] of two sets: the elements of the first that are
    not in the second, in order. *)
Definition set_difference (a b : list string) : list string :=
  filter (fun x => negb (contains b x)) a.

(* ================================================================== *)
(** * Settings and table state *)

Inductive ObjectStorageQueueMode : Type := ORDERED | UNORDERED.

Inductive ObjectStorageQueueAction : Type := KEEP | DELETE.

Definition mode_name (m : ObjectStorageQueueMode) : string :=
  match m with ORDERED => "ORDERED" | UNORDERED => "UNORDERED" end.

(** [ObjectStorageQueueSettings], the settings this file declares in
    [namespace ObjectStorageQueueSetting]. The two [_changed] flags are the
    [.changed] marks the file reads. *)
Record ObjectStorageQueueSettings : Type := {
  s_mode : ObjectStorageQueueMode;
  s_mode_changed : bool;
  s_after_processing : ObjectStorageQueueAction;
  s_keeper_path : string;
  s_keeper_path_changed : bool;
  s_loading_retries : Z;
  s_processing_threads_num : Z;
  s_enable_logging_to_queue_log : Z;
  s_last_processed_path : string;
  s_tracked_file_ttl_sec : Z;
  s_tracked_files_limit : Z;
  s_cleanup_interval_min_ms : Z;
  s_cleanup_interval_max_ms : Z;
  s_buckets : Z;
  s_polling_min_timeout_ms : Z;
  s_polling_max_timeout_ms : Z;
  s_polling_backoff_ms : Z;
  s_max_processed_files_before_commit : Z;
  s_max_processed_rows_before_commit : Z;
  s_max_processed_bytes_before_commit : Z;
  s_max_processing_time_sec_before_commit : Z;
  s_enable_hash_ring_filtering : bool;
  s_list_objects_batch_size : Z
}.

(** [ObjectStorageQueueTableMetadata], as far as this file reads it. *)
Record TableMetadata : Type := {
  mode : ObjectStorageQueueMode;
  after_processing : ObjectStorageQueueAction;
  loading_retries : Z;
  processing_threads_num : Z;
  last_processed_path : string;
  tracked_files_ttl_sec : Z;
  tracked_files_limit : Z;
  buckets : Z
}.

Record CommitSettings : Type := {
  max_processed_files_before_commit : Z;
  max_processed_rows_before_commit : Z;
  max_processed_bytes_before_commit : Z;
  max_processing_time_sec_before_commit : Z
}.

(** [Field]: the value of a setting in a query. *)
Inductive Field : Type :=
| FieldUInt64 (z : Z)
| FieldBool (b : bool)
| FieldString (s : string).

Definition Field_eqb (a b : Field) : bool :=
  match a, b with
  | FieldUInt64 x, FieldUInt64 y => Z.eqb x y
  | FieldBool x, FieldBool y => Bool.eqb x y
  | FieldString x, FieldString y => String.eqb x y
  | _, _ => false
  end.

Record SettingChange : Type := {
  name : string;
  value : Field
}.

Definition SettingsChanges := list SettingChange.

(** [ObjectStorageQueueMetadata], built by the constructor: the table
    metadata agreed with the coordinator and the cleanup intervals. *)
Record QueueMetadata : Type := {
  table_metadata : TableMetadata;
  cleanup_interval_min_ms : Z;
  cleanup_interval_max_ms : Z
}.

(** The members of [StorageObjectStorageQueue] the modelled methods use.
    [metadata_settings_changes] is the [SETTINGS] clause kept in the in-memory
    metadata ([None]: no clause). *)
Record Storage : Type := {
  table_id : string;
  engine_name : string;
  zk_path : string;
  enable_logging_to_queue_log : bool;
  polling_min_timeout_ms : Z;
  polling_max_timeout_ms : Z;
  polling_backoff_ms : Z;
  list_objects_batch_size : Z;
  enable_hash_ring_filtering : bool;
  commit_settings : CommitSettings;
  path : string;
  reschedule_processing_interval_ms : Z;
  mv_attached : bool;
  files_metadata : QueueMetadata;
  metadata_settings_changes : option SettingsChanges
}.

Definition getTableMetadata (st : Storage) : TableMetadata :=
  table_metadata (files_metadata st).

(** [getName()]: the engine name the table was created with. *)
Definition getName (st : Storage) : string := engine_name st.

(* ================================================================== *)
(** * Construction *)

Section Construction.

(** [Configuration::isPathWithGlobs] and
    [ObjectStorageQueueMetadata::syncWithKeeper] are defined elsewhere. *)
Variable isPathWithGlobs : string -> bool.
Variable syncWithKeeper :
  string -> ObjectStorageQueueSettings -> bool -> TableMetadata.

(** [validateSettings] of the anonymous namespace. *)
Definition validateSettings (queue_settings : ObjectStorageQueueSettings)
    (is_attach : bool) : Result unit :=
  if negb is_attach && negb (s_mode_changed queue_settings) then
    Throw (DBException BAD_ARGUMENTS
      "Setting `mode` (Unordered/Ordered) is not specified, but is required." [])
  else if s_processing_threads_num queue_settings =? 0 then
    Throw (DBException BAD_ARGUMENTS
      "Setting `processing_threads_num` cannot be set to zero" [])
  else if s_cleanup_interval_min_ms queue_settings
            >? s_cleanup_interval_max_ms queue_settings then
    Throw (DBException BAD_ARGUMENTS
      "Setting `cleanup_interval_min_ms` ({}) must be less or equal to `cleanup_interval_max_ms` ({})"
      [ArgNumber (s_cleanup_interval_min_ms queue_settings);
       ArgNumber (s_cleanup_interval_max_ms queue_settings)])
  else Ok tt.

(** The first statement of the constructor body: the path the
    configuration holds afterwards, or the exception. *)
Definition configured_path (p : string) : Result string :=
  if empty p then Ok "/*"
  else if ends_with p "/" then Ok (p ++ "*")
  else if negb (isPathWithGlobs p) then
    Throw (DBException BAD_QUERY_PARAMETER
      "ObjectStorageQueue url must either end with '/' or contain globs" [])
  else Ok p.

(** The constructor. [is_attach] is [mode > LoadingStrictnessLevel::CREATE],
    [zk_path_] what [chooseZooKeeperPath] returned, [settings_ast] the
    [SETTINGS] clause of the engine definition. The metadata object is
    the one [startup] hands to the factory. The calls that follow
    [validateSettings] ([createObjectStorage], [checkFormatName],
    [Configuration::check], [resolveSchemaAndFormat], [syncWithKeeper]) are
    defined elsewhere: this is the constructor when they return. *)
Definition StorageObjectStorageQueue (queue_settings_ : ObjectStorageQueueSettings)
    (configuration_path : string) (table_id_ engine_name_ zk_path_ : string)
    (settings_ast : option SettingsChanges) (is_attach : bool)
    : Result Storage :=
  (p <-? configured_path configuration_path ;
   validateSettings queue_settings_ is_attach ;;?
   let table_metadata_ := syncWithKeeper zk_path_ queue_settings_ is_attach in
   Ok {| table_id := table_id_;
         engine_name := engine_name_;
         zk_path := zk_path_;
         enable_logging_to_queue_log :=
           negb (s_enable_logging_to_queue_log queue_settings_ =? 0);
         polling_min_timeout_ms := s_polling_min_timeout_ms queue_settings_;
         polling_max_timeout_ms := s_polling_max_timeout_ms queue_settings_;
         polling_backoff_ms := s_polling_backoff_ms queue_settings_;
         list_objects_batch_size := s_list_objects_batch_size queue_settings_;
         enable_hash_ring_filtering := s_enable_hash_ring_filtering queue_settings_;
         commit_settings :=
           {| max_processed_files_before_commit :=
                s_max_processed_files_before_commit queue_settings_;
              max_processed_rows_before_commit :=
                s_max_processed_rows_before_commit queue_settings_;
              max_processed_bytes_before_commit :=
                s_max_processed_bytes_before_commit queue_settings_;
              max_processing_time_sec_before_commit :=
                s_max_processing_time_sec_before_commit queue_settings_ |};
         path := p;
         reschedule_processing_interval_ms :=
           s_polling_min_timeout_ms queue_settings_;
         mv_attached := false;
         files_metadata :=
           {| table_metadata := table_metadata_;
              cleanup_interval_min_ms := s_cleanup_interval_min_ms queue_settings_;
              cleanup_interval_max_ms := s_cleanup_interval_max_ms queue_settings_ |};
         metadata_settings_changes := settings_ast |})%result.

End Construction.

(** The characters that make a path a glob pattern; used to run the
    constructor on examples. *)
Fixpoint contains_glob_char (s : string) : bool :=
  match s with
  | EmptyString => false
  | String c rest =>
      Ascii.eqb c "*" || Ascii.eqb c "?" || Ascii.eqb c "{"
      || contains_glob_char rest
  end.

(* ================================================================== *)
(** * Direct SELECT *)

(** A query plan is the list of the names of its steps. *)
Definition QueryPlan := list string.

(** [StorageObjectStorageQueue::read]. [allow_direct_select] is the value
    of [stream_like_engine_allow_direct_select] in the query context. *)
Definition read (st : Storage) (allow_direct_select : bool)
    (query_plan : QueryPlan) : Result QueryPlan :=
  if negb allow_direct_select then
    Throw (DBException QUERY_NOT_ALLOWED
      "Direct select is not allowed. To enable use setting `stream_like_engine_allow_direct_select`"
      [])
  else if mv_attached st then
    Throw (DBException QUERY_NOT_ALLOWED
      "Cannot read from {} with attached materialized views"
      [ArgString (getName st)])
  else Ok (query_plan ++ ["ReadFromObjectStorageQueue"])%list.

(** [StorageObjectStorageQueue::getSettings]: the settings rebuilt from
    the table metadata and the members. Every assignment marks its setting
    as changed. *)
Definition getSettings (st : Storage) : ObjectStorageQueueSettings :=
  let table_metadata_ := getTableMetadata st in
  {| s_mode := mode table_metadata_;
     s_mode_changed := true;
     s_after_processing := after_processing table_metadata_;
     s_keeper_path := zk_path st;
     s_keeper_path_changed := true;
     s_loading_retries := loading_retries table_metadata_;
     s_processing_threads_num := processing_threads_num table_metadata_;
     s_enable_logging_to_queue_log := Z.b2z (enable_logging_to_queue_log st);
     s_last_processed_path := last_processed_path table_metadata_;
     s_tracked_file_ttl_sec := tracked_files_ttl_sec table_metadata_;
     s_tracked_files_limit := tracked_files_limit table_metadata_;
     s_cleanup_interval_min_ms := 0;
     s_cleanup_interval_max_ms := 0;
     s_buckets := buckets table_metadata_;
     s_polling_min_timeout_ms := polling_min_timeout_ms st;
     s_polling_max_timeout_ms := polling_max_timeout_ms st;
     s_polling_backoff_ms := polling_backoff_ms st;
     s_max_processed_files_before_commit :=
       max_processed_files_before_commit (commit_settings st);
     s_max_processed_rows_before_commit :=
       max_processed_rows_before_commit (commit_settings st);
     s_max_processed_bytes_before_commit :=
       max_processed_bytes_before_commit (commit_settings st);
     s_max_processing_time_sec_before_commit :=
       max_processing_time_sec_before_commit (commit_settings st);
     s_enable_hash_ring_filtering := enable_hash_ring_filtering st;
     s_list_objects_batch_size := list_objects_batch_size st |}.

(* ================================================================== *)
(** * Effects *)

Inductive ProfileEvent : Type :=
| ObjectStorageQueueCommitRequests
| ObjectStorageQueueSuccessfulCommits
| ObjectStorageQueueUnsuccessfulCommits
| ObjectStorageQueueRemovedObjects
| ObjectStorageQueueInsertIterations
| ObjectStorageQueueProcessedRows.

(** What the engine does to the world, one constructor per call that
    leaves the object. Messages below error level are not recorded. *)
Inductive Event : Type :=
| ProfileIncrement (event : ProfileEvent) (amount : Z)
| RemoveObjectsIfExist (objects : StoredObjects)
| TryMulti (requests : Requests)
| FinalizeCommit (processor_id : nat) (insert_succeeded : bool)
                 (exception_message : string)
| RegisterIfNot
| Unregister
| CreateFileIterator
| ExecutePipeline (num_threads : Z)
| ReleaseFinishedBuckets
| LogError (e : Exception)
| ScheduleAfter (ms : Z).

Definition Trace := list Event.

(** A computation: the effects performed, then a value or an exception. *)
Definition Eff (A : Type) : Type := (Trace * Result A)%type.

Definition ret {A} (a : A) : Eff A := ([], Ok a).

Definition throw {A} (e : Exception) : Eff A := ([], Throw e).

Definition emit (ev : Event) : Eff unit := ([ev], Ok tt).

Definition bind {A B} (m : Eff A) (k : A -> Eff B) : Eff B :=
  match m with
  | (t1, Ok a) => let '(t2, r) := k a in ((t1 ++ t2)%list, r)
  | (t1, Throw e) => (t1, Throw e)
  end.

Declare Scope eff_scope.
Delimit Scope eff_scope with eff.
Notation "x <- m ;; k" := (bind m (fun x => k))
  (at level 61, m at next level, right associativity) : eff_scope.
Notation "m ;; k" := (bind m (fun _ => k))
  (at level 61, right associativity) : eff_scope.

Definition trace_of {A} (m : Eff A) : Trace := fst m.
Definition result_of {A} (m : Eff A) : Result A := snd m.

Definition is_TryMulti (ev : Event) : bool :=
  match ev with TryMulti _ => true | _ => false end.

Definition is_RemoveObjectsIfExist (ev : Event) : bool :=
  match ev with RemoveObjectsIfExist _ => true | _ => false end.

(** The calls by which a tick takes part in the processing: registering
    the replica, creating the file iterator, running the pipeline. *)
Definition is_streaming_event (ev : Event) : bool :=
  match ev with
  | RegisterIfNot | CreateFileIterator | ExecutePipeline _ => true
  | _ => false
  end.

(* ================================================================== *)
(** * Commit *)

(** An [ObjectStorageQueueSource] as [commit] sees it:
    [prepareCommitRequests insert_succeeded exception_message] gives the
    requests and the successful objects the source appends. *)
Record Source : Type := {
  processor_id : nat;
  prepareCommitRequests : bool -> string -> Requests * StoredObjects
}.

(** The coordinator session of one commit: whether the fail point
    [object_storage_queue_fail_commit] is enabled, and what [tryMulti]
    answers. *)
Record Coordinator : Type := {
  object_storage_queue_fail_commit : bool;
  tryMulti : Requests -> CoordinationError * Responses
}.

(** The first loop of [commit]: every source appends to both vectors. *)
Fixpoint gather_requests (sources : list Source) (insert_succeeded : bool)
    (exception_message : string) (requests : Requests)
    (successful_objects : StoredObjects) : Requests * StoredObjects :=
  match sources with
  | [] => (requests, successful_objects)
  | source :: rest =>
      let '(r, o) := prepareCommitRequests source insert_succeeded exception_message in
      gather_requests rest insert_succeeded exception_message
        (requests ++ r)%list (successful_objects ++ o)%list
  end.

(** The last loop of [commit]. *)
Fixpoint finalize_sources (sources : list Source) (insert_succeeded : bool)
    (exception_message : string) : Eff unit :=
  match sources with
  | [] => ret tt
  | source :: rest =>
      (emit (FinalizeCommit (processor_id source) insert_succeeded exception_message) ;;
       finalize_sources rest insert_succeeded exception_message)%eff
  end.

Definition is_DELETE (a : ObjectStorageQueueAction) : bool :=
  match a with DELETE => true | KEEP => false end.

Definition is_nil {A} (l : list A) : bool :=
  match l with [] => true | _ => false end.

Definition size {A} (l : list A) : Z := Z.of_nat (List.length l).

(** [StorageObjectStorageQueue::commit]. *)
Definition commit (st : Storage) (zk : Coordinator) (insert_succeeded : bool)
    (inserted_rows : Z) (sources : list Source) (exception_message : string)
    : Eff unit :=
  (emit (ProfileIncrement ObjectStorageQueueProcessedRows inserted_rows) ;;
   let '(requests, successful_objects) :=
     gather_requests sources insert_succeeded exception_message [] [] in
   if is_nil requests then ret tt
   else
     emit (ProfileIncrement ObjectStorageQueueCommitRequests (size requests)) ;;
     (if negb (is_nil successful_objects)
         && is_DELETE (after_processing (getTableMetadata st))
      then
        emit (RemoveObjectsIfExist successful_objects) ;;
        emit (ProfileIncrement ObjectStorageQueueRemovedObjects (size successful_objects))
      else ret tt) ;;
     (if object_storage_queue_fail_commit zk then
        throw (DBException UNKNOWN_EXCEPTION "Failed to commit processed files" [])
      else ret tt) ;;
     emit (TryMulti requests) ;;
     let '(code, responses) := tryMulti zk requests in
     if negb (is_ZOK code) then
       emit (ProfileIncrement ObjectStorageQueueUnsuccessfulCommits 1) ;;
       throw (KeeperMultiException code requests responses)
     else
       emit (ProfileIncrement ObjectStorageQueueSuccessfulCommits 1) ;;
       finalize_sources sources insert_succeeded exception_message)%eff.

(* ================================================================== *)
(** * The streaming task *)

(** What [DatabaseCatalog::tryGetTable] finds behind the id of a dependent
    view: a materialized view (with the table [tryGetTargetTable] finds, if
    any) or some other storage. *)
Inductive ViewStorage : Type :=
| StorageMaterializedView (target_table : option string)
| OtherStorage.

(** One entry per id [getDependentViews] returned; [None] when
    [tryGetTable] finds nothing. *)
Definition DependentViews := list (option ViewStorage).

(** The [for] loop of [getDependencies]; [n] is [view_ids.size()]. *)
Fixpoint check_dependencies (views : DependentViews) (n : Z) : Z :=
  match views with
  | [] => n
  | None :: _ => 0
  | Some (StorageMaterializedView None) :: _ => 0
  | Some _ :: rest => check_dependencies rest n
  end.

(** [StorageObjectStorageQueue::getDependencies]. *)
Definition getDependencies (view_ids : DependentViews) : Z :=
  if is_nil view_ids then 0
  else check_dependencies view_ids (size view_ids).

(** One pass of the loop of [streamToViews], as the world answers it:
    the sources [createSource] builds, the rows the progress callback has
    counted when the executor returns or throws, the exception it throws
    (if any), and the coordinator session of the commit. *)
Record Iteration : Type := {
  createSource : nat -> Source;
  rows : Z;
  executor_exception : option Exception;
  zookeeper : Coordinator
}.

(** What a tick of the task finds around it. [iterations] has one entry
    per time the loop condition
    [!shutdown_called && !file_iterator->isFinished()] holds. *)
Record World : Type := {
  shutdown_called_on_entry : bool;
  dependent_views : DependentViews;
  table_exists : bool;
  iterations : list Iteration;
  getCurrentExceptionMessage : Exception -> string;
  shutdown_called_on_exit : bool;
  unregister_exception : option Exception
}.

Definition create_sources (it : Iteration) (processing_threads_num_ : Z)
    : list Source :=
  map (createSource it) (seq 0 (Z.to_nat processing_threads_num_)).

(** The [while] loop of [streamToViews]; the result is [total_rows]. *)
Fixpoint streamToViews_loop (st : Storage) (message : Exception -> string)
    (processing_threads_num_ : Z) (its : list Iteration) (total_rows : Z)
    : Eff Z :=
  match its with
  | [] => ret total_rows
  | it :: rest =>
      let sources := create_sources it processing_threads_num_ in
      (emit (ProfileIncrement ObjectStorageQueueInsertIterations 1) ;;
       emit (ExecutePipeline processing_threads_num_) ;;
       match executor_exception it with
       | Some e =>
           commit st (zookeeper it) false (rows it) sources (message e) ;;
           emit ReleaseFinishedBuckets ;;
           throw e
       | None =>
           commit st (zookeeper it) true (rows it) sources "" ;;
           emit ReleaseFinishedBuckets ;;
           streamToViews_loop st message processing_threads_num_ rest
             (wrap64 (total_rows + rows it))
       end)%eff
  end.

(** [StorageObjectStorageQueue::streamToViews]. *)
Definition streamToViews (st : Storage) (w : World) : Eff bool :=
  if negb (table_exists w) then
    throw (DBException LOGICAL_ERROR "Engine table {} doesn't exist."
             [ArgString (table_id st)])
  else
    (emit CreateFileIterator ;;
     total_rows <- streamToViews_loop st (getCurrentExceptionMessage w)
                     (processing_threads_num (getTableMetadata st))
                     (iterations w) 0 ;;
     ret (total_rows >? 0))%eff.

Definition set_mv_attached (b : bool) (st : Storage) : Storage :=
  {| table_id := table_id st;
     engine_name := engine_name st;
     zk_path := zk_path st;
     enable_logging_to_queue_log := enable_logging_to_queue_log st;
     polling_min_timeout_ms := polling_min_timeout_ms st;
     polling_max_timeout_ms := polling_max_timeout_ms st;
     polling_backoff_ms := polling_backoff_ms st;
     list_objects_batch_size := list_objects_batch_size st;
     enable_hash_ring_filtering := enable_hash_ring_filtering st;
     commit_settings := commit_settings st;
     path := path st;
     reschedule_processing_interval_ms := reschedule_processing_interval_ms st;
     mv_attached := b;
     files_metadata := files_metadata st;
     metadata_settings_changes := metadata_settings_changes st |}.

Definition set_reschedule_processing_interval_ms (ms : Z) (st : Storage)
    : Storage :=
  {| table_id := table_id st;
     engine_name := engine_name st;
     zk_path := zk_path st;
     enable_logging_to_queue_log := enable_logging_to_queue_log st;
     polling_min_timeout_ms := polling_min_timeout_ms st;
     polling_max_timeout_ms := polling_max_timeout_ms st;
     polling_backoff_ms := polling_backoff_ms st;
     list_objects_batch_size := list_objects_batch_size st;
     enable_hash_ring_filtering := enable_hash_ring_filtering st;
     commit_settings := commit_settings st;
     path := path st;
     reschedule_processing_interval_ms := ms;
     mv_attached := mv_attached st;
     files_metadata := files_metadata st;
     metadata_settings_changes := metadata_settings_changes st |}.

(** The [try] block of [threadFunc] with its [catch (...)]: the effects
    and the storage it leaves. [mv_attached] is set while streaming, and
    the scope guard clears it on every way out. *)
Definition threadFunc_try (st : Storage) (w : World) : Trace * Storage :=
  let dependencies_count := getDependencies (dependent_views w) in
  if negb (dependencies_count =? 0) then
    let streaming := set_mv_attached true st in
    match (emit RegisterIfNot ;; streamToViews streaming w)%eff with
    | (t, Ok true) =>
        (t, set_mv_attached false
              (set_reschedule_processing_interval_ms
                 (polling_min_timeout_ms streaming) streaming))
    | (t, Ok false) =>
        (t, set_mv_attached false
              (set_reschedule_processing_interval_ms
                 (Z.min (polling_max_timeout_ms streaming)
                        (wrap64 (reschedule_processing_interval_ms streaming
                                 + polling_backoff_ms streaming)))
                 streaming))
    | (t, Throw e) =>
        ((t ++ [LogError e])%list, set_mv_attached false streaming)
    end
  else ([], st).

(** The tail of [threadFunc]: reschedule, and unregister when the
    interval has grown past five seconds. *)
Definition threadFunc_reschedule (st : Storage) (w : World) : Trace :=
  if negb (shutdown_called_on_exit w) then
    ScheduleAfter (reschedule_processing_interval_ms st)
    :: (if reschedule_processing_interval_ms st >? 5000 then
          Unregister
          :: match unregister_exception w with
             | Some e => [LogError e]
             | None => []
             end
        else [])
  else [].

(** [StorageObjectStorageQueue::threadFunc]: one tick. *)
Definition threadFunc (st : Storage) (w : World) : Trace * Storage :=
  if shutdown_called_on_entry w then ([], st)
  else
    let '(t, st') := threadFunc_try st w in
    ((t ++ threadFunc_reschedule st' w)%list, st').

(* ================================================================== *)
(** * ALTER of settings *)

Definition changeable_settings_unordered_mode : list string :=
  [ "processing_threads_num";
    "loading_retries";
    "after_processing";
    "tracked_files_limit";
    "tracked_file_ttl_sec";
    "polling_min_timeout_ms";
    "polling_max_timeout_ms";
    "polling_backoff_ms";
    "max_processed_files_before_commit";
    "max_processed_rows_before_commit";
    "max_processed_bytes_before_commit";
    "max_processing_time_sec_before_commit";
    "enable_hash_ring_filtering";
    "list_objects_batch_size" ].

Definition changeable_settings_ordered_mode : list string :=
  [ "loading_retries";
    "after_processing";
    "polling_min_timeout_ms";
    "polling_max_timeout_ms";
    "polling_backoff_ms";
    "max_processed_files_before_commit";
    "max_processed_rows_before_commit";
    "max_processed_bytes_before_commit";
    "max_processing_time_sec_before_commit";
    "buckets";
    "list_objects_batch_size" ].

Definition normalizeSetting (name_ : string) : string :=
  if starts_with name_ "s3queue_" then substr name_ (String.length "s3queue_")
  else name_.

Definition checkNormalizedSetting (name_ : string) : Result unit :=
  if starts_with name_ "s3queue_" then
    Throw (DBException LOGICAL_ERROR "Setting is not normalized: {}"
             [ArgString name_])
  else Ok tt.

Definition isSettingChangeable (name_ : string) (mode_ : ObjectStorageQueueMode)
    : Result bool :=
  (checkNormalizedSetting name_ ;;?
   match mode_ with
   | UNORDERED => Ok (contains changeable_settings_unordered_mode name_)
   | ORDERED => Ok (contains changeable_settings_ordered_mode name_)
   end)%result.

Definition requiresDetachedMV (name_ : string) : Result bool :=
  (checkNormalizedSetting name_ ;;? Ok (String.eqb name_ "buckets"))%result.

Inductive AlterCommandType : Type :=
| MODIFY_SETTING
| RESET_SETTING
| MODIFY_COLUMN.

(** [AlterCommand], the members the engine touches; [settings_resets] is a
    [std::set]. *)
Record AlterCommand : Type := {
  type : AlterCommandType;
  settings_changes : SettingsChanges;
  settings_resets : list string
}.

Definition AlterCommands := list AlterCommand.

Definition normalize_change (setting : SettingChange) : SettingChange :=
  {| name := normalizeSetting (name setting); value := value setting |}.

Definition normalizeAlterCommands (alter_commands : AlterCommands)
    : AlterCommands :=
  map (fun command =>
         {| type := type command;
            settings_changes := map normalize_change (settings_changes command);
            settings_resets :=
              fold_left (fun acc setting => fst (set_insert (normalizeSetting setting) acc))
                        (settings_resets command) [] |})
      alter_commands.

(** The code [alter] calls and this file does not define. *)
Record AlterCollaborators : Type := {
  (** [AlterCommands::isSettingsAlter] *)
  isSettingsAlter : AlterCommands -> bool;
  (** [AlterCommands::apply], on the settings clause of the metadata *)
  AlterCommands_apply : AlterCommands -> option SettingsChanges -> SettingsChanges;
  (** [ObjectStorageQueueSettings().get(name)]: the default of a setting *)
  default_settings_get : string -> Field;
  (** [ObjectStorageQueueMetadata::alterSettings] *)
  alterSettings : SettingsChanges -> QueueMetadata -> QueueMetadata;
  (** [Field::safeGet<UInt64>] and [Field::safeGet<bool>] *)
  safeGetUInt64 : Field -> Result Z;
  safeGetBool : Field -> Result bool
}.

(** The lambda [get_names]: the names as a set, or the first repeated one. *)
Fixpoint get_names_from (settings : SettingsChanges) (names : list string)
    : Result (list string) :=
  match settings with
  | [] => Ok names
  | setting :: rest =>
      let '(names', inserted) := set_insert (name setting) names in
      if negb inserted then
        Throw (DBException BAD_ARGUMENTS "Setting {} is duplicated"
                 [ArgString (name setting)])
      else get_names_from rest names'
  end.

Definition get_names (settings : SettingsChanges) : Result (list string) :=
  get_names_from settings [].

(** [setting_changed] as [alter] computes it. *)
Definition setting_changed (old_settings : option SettingsChanges)
    (setting : SettingChange) : bool :=
  match old_settings with
  | None => true
  | Some old =>
      match find (fun change => String.eqb (name change) (name setting)) old with
      | None => true
      | Some it => negb (Field_eqb (value it) (value setting))
      end
  end.

(** The settings [alter] adds for the names that disappeared: each with
    its default. *)
Definition add_reset_settings (ext : AlterCollaborators)
    (old_settings : option SettingsChanges) (new_settings : SettingsChanges)
    : Result SettingsChanges :=
  match old_settings with
  | Some old =>
      (old_settings_set <-? get_names old ;
       new_settings_set <-? get_names new_settings ;
       let reset_settings := set_difference old_settings_set new_settings_set in
       Ok (new_settings
           ++ map (fun name_ => {| name := name_;
                                   value := default_settings_get ext name_ |})
                  reset_settings)%list)%result
  | None => Ok new_settings
  end.

(** The body of the main loop of [alter] once the setting is known to be
    changed: may it be changed, in this mode and with these views? *)
Definition check_changed_setting (st : Storage) (views : DependentViews)
    (mode_ : ObjectStorageQueueMode) (setting : SettingChange) : Result unit :=
  (changeable <-? isSettingChangeable (name setting) mode_ ;
   if negb changeable then
     Throw (DBException SUPPORT_IS_DISABLED
       "Changing setting {} is not allowed for {} mode of {}"
       [ArgString (name setting); ArgString (mode_name mode_);
        ArgString (getName st)])
   else
     detached <-? requiresDetachedMV (name setting) ;
     if detached then
       let dependencies_count := getDependencies views in
       if negb (dependencies_count =? 0) then
         Throw (DBException SUPPORT_IS_DISABLED
           "Changing setting {} is not allowed only with detached dependencies (dependencies count: {})"
           [ArgString (name setting); ArgNumber dependencies_count])
       else Ok tt
     else Ok tt)%result.

(** The main loop of [alter]: [new_settings_set] and [changed_settings]
    are the two accumulators of the source. *)
Fixpoint alter_loop (st : Storage) (views : DependentViews)
    (mode_ : ObjectStorageQueueMode) (old_settings : option SettingsChanges)
    (new_settings : SettingsChanges) (new_settings_set : list string)
    (changed_settings : SettingsChanges) : Result SettingsChanges :=
  match new_settings with
  | [] => Ok changed_settings
  | setting :: rest =>
      let '(new_settings_set', inserted) :=
        set_insert (name setting) new_settings_set in
      if negb inserted then
        Throw (DBException BAD_ARGUMENTS "Setting {} is duplicated"
                 [ArgString (name setting)])
      else if negb (setting_changed old_settings setting) then
        alter_loop st views mode_ old_settings rest new_settings_set'
                   changed_settings
      else
        match check_changed_setting st views mode_ setting with
        | Throw e => Throw e
        | Ok _ =>
            alter_loop st views mode_ old_settings rest new_settings_set'
                       (changed_settings ++ [setting])%list
        end
  end.

(** The members guarded by [mutex] that [alter] assigns. *)
Definition set_engine_local (st : Storage) (min_ max_ backoff_ batch_ : Z)
    (hash_ : bool) (commit_ : CommitSettings) : Storage :=
  {| table_id := table_id st;
     engine_name := engine_name st;
     zk_path := zk_path st;
     enable_logging_to_queue_log := enable_logging_to_queue_log st;
     polling_min_timeout_ms := min_;
     polling_max_timeout_ms := max_;
     polling_backoff_ms := backoff_;
     list_objects_batch_size := batch_;
     enable_hash_ring_filtering := hash_;
     commit_settings := commit_;
     path := path st;
     reschedule_processing_interval_ms := reschedule_processing_interval_ms st;
     mv_attached := mv_attached st;
     files_metadata := files_metadata st;
     metadata_settings_changes := metadata_settings_changes st |}.

Definition set_files_metadata (m : QueueMetadata) (st : Storage) : Storage :=
  {| table_id := table_id st;
     engine_name := engine_name st;
     zk_path := zk_path st;
     enable_logging_to_queue_log := enable_logging_to_queue_log st;
     polling_min_timeout_ms := polling_min_timeout_ms st;
     polling_max_timeout_ms := polling_max_timeout_ms st;
     polling_backoff_ms := polling_backoff_ms st;
     list_objects_batch_size := list_objects_batch_size st;
     enable_hash_ring_filtering := enable_hash_ring_filtering st;
     commit_settings := commit_settings st;
     path := path st;
     reschedule_processing_interval_ms := reschedule_processing_interval_ms st;
     mv_attached := mv_attached st;
     files_metadata := m;
     metadata_settings_changes := metadata_settings_changes st |}.

Definition setInMemoryMetadata (changes : SettingsChanges) (st : Storage)
    : Storage :=
  {| table_id := table_id st;
     engine_name := engine_name st;
     zk_path := zk_path st;
     enable_logging_to_queue_log := enable_logging_to_queue_log st;
     polling_min_timeout_ms := polling_min_timeout_ms st;
     polling_max_timeout_ms := polling_max_timeout_ms st;
     polling_backoff_ms := polling_backoff_ms st;
     list_objects_batch_size := list_objects_batch_size st;
     enable_hash_ring_filtering := enable_hash_ring_filtering st;
     commit_settings := commit_settings st;
     path := path st;
     reschedule_processing_interval_ms := reschedule_processing_interval_ms st;
     mv_attached := mv_attached st;
     files_metadata := files_metadata st;
     metadata_settings_changes := Some changes |}.

(** One assignment [if (change.name == key) member = change.value.safeGet<T>()]:
    the storage afterwards, and the exception of [safeGet] if it threw. *)
Definition assign_if {T : Type} (change : SettingChange) (key : string)
    (safeGet : Field -> Result T) (assign : T -> Storage -> Storage)
    (acc : Storage * Result unit) : Storage * Result unit :=
  match acc with
  | (st, Ok _) =>
      if String.eqb (name change) key then
        match safeGet (value change) with
        | Ok v => (assign v st, Ok tt)
        | Throw e => (st, Throw e)
        end
      else (st, Ok tt)
  | (st, Throw e) => (st, Throw e)
  end.

Definition set_commit_settings (c : CommitSettings) (st : Storage) : Storage :=
  set_engine_local st (polling_min_timeout_ms st) (polling_max_timeout_ms st)
    (polling_backoff_ms st) (list_objects_batch_size st)
    (enable_hash_ring_filtering st) c.

(** The body of the loop over [changed_settings] that updates the members
    which are not stored in the coordinator. *)
Definition alter_local_setting (ext : AlterCollaborators)
    (acc : Storage * Result unit) (change : SettingChange)
    : Storage * Result unit :=
  let u64 := safeGetUInt64 ext in
  assign_if change "enable_hash_ring_filtering" (safeGetBool ext)
    (fun v st => set_engine_local st (polling_min_timeout_ms st)
       (polling_max_timeout_ms st) (polling_backoff_ms st)
       (list_objects_batch_size st) v (commit_settings st))
  (assign_if change "list_objects_batch_size" u64
    (fun v st => set_engine_local st (polling_min_timeout_ms st)
       (polling_max_timeout_ms st) (polling_backoff_ms st) v
       (enable_hash_ring_filtering st) (commit_settings st))
  (assign_if change "max_processing_time_sec_before_commit" u64
    (fun v st => set_commit_settings
       {| max_processed_files_before_commit :=
            max_processed_files_before_commit (commit_settings st);
          max_processed_rows_before_commit :=
            max_processed_rows_before_commit (commit_settings st);
          max_processed_bytes_before_commit :=
            max_processed_bytes_before_commit (commit_settings st);
          max_processing_time_sec_before_commit := v |} st)
  (assign_if change "max_processed_bytes_before_commit" u64
    (fun v st => set_commit_settings
       {| max_processed_files_before_commit :=
            max_processed_files_before_commit (commit_settings st);
          max_processed_rows_before_commit :=
            max_processed_rows_before_commit (commit_settings st);
          max_processed_bytes_before_commit := v;
          max_processing_time_sec_before_commit :=
            max_processing_time_sec_before_commit (commit_settings st) |} st)
  (assign_if change "max_processed_rows_before_commit" u64
    (fun v st => set_commit_settings
       {| max_processed_files_before_commit :=
            max_processed_files_before_commit (commit_settings st);
          max_processed_rows_before_commit := v;
          max_processed_bytes_before_commit :=
            max_processed_bytes_before_commit (commit_settings st);
          max_processing_time_sec_before_commit :=
            max_processing_time_sec_before_commit (commit_settings st) |} st)
  (assign_if change "max_processed_files_before_commit" u64
    (fun v st => set_commit_settings
       {| max_processed_files_before_commit := v;
          max_processed_rows_before_commit :=
            max_processed_rows_before_commit (commit_settings st);
          max_processed_bytes_before_commit :=
            max_processed_bytes_before_commit (commit_settings st);
          max_processing_time_sec_before_commit :=
            max_processing_time_sec_before_commit (commit_settings st) |} st)
  (assign_if change "polling_backoff_ms" u64
    (fun v st => set_engine_local st (polling_min_timeout_ms st)
       (polling_max_timeout_ms st) v (list_objects_batch_size st)
       (enable_hash_ring_filtering st) (commit_settings st))
  (assign_if change "polling_max_timeout_ms" u64
    (fun v st => set_engine_local st (polling_min_timeout_ms st) v
       (polling_backoff_ms st) (list_objects_batch_size st)
       (enable_hash_ring_filtering st) (commit_settings st))
  (assign_if change "polling_min_timeout_ms" u64
    (fun v st => set_engine_local st v (polling_max_timeout_ms st)
       (polling_backoff_ms st) (list_objects_batch_size st)
       (enable_hash_ring_filtering st) (commit_settings st))
    acc)))))))).

(** [StorageObjectStorageQueue::alter]: the storage it leaves and whether
    it threw. Nothing is assigned before the checks are over.
    [ObjectStorageQueueMetadata::alterSettings] and the [alterTable] of the
    database, which runs between the assignments and [setInMemoryMetadata],
    are defined elsewhere: this is [alter] when they return. *)
Definition alter (ext : AlterCollaborators) (st : Storage)
    (views : DependentViews) (commands : AlterCommands)
    : Storage * Result unit :=
  if isSettingsAlter ext commands then
    let alter_commands := normalizeAlterCommands commands in
    let old_settings :=
      option_map (map normalize_change) (metadata_settings_changes st) in
    let applied := AlterCommands_apply ext alter_commands old_settings in
    match add_reset_settings ext old_settings applied with
    | Throw e => (st, Throw e)
    | Ok new_settings =>
        match alter_loop st views (mode (getTableMetadata st)) old_settings
                         new_settings [] [] with
        | Throw e => (st, Throw e)
        | Ok changed_settings =>
            let st1 :=
              set_files_metadata
                (alterSettings ext changed_settings (files_metadata st)) st in
            match fold_left (alter_local_setting ext) changed_settings
                            (st1, Ok tt) with
            | (st2, Throw e) => (st2, Throw e)
            | (st2, Ok _) => (setInMemoryMetadata new_settings st2, Ok tt)
            end
        end
    end
  else (st, Ok tt).

(** The names [alter] compares, and the list its main loop runs over. *)
Definition old_settings_of (st : Storage) : option SettingsChanges :=
  option_map (map normalize_change) (metadata_settings_changes st).

Definition new_settings_of (ext : AlterCollaborators) (st : Storage)
    (commands : AlterCommands) : Result SettingsChanges :=
  add_reset_settings ext (old_settings_of st)
    (AlterCommands_apply ext (normalizeAlterCommands commands) (old_settings_of st)).

Definition changeable_settings (mode_ : ObjectStorageQueueMode) : list string :=
  match mode_ with
  | UNORDERED => changeable_settings_unordered_mode
  | ORDERED => changeable_settings_ordered_mode
  end.

(** Does a name occur twice in the list? *)
Fixpoint has_duplicates (names : list string) : bool :=
  match names with
  | [] => false
  | x :: rest => contains rest x || has_duplicates rest
  end.

Definition is_normalized (name_ : string) : bool :=
  negb (starts_with name_ "s3queue_").

Definition duplicated (name_ : string) : Exception :=
  DBException BAD_ARGUMENTS "Setting {} is duplicated" [ArgString name_].

(* ================================================================== *)
(** * Collaborators to run the model on examples *)

(** A stand-in for [syncWithKeeper] on a fresh coordinator path: the table
    metadata carries the settings of the table being created. *)
Definition metadata_of_settings (_ : string) (s : ObjectStorageQueueSettings)
    (_ : bool) : TableMetadata :=
  {| mode := s_mode s;
     after_processing := s_after_processing s;
     loading_retries := s_loading_retries s;
     processing_threads_num := s_processing_threads_num s;
     last_processed_path := s_last_processed_path s;
     tracked_files_ttl_sec := s_tracked_file_ttl_sec s;
     tracked_files_limit := s_tracked_files_limit s;
     buckets := s_buckets s |}.

(** A stand-in for [AlterCommands::apply]: MODIFY SETTING overwrites the
    value of a name that is there and appends the others, RESET SETTING
    erases the name. *)
Fixpoint modify_setting (change : SettingChange) (settings : SettingsChanges)
    : SettingsChanges :=
  match settings with
  | [] => [change]
  | s :: rest =>
      if String.eqb (name s) (name change) then change :: rest
      else s :: modify_setting change rest
  end.

Fixpoint erase_setting (name_ : string) (settings : SettingsChanges)
    : SettingsChanges :=
  match settings with
  | [] => []
  | s :: rest =>
      if String.eqb (name s) name_ then rest else s :: erase_setting name_ rest
  end.

Definition apply_command (settings : SettingsChanges) (command : AlterCommand)
    : SettingsChanges :=
  match type command with
  | MODIFY_SETTING =>
      fold_left (fun acc change => modify_setting change acc)
                (settings_changes command) settings
  | RESET_SETTING =>
      fold_left (fun acc name_ => erase_setting name_ acc)
                (settings_resets command) settings
  | MODIFY_COLUMN => settings
  end.

Definition is_settings_command (command : AlterCommand) : bool :=
  match type command with
  | MODIFY_SETTING | RESET_SETTING => true
  | MODIFY_COLUMN => false
  end.

Definition plain_collaborators : AlterCollaborators :=
  {| isSettingsAlter := forallb is_settings_command;
     AlterCommands_apply := fun commands old =>
       fold_left apply_command commands
                 (match old with Some settings => settings | None => [] end);
     default_settings_get := fun _ => FieldUInt64 0;
     alterSettings := fun _ m => m;
     safeGetUInt64 := fun f =>
       match f with
       | FieldUInt64 z => Ok z
       | _ => Throw (CollaboratorException "Bad get: UInt64 expected")
       end;
     safeGetBool := fun f =>
       match f with
       | FieldBool b => Ok b
       | FieldUInt64 z => Ok (negb (z =? 0))
       | _ => Throw (CollaboratorException "Bad get: Bool expected")
       end |}.

(** An S3Queue table in the given mode, as the constructor builds it. *)
Definition queue_settings_of (m : ObjectStorageQueueMode)
    (a : ObjectStorageQueueAction) : ObjectStorageQueueSettings :=
  {| s_mode := m;
     s_mode_changed := true;
     s_after_processing := a;
     s_keeper_path := "";
     s_keeper_path_changed := false;
     s_loading_retries := 10;
     s_processing_threads_num := 2;
     s_enable_logging_to_queue_log := 0;
     s_last_processed_path := "";
     s_tracked_file_ttl_sec := 0;
     s_tracked_files_limit := 1000;
     s_cleanup_interval_min_ms := 60000;
     s_cleanup_interval_max_ms := 60000;
     s_buckets := 0;
     s_polling_min_timeout_ms := 1000;
     s_polling_max_timeout_ms := 10000;
     s_polling_backoff_ms := 1000;
     s_max_processed_files_before_commit := 100;
     s_max_processed_rows_before_commit := 0;
     s_max_processed_bytes_before_commit := 0;
     s_max_processing_time_sec_before_commit := 0;
     s_enable_hash_ring_filtering := false;
     s_list_objects_batch_size := 1000 |}.

Definition mode_field (m : ObjectStorageQueueMode) : Field :=
  match m with
  | ORDERED => FieldString "ordered"
  | UNORDERED => FieldString "unordered"
  end.

Definition queue_table (m : ObjectStorageQueueMode) (a : ObjectStorageQueueAction)
    (extra : SettingsChanges) : Result Storage :=
  StorageObjectStorageQueue contains_glob_char metadata_of_settings
    (queue_settings_of m a) "data/" "db.queue" "S3Queue" "/clickhouse/s3queue/db/queue"
    (Some ({| name := "mode"; value := mode_field m |} :: extra)) false.

(** The storage that construction yields. *)
Definition a_queue_table (m : ObjectStorageQueueMode)
    (a : ObjectStorageQueueAction) (extra : SettingsChanges) : Storage :=
  {| table_id := "db.queue";
     engine_name := "S3Queue";
     zk_path := "/clickhouse/s3queue/db/queue";
     enable_logging_to_queue_log := false;
     polling_min_timeout_ms := 1000;
     polling_max_timeout_ms := 10000;
     polling_backoff_ms := 1000;
     list_objects_batch_size := 1000;
     enable_hash_ring_filtering := false;
     commit_settings := {| max_processed_files_before_commit := 100;
                           max_processed_rows_before_commit := 0;
                           max_processed_bytes_before_commit := 0;
                           max_processing_time_sec_before_commit := 0 |};
     path := "data/*";
     reschedule_processing_interval_ms := 1000;
     mv_attached := false;
     files_metadata :=
       {| table_metadata := metadata_of_settings "" (queue_settings_of m a) false;
          cleanup_interval_min_ms := 60000;
          cleanup_interval_max_ms := 60000 |};
     metadata_settings_changes :=
       Some ({| name := "mode"; value := mode_field m |} :: extra) |}.

(** A source that has processed one file: on success it asks to move the
    file to the processed node and offers it for deletion; after a failed
    insert it asks to record the failure. A source that had no file asks
    for nothing. *)
Definition source_of_file (id : nat) (file : string) : Source :=
  {| processor_id := id;
     prepareCommitRequests := fun insert_succeeded exception_message =>
       if insert_succeeded then
         ([CreateRequest ("/processed/" ++ file) "";
           RemoveRequest ("/processing/" ++ file)], [file])
       else
         ([SetRequest ("/failed/" ++ file) exception_message;
           RemoveRequest ("/processing/" ++ file)], []) |}.

Definition idle_source (id : nat) : Source :=
  {| processor_id := id;
     prepareCommitRequests := fun _ _ => ([], []) |}.

(** A coordinator that accepts every transaction, and the same one with
    the fail point switched on. *)
Definition accepting_coordinator : Coordinator :=
  {| object_storage_queue_fail_commit := false;
     tryMulti := fun requests => (ZOK, map (fun _ => ZOK) requests) |}.

Definition failing_coordinator : Coordinator :=
  {| object_storage_queue_fail_commit := true;
     tryMulti := fun requests => (ZOK, map (fun _ => ZOK) requests) |}.

(** An iteration in which processor [i] gets the [i]-th of the given
    files, if there is one. *)
Definition iteration_over (files : list string) (rows_ : Z)
    (exception : option Exception) (zk : Coordinator) : Iteration :=
  {| createSource := fun i =>
       match nth_error files i with
       | Some file => source_of_file i file
       | None => idle_source i
       end;
     rows := rows_;
     executor_exception := exception;
     zookeeper := zk |}.

Definition what (e : Exception) : string :=
  match e with
  | DBException _ format _ => format
  | KeeperMultiException _ _ _ => "Transaction failed"
  | CollaboratorException message => message
  end.

(** A tick during which nobody shuts the table down. *)
Definition world_of (views : DependentViews) (its : list Iteration) : World :=
  {| shutdown_called_on_entry := false;
     dependent_views := views;
     table_exists := true;
     iterations := its;
     getCurrentExceptionMessage := what;
     shutdown_called_on_exit := false;
     unregister_exception := None |}.

(** The same tick, with [shutdown] called while it runs. *)
Definition shut_down_during (w : World) : World :=
  {| shutdown_called_on_entry := shutdown_called_on_entry w;
     dependent_views := dependent_views w;
     table_exists := table_exists w;
     iterations := iterations w;
     getCurrentExceptionMessage := getCurrentExceptionMessage w;
     shutdown_called_on_exit := true;
     unregister_exception := unregister_exception w |}.

(** The consumers as the specification words them: the dependent views
    that are materialized and have a target table that resolves. *)
Definition is_materialized_with_target (view : option ViewStorage) : bool :=
  match view with
  | Some (StorageMaterializedView (Some _)) => true
  | _ => false
  end.

Definition downstream_consumers (views : DependentViews) : DependentViews :=
  filter is_materialized_with_target views.

(** What [getDependencies] asks of every dependent view: it resolves, and
    if it is a materialized view its target table resolves. *)
Definition view_is_ready (view : option ViewStorage) : bool :=
  match view with
  | None => false
  | Some (StorageMaterializedView None) => false
  | Some _ => true
  end.

Definition a_setting (name_ : string) (value_ : Field) : SettingChange :=
  {| name := name_; value := value_ |}.

Definition MODIFY (changes : SettingsChanges) : AlterCommand :=
  {| type := MODIFY_SETTING; settings_changes := changes; settings_resets := [] |}.

Definition RESET (names : list string) : AlterCommand :=
  {| type := RESET_SETTING; settings_changes := []; settings_resets := names |}.

Definition one_materialized_view : DependentViews :=
  [Some (StorageMaterializedView (Some "db.target"))].

(* ================================================================== *)
(** * Format strings of exceptions (Common/LoggingFormatStringHelpers.h) *)

(** The loop of [formatStringCountArgsNum]: [str] is what is left from
    position [i] on, [cnt] the substitutions counted so far. The loop runs
    while two characters are left. *)
Fixpoint formatStringCountArgsNum_from (str : string) (cnt : Z) : Z :=
  match str with
  | String a tail =>
      match tail with
      | String b rest =>
          if Ascii.eqb a "{" && Ascii.eqb b "}" then
            formatStringCountArgsNum_from rest (cnt + 1)
          else if Ascii.eqb a "{" then -1
          else formatStringCountArgsNum_from tail cnt
      | EmptyString => cnt
      end
  | EmptyString => cnt
  end.

(** [formatStringCountArgsNum(str, len)] with [len] the length of [str]. *)
Definition formatStringCountArgsNum (str : string) : Z :=
  formatStringCountArgsNum_from str 0.

(** [formatStringCheckArgsNumImpl]: [true] when the call compiles. *)
Definition formatStringCheckArgsNumImpl (str : string) (nargs : Z) : bool :=
  if empty str then true
  else
    let cnt := formatStringCountArgsNum str in
    negb ((0 <=? cnt) && negb (cnt =? nargs)).

(** The check the constructor of [Exception] makes on its format string
    and the number of its arguments. *)
Definition format_string_checked (e : Exception) : bool :=
  match e with
  | DBException _ format args => formatStringCheckArgsNumImpl format (size args)
  | _ => true
  end.

(** A text without the opening brace. *)
Fixpoint brace_free (s : string) : bool :=
  match s with
  | EmptyString => true
  | String c rest => negb (Ascii.eqb c "{") && brace_free rest
  end.

(** A format string of the plain kind: texts without braces, with a
    substitution after each of [texts]. *)
Fixpoint plain_format (texts : list string) (last : string) : string :=
  match texts with
  | [] => last
  | text :: rest => text ++ "{}" ++ plain_format rest last
  end.

(* ================================================================== *)
(** * The read step *)

(** What [createFileIterator] hands to the [FileIterator] it builds:
    the predicate, the copies of the two members taken under the mutex,
    and whether files may be deleted from the coordinator. *)
Record FileIterator : Type := {
  predicate : option string;
  list_objects_batch_size_copy : Z;
  enable_hash_ring_filtering_copy : bool;
  file_deletion_enabled : bool
}.

Definition is_UNORDERED (m : ObjectStorageQueueMode) : bool :=
  match m with UNORDERED => true | ORDERED => false end.

(** [StorageObjectStorageQueue::createFileIterator]. *)
Definition createFileIterator (st : Storage) (predicate_ : option string)
    : FileIterator :=
  let table_metadata_ := getTableMetadata st in
  {| predicate := predicate_;
     list_objects_batch_size_copy := list_objects_batch_size st;
     enable_hash_ring_filtering_copy := enable_hash_ring_filtering st;
     file_deletion_enabled :=
       is_UNORDERED (mode table_metadata_)
       && (negb (tracked_files_ttl_sec table_metadata_ =? 0)
           || negb (tracked_files_limit table_metadata_ =? 0)) |}.

(** What [createSource] hands to the [ObjectStorageQueueSource] it
    builds, as far as the engine decides it. *)
Record QueueSource : Type := {
  source_processor_id : nat;
  source_file_iterator : FileIterator;
  source_commit_settings : CommitSettings;
  source_max_block_size : Z;
  source_commit_once_processed : bool
}.

(** [StorageObjectStorageQueue::createSource]. *)
Definition StorageObjectStorageQueue_createSource (st : Storage)
    (processor_id_ : nat) (file_iterator : FileIterator) (max_block_size : Z)
    (commit_once_processed : bool) : QueueSource :=
  {| source_processor_id := processor_id_;
     source_file_iterator := file_iterator;
     source_commit_settings := commit_settings st;
     source_max_block_size := max_block_size;
     source_commit_once_processed := commit_once_processed |}.

Inductive Processor : Type :=
| ObjectStorageQueueSource (source : QueueSource)
| NullSource.

(** The members of [ReadFromObjectStorageQueue] that change; the storage
    is shared with the table and is passed to each call as it is then. *)
Record ReadFromObjectStorageQueue : Type := {
  step_max_block_size : Z;
  iterator : option FileIterator
}.

(** The iterator the step holds once [createIterator] has run: the one
    it had, or a new one for the predicate. *)
Definition iterator_after (st : Storage) (step : ReadFromObjectStorageQueue)
    (predicate_ : option string) : FileIterator :=
  match iterator step with
  | Some file_iterator => file_iterator
  | None => createFileIterator st predicate_
  end.

(** [ReadFromObjectStorageQueue::createIterator]. *)
Definition createIterator (st : Storage) (step : ReadFromObjectStorageQueue)
    (predicate_ : option string) : ReadFromObjectStorageQueue :=
  {| step_max_block_size := step_max_block_size step;
     iterator := Some (iterator_after st step predicate_) |}.

(** [ReadFromObjectStorageQueue::applyFilters]; [filter_actions_dag] is
    the list of the outputs of the filter DAG, if there is one. *)
Definition applyFilters (st : Storage) (step : ReadFromObjectStorageQueue)
    (filter_actions_dag : option (list string))
    : Result ReadFromObjectStorageQueue :=
  match filter_actions_dag with
  | Some [] => Throw (CollaboratorException "std::out_of_range")
  | Some (output :: _) => Ok (createIterator st step (Some output))
  | None => Ok (createIterator st step None)
  end.

(** [ReadFromObjectStorageQueue::initializePipeline]: the step afterwards
    and the processors of the pipe. *)
Definition initializePipeline (st : Storage) (step : ReadFromObjectStorageQueue)
    : ReadFromObjectStorageQueue * list Processor :=
  let processing_threads_num_ := processing_threads_num (getTableMetadata st) in
  let file_iterator := iterator_after st step None in
  let pipes :=
    map (fun i => ObjectStorageQueueSource
                    (StorageObjectStorageQueue_createSource st i file_iterator
                       (step_max_block_size step) true))
        (seq 0 (Z.to_nat processing_threads_num_)) in
  (createIterator st step None, if is_nil pipes then [NullSource] else pipes).

(** The step [read] adds to the plan. *)
Definition new_read_step (max_block_size : Z) : ReadFromObjectStorageQueue :=
  {| step_max_block_size := max_block_size; iterator := None |}.

Definition source_of (p : Processor) : option QueueSource :=
  match p with
  | ObjectStorageQueueSource s => Some s
  | NullSource => None
  end.

Definition is_FinalizeCommit (ev : Event) : bool :=
  match ev with FinalizeCommit _ _ _ => true | _ => false end.

Definition is_ExecutePipeline (ev : Event) : bool :=
  match ev with ExecutePipeline _ => true | _ => false end.

Definition is_ReleaseFinishedBuckets (ev : Event) : bool :=
  match ev with ReleaseFinishedBuckets => true | _ => false end.

Definition is_Unregister (ev : Event) : bool :=
  match ev with Unregister => true | _ => false end.

Definition is_ScheduleAfter (ev : Event) : bool :=
  match ev with ScheduleAfter _ => true | _ => false end.

(** The effects of the after-processing action of [commit]. *)
Definition removal_events (st : Storage) (successful_objects : StoredObjects)
    : Trace :=
  if negb (is_nil successful_objects)
     && is_DELETE (after_processing (getTableMetadata st))
  then [RemoveObjectsIfExist successful_objects;
        ProfileIncrement ObjectStorageQueueRemovedObjects (size successful_objects)]
  else [].

(** A coordinator that rejects every transaction: the version check of
    the first request fails. *)
Definition rejecting_coordinator : Coordinator :=
  {| object_storage_queue_fail_commit := false;
     tryMulti := fun requests => (ZBADVERSION, map (fun _ => ZBADVERSION) requests) |}.

(** How often an event of a kind occurs in a trace. *)
Definition count_events (kind : Event -> bool) (t : Trace) : nat :=
  List.length (filter kind t).

(** The events [commit] can perform, and those of the loop of
    [streamToViews]. *)
Definition is_commit_event (ev : Event) : bool :=
  match ev with
  | ProfileIncrement _ _ | RemoveObjectsIfExist _ | TryMulti _
  | FinalizeCommit _ _ _ => true
  | _ => false
  end.

Definition is_loop_event (ev : Event) : bool :=
  match ev with
  | CreateFileIterator | ExecutePipeline _ | ReleaseFinishedBuckets => true
  | _ => is_commit_event ev
  end.

(** An iteration whose executor returns and whose commit goes through. *)
Definition iteration_succeeds (st : Storage) (processing_threads_num_ : Z)
    (it : Iteration) : bool :=
  match executor_exception it with
  | Some _ => false
  | None =>
      is_ok (result_of (commit st (zookeeper it) true (rows it)
                          (create_sources it processing_threads_num_) ""))
  end.

(** [total_rows] after the iterations, each [+=] on a [size_t]. *)
Definition total_rows_after (its : list Iteration) (total_rows : Z) : Z :=
  fold_left (fun total it => wrap64 (total + rows it)) its total_rows.

(** Several ticks in a row. *)
Definition run_ticks (st : Storage) (worlds : list World) : Storage :=
  fold_left (fun s w => snd (threadFunc s w)) worlds st.

(** The rows read over the iterations, as a number. *)
Definition rows_read (its : list Iteration) : Z :=
  fold_right (fun it acc => rows it + acc) 0 its.

(** The same tick when the engine table has left the catalog. *)
Definition without_engine_table (w : World) : World :=
  {| shutdown_called_on_entry := shutdown_called_on_entry w;
     dependent_views := dependent_views w;
     table_exists := false;
     iterations := iterations w;
     getCurrentExceptionMessage := getCurrentExceptionMessage w;
     shutdown_called_on_exit := shutdown_called_on_exit w;
     unregister_exception := unregister_exception w |}.

Definition not_scheduling (ev : Event) : bool :=
  negb (is_ScheduleAfter ev || is_Unregister ev).

(** The same tick when the unregistration of the replica throws. *)
Definition with_failing_unregister (e : Exception) (w : World) : World :=
  {| shutdown_called_on_entry := shutdown_called_on_entry w;
     dependent_views := dependent_views w;
     table_exists := table_exists w;
     iterations := iterations w;
     getCurrentExceptionMessage := getCurrentExceptionMessage w;
     shutdown_called_on_exit := shutdown_called_on_exit w;
     unregister_exception := Some e |}.

(* ================================================================== *)
(** * checkAlterIsPossible *)

(** The first loop of [checkAlterIsPossible]: every command must modify
    or reset settings. *)
Fixpoint check_command_types (st : Storage) (commands : AlterCommands)
    : Result unit :=
  match commands with
  | [] => Ok tt
  | command :: rest =>
      match type command with
      | MODIFY_SETTING | RESET_SETTING => check_command_types st rest
      | MODIFY_COLUMN =>
          Throw (DBException SUPPORT_IS_DISABLED
                   "Only MODIFY/RESET SETTING alter is allowed for {}"
                   [ArgString (getName st)])
      end
  end.

(** [setting_changed] as [checkAlterIsPossible] computes it: with a
    settings clause, a name that is not in it does not count as changed. *)
Definition setting_changed_in_check (old_settings : option SettingsChanges)
    (setting : SettingChange) : bool :=
  match old_settings with
  | None => true
  | Some old =>
      match find (fun change => String.eqb (name change) (name setting)) old with
      | None => false
      | Some it => negb (Field_eqb (value it) (value setting))
      end
  end.

(** What [checkAlterIsPossible] asks of a changed setting. *)
Definition check_changed_setting_in_check (st : Storage) (views : DependentViews)
    (mode_ : ObjectStorageQueueMode) (setting : SettingChange) : Result unit :=
  (changeable <-? isSettingChangeable (name setting) mode_ ;
   if negb changeable then
     Throw (DBException SUPPORT_IS_DISABLED
       "Changing setting {} is not allowed for {} mode of {}"
       [ArgString (name setting); ArgString (mode_name mode_);
        ArgString (getName st)])
   else
     detached <-? requiresDetachedMV (name setting) ;
     if detached then
       let dependencies_count := getDependencies views in
       if negb (dependencies_count =? 0) then
         Throw (DBException SUPPORT_IS_DISABLED
           "Changing setting {} is allowed only with detached dependencies (dependencies count: {})"
           [ArgString (name setting); ArgNumber dependencies_count])
       else Ok tt
     else Ok tt)%result.

(** The loop of [checkAlterIsPossible] over the new settings. *)
Fixpoint checkAlterIsPossible_loop (st : Storage) (views : DependentViews)
    (mode_ : ObjectStorageQueueMode) (old_settings : option SettingsChanges)
    (new_settings : SettingsChanges) : Result unit :=
  match new_settings with
  | [] => Ok tt
  | setting :: rest =>
      if setting_changed_in_check old_settings setting then
        match check_changed_setting_in_check st views mode_ setting with
        | Throw e => Throw e
        | Ok _ => checkAlterIsPossible_loop st views mode_ old_settings rest
        end
      else checkAlterIsPossible_loop st views mode_ old_settings rest
  end.

(** [StorageObjectStorageQueue::checkAlterIsPossible];
    [hasSettingsChanges] is what the metadata answers once the commands
    are applied. *)
Definition checkAlterIsPossible (ext : AlterCollaborators) (st : Storage)
    (views : DependentViews) (commands : AlterCommands)
    (hasSettingsChanges : bool) : Result unit :=
  (check_command_types st commands ;;?
   let old_settings := old_settings_of st in
   let new_settings :=
     AlterCommands_apply ext (normalizeAlterCommands commands) old_settings in
   if negb hasSettingsChanges then
     Throw (DBException LOGICAL_ERROR "No settings changes" [])
   else
     checkAlterIsPossible_loop st views (mode (getTableMetadata st)) old_settings
       new_settings)%result.

(** The members [alter] has no business with. *)
Definition same_outside_settings (a b : Storage) : Prop :=
  table_id a = table_id b
  /\ engine_name a = engine_name b
  /\ zk_path a = zk_path b
  /\ enable_logging_to_queue_log a = enable_logging_to_queue_log b
  /\ path a = path b
  /\ reschedule_processing_interval_ms a = reschedule_processing_interval_ms b
  /\ mv_attached a = mv_attached b.

(** The members [alter] assigns under the mutex. *)
Definition same_engine_local (a b : Storage) : Prop :=
  polling_min_timeout_ms a = polling_min_timeout_ms b
  /\ polling_max_timeout_ms a = polling_max_timeout_ms b
  /\ polling_backoff_ms a = polling_backoff_ms b
  /\ list_objects_batch_size a = list_objects_batch_size b
  /\ enable_hash_ring_filtering a = enable_hash_ring_filtering b
  /\ commit_settings a = commit_settings b.

(** The members the assignments of [alter] leave alone. *)
Definition untouched_by_assignments (s0 s : Storage) : Prop :=
  same_outside_settings s s0
  /\ files_metadata s = files_metadata s0
  /\ metadata_settings_changes s = metadata_settings_changes s0.

(** The members that the loop over [changed_settings] in [alter] assigns
    from a [UInt64] value, each with the name of its setting. *)
Definition local_uint64_members : list (string * (Storage -> Z)) :=
  [ ("polling_min_timeout_ms", polling_min_timeout_ms);
    ("polling_max_timeout_ms", polling_max_timeout_ms);
    ("polling_backoff_ms", polling_backoff_ms);
    ("list_objects_batch_size", list_objects_batch_size) ].

Definition is_CreateFileIterator (ev : Event) : bool :=
  match ev with CreateFileIterator => true | _ => false end.

(** The events of one pass of the loop of [streamToViews]. *)
Definition is_iteration_event (ev : Event) : bool :=
  match ev with
  | ExecutePipeline _ | ReleaseFinishedBuckets => true
  | _ => is_commit_event ev
  end.

(* ================================================================== *)
(** * Properties *)

Example queue_table_constructed m a extra :
  queue_table m a extra = Ok (a_queue_table m a extra).
Proof. reflexivity. Qed.

(* ------------------------------------------------------------------ *)
(** ** Construction: the shape of the path *)

Lemma ends_with_nonempty p c : ends_with p c = true -> empty p = false.
Proof. destruct p; simpl; [discriminate | reflexivity]. Qed.

Lemma empty_false p : p <> "" -> empty p = false.
Proof. destruct p; [congruence | reflexivity]. Qed.

Lemma constructor_keeps_configured_path isPathWithGlobs sync qs p tid en zk ast att st :
  StorageObjectStorageQueue isPathWithGlobs sync qs p tid en zk ast att = Ok st ->
  configured_path isPathWithGlobs p = Ok (path st).
Proof.
  unfold StorageObjectStorageQueue, rbind.
  destruct (configured_path isPathWithGlobs p) as [q|e]; [|discriminate].
  destruct (validateSettings qs att); [|discriminate].
  intros H. injection H as <-. reflexivity.
Qed.

(** C6, as amended. A non-empty path that neither ends with '/' nor
    contains globs makes the construction fail with BAD_QUERY_PARAMETER,
    before the settings are looked at; a path ending with '/' gets '*'
    appended; the empty path becomes "/*"; a path with globs that does not
    end with '/' is kept. *)
Theorem constructor_path_shape (isPathWithGlobs : string -> bool) sync qs
    (p tid en zk : string) ast att :
  (p <> "" -> ends_with p "/" = false -> isPathWithGlobs p = false ->
   StorageObjectStorageQueue isPathWithGlobs sync qs p tid en zk ast att
   = Throw (DBException BAD_QUERY_PARAMETER
              "ObjectStorageQueue url must either end with '/' or contain globs" []))
  /\ (ends_with p "/" = true ->
      configured_path isPathWithGlobs p = Ok (p ++ "*")
      /\ forall st,
          StorageObjectStorageQueue isPathWithGlobs sync qs p tid en zk ast att = Ok st ->
          path st = p ++ "*")
  /\ (p = "" -> configured_path isPathWithGlobs p = Ok "/*")
  /\ (p <> "" -> ends_with p "/" = false -> isPathWithGlobs p = true ->
      configured_path isPathWithGlobs p = Ok p).
Proof.
  split; [|split; [|split]].
  - intros Hne Hslash Hglob.
    unfold StorageObjectStorageQueue, configured_path.
    rewrite (empty_false _ Hne), Hslash, Hglob. reflexivity.
  - intros H.
    assert (Hp : configured_path isPathWithGlobs p = Ok (p ++ "*")).
    { unfold configured_path.
      rewrite (ends_with_nonempty _ _ H), H. reflexivity. }
    split; [exact Hp |].
    intros st Hst.
    apply constructor_keeps_configured_path in Hst.
    congruence.
  - intros ->. reflexivity.
  - intros Hne Hslash Hglob. unfold configured_path.
    rewrite (empty_false _ Hne), Hslash, Hglob. reflexivity.
Qed.

Lemma constructor_path_shape_witness :
  StorageObjectStorageQueue contains_glob_char metadata_of_settings
    (queue_settings_of UNORDERED KEEP) "data/file.csv" "db.queue" "S3Queue"
    "/clickhouse/s3queue/db/queue" None false
  = Throw (DBException BAD_QUERY_PARAMETER
             "ObjectStorageQueue url must either end with '/' or contain globs" [])
  /\ path (a_queue_table UNORDERED KEEP []) = "data/*"
  /\ configured_path contains_glob_char "" = Ok "/*"
  /\ configured_path contains_glob_char "data/*.csv" = Ok "data/*.csv".
Proof.
  split; [|split; [|split]].
  - apply (constructor_path_shape contains_glob_char metadata_of_settings
             (queue_settings_of UNORDERED KEEP) "data/file.csv");
      [discriminate | reflexivity | reflexivity].
  - apply (proj2 (proj1 (proj2 (constructor_path_shape contains_glob_char
             metadata_of_settings (queue_settings_of UNORDERED KEEP) "data/"
             "db.queue" "S3Queue" "/clickhouse/s3queue/db/queue"
             (Some [{| name := "mode"; value := mode_field UNORDERED |}]) false))
             eq_refl)).
    reflexivity.
  - apply (constructor_path_shape contains_glob_char metadata_of_settings
             (queue_settings_of UNORDERED KEEP) "" "" "" "" None false).
    reflexivity.
  - apply (constructor_path_shape contains_glob_char metadata_of_settings
             (queue_settings_of UNORDERED KEEP) "data/*.csv" "" "" "" None false);
      [discriminate | reflexivity | reflexivity].
Defined.

(** The empty path neither ends with '/' nor contains a glob, and the
    table is built all the same, on the path "/*". *)
Lemma empty_path_is_accepted :
  ends_with "" "/" = false
  /\ contains_glob_char "" = false
  /\ exists st,
       StorageObjectStorageQueue contains_glob_char metadata_of_settings
         (queue_settings_of UNORDERED KEEP) "" "db.queue" "S3Queue"
         "/clickhouse/s3queue/db/queue" None false = Ok st
       /\ path st = "/*".
Proof.
  split; [reflexivity | split; [reflexivity |]].
  eexists. split; reflexivity.
Qed.

(* ------------------------------------------------------------------ *)
(** ** Direct SELECT *)





(* ------------------------------------------------------------------ *)
(** ** getSettings *)

(** C10. [getSettings] rebuilds the settings from the table metadata and
    the members: the mode, the after-processing action, the retries, the
    number of threads, the last processed path, the limits on tracked files
    and the buckets are those of the table metadata; the coordinator path,
    the logging flag, the three polling settings, the four commit
    thresholds, the hash-ring flag and the batch size are the members. It
    reports both cleanup intervals as 0: whatever the metadata object
    holds, and so whatever the table was created with. *)
Theorem getSettings_hides_cleanup_intervals :
  (forall st,
      s_cleanup_interval_min_ms (getSettings st) = 0
      /\ s_cleanup_interval_max_ms (getSettings st) = 0)
  /\ (forall st table_metadata_ min1 max1 min2 max2,
         getSettings (set_files_metadata
                        {| table_metadata := table_metadata_;
                           cleanup_interval_min_ms := min1;
                           cleanup_interval_max_ms := max1 |} st)
         = getSettings (set_files_metadata
                          {| table_metadata := table_metadata_;
                             cleanup_interval_min_ms := min2;
                             cleanup_interval_max_ms := max2 |} st))
  /\ (forall isPathWithGlobs sync qs p tid en zk ast att st,
         StorageObjectStorageQueue isPathWithGlobs sync qs p tid en zk ast att = Ok st ->
         cleanup_interval_min_ms (files_metadata st) = s_cleanup_interval_min_ms qs
         /\ cleanup_interval_max_ms (files_metadata st) = s_cleanup_interval_max_ms qs
         /\ s_cleanup_interval_min_ms (getSettings st) = 0
         /\ s_cleanup_interval_max_ms (getSettings st) = 0)
  /\ (forall st,
         (s_mode (getSettings st) = mode (getTableMetadata st)
          /\ s_after_processing (getSettings st) = after_processing (getTableMetadata st)
          /\ s_loading_retries (getSettings st) = loading_retries (getTableMetadata st)
          /\ s_processing_threads_num (getSettings st)
             = processing_threads_num (getTableMetadata st)
          /\ s_last_processed_path (getSettings st)
             = last_processed_path (getTableMetadata st)
          /\ s_tracked_file_ttl_sec (getSettings st)
             = tracked_files_ttl_sec (getTableMetadata st)
          /\ s_tracked_files_limit (getSettings st)
             = tracked_files_limit (getTableMetadata st)
          /\ s_buckets (getSettings st) = buckets (getTableMetadata st))
         /\ (s_keeper_path (getSettings st) = zk_path st
             /\ s_enable_logging_to_queue_log (getSettings st)
                = Z.b2z (enable_logging_to_queue_log st)
             /\ s_polling_min_timeout_ms (getSettings st) = polling_min_timeout_ms st
             /\ s_polling_max_timeout_ms (getSettings st) = polling_max_timeout_ms st
             /\ s_polling_backoff_ms (getSettings st) = polling_backoff_ms st
             /\ s_max_processed_files_before_commit (getSettings st)
                = max_processed_files_before_commit (commit_settings st)
             /\ s_max_processed_rows_before_commit (getSettings st)
                = max_processed_rows_before_commit (commit_settings st)
             /\ s_max_processed_bytes_before_commit (getSettings st)
                = max_processed_bytes_before_commit (commit_settings st)
             /\ s_max_processing_time_sec_before_commit (getSettings st)
                = max_processing_time_sec_before_commit (commit_settings st)
             /\ s_enable_hash_ring_filtering (getSettings st)
                = enable_hash_ring_filtering st
             /\ s_list_objects_batch_size (getSettings st)
                = list_objects_batch_size st)
         /\ s_mode_changed (getSettings st) = true
         /\ s_keeper_path_changed (getSettings st) = true).
Proof.
  split; [|split; [|split]].
  - intros st. split; reflexivity.
  - reflexivity.
  - intros g sync qs p tid en zk ast att st.
    unfold StorageObjectStorageQueue, rbind.
    destruct (configured_path g p); [|discriminate].
    destruct (validateSettings qs att); [|discriminate].
    intros H. injection H as <-. repeat split.
  - intros st. repeat split.
Qed.

Lemma getSettings_hides_cleanup_intervals_witness :
  cleanup_interval_min_ms (files_metadata (a_queue_table ORDERED KEEP [])) = 60000
  /\ cleanup_interval_max_ms (files_metadata (a_queue_table ORDERED KEEP [])) = 60000
  /\ s_cleanup_interval_min_ms (getSettings (a_queue_table ORDERED KEEP [])) = 0
  /\ s_cleanup_interval_max_ms (getSettings (a_queue_table ORDERED KEEP [])) = 0.
Proof.
  exact (proj1 (proj2 (proj2 getSettings_hides_cleanup_intervals))
           contains_glob_char metadata_of_settings
           (queue_settings_of ORDERED KEEP) "data/" "db.queue" "S3Queue"
           "/clickhouse/s3queue/db/queue"
           (Some [{| name := "mode"; value := mode_field ORDERED |}]) false
           (a_queue_table ORDERED KEEP []) eq_refl).
Defined.

(* ------------------------------------------------------------------ *)
(** ** Commit *)

(** C1. With no request gathered, [commit] returns without a coordinator
    transaction and without a deletion. With requests, successful objects
    and the DELETE action, the objects are removed from the blob store
    before any [tryMulti]: nothing before the removal is a transaction, and
    the transaction, when the fail point lets it through, comes after. *)
Theorem commit_deletes_before_multi st zk insert_succeeded inserted_rows
    sources exception_message requests successful_objects :
  gather_requests sources insert_succeeded exception_message [] []
  = (requests, successful_objects) ->
  (requests = [] ->
   result_of (commit st zk insert_succeeded inserted_rows sources exception_message)
   = Ok tt
   /\ existsb is_TryMulti
        (trace_of (commit st zk insert_succeeded inserted_rows sources
                          exception_message)) = false
   /\ existsb is_RemoveObjectsIfExist
        (trace_of (commit st zk insert_succeeded inserted_rows sources
                          exception_message)) = false)
  /\ (requests <> [] -> successful_objects <> [] ->
      after_processing (getTableMetadata st) = DELETE ->
      exists pre post,
        trace_of (commit st zk insert_succeeded inserted_rows sources
                         exception_message)
        = (pre ++ RemoveObjectsIfExist successful_objects :: post)%list
        /\ existsb is_TryMulti pre = false
        /\ (object_storage_queue_fail_commit zk = false ->
            exists post1 post2,
              post = (post1 ++ TryMulti requests :: post2)%list)).
Proof.
  intros Hgather. unfold commit. simpl. rewrite Hgather. split.
  - intros ->. simpl. repeat split.
  - intros Hreq Hobj Hdel.
    destruct requests as [|r requests']; [congruence|].
    destruct successful_objects as [|o objects']; [congruence|].
    rewrite Hdel. simpl.
    exists [ProfileIncrement ObjectStorageQueueProcessedRows inserted_rows;
            ProfileIncrement ObjectStorageQueueCommitRequests (size (r :: requests'))].
    destruct (object_storage_queue_fail_commit zk) eqn:Hfail; simpl.
    + eexists. split; [reflexivity|]. split; [reflexivity|]. discriminate.
    + destruct (tryMulti zk (r :: requests')) as [code responses].
      destruct (is_ZOK code); simpl.
      * destruct (finalize_sources sources insert_succeeded exception_message)
          as [t res]. simpl.
        eexists. split; [reflexivity|]. split; [reflexivity|].
        intros _.
        exists [ProfileIncrement ObjectStorageQueueRemovedObjects (size (o :: objects'))].
        eexists. reflexivity.
      * eexists. split; [reflexivity|]. split; [reflexivity|].
        intros _.
        exists [ProfileIncrement ObjectStorageQueueRemovedObjects (size (o :: objects'))].
        eexists. reflexivity.
Qed.

Lemma commit_deletes_before_multi_witness :
  (result_of (commit (a_queue_table UNORDERED DELETE []) accepting_coordinator
                     true 0 [idle_source 0; idle_source 1] "") = Ok tt
   /\ existsb is_TryMulti
        (trace_of (commit (a_queue_table UNORDERED DELETE []) accepting_coordinator
                          true 0 [idle_source 0; idle_source 1] "")) = false
   /\ existsb is_RemoveObjectsIfExist
        (trace_of (commit (a_queue_table UNORDERED DELETE []) accepting_coordinator
                          true 0 [idle_source 0; idle_source 1] "")) = false)
  /\ exists pre post1 post2,
       trace_of (commit (a_queue_table UNORDERED DELETE []) accepting_coordinator
                        true 7 [source_of_file 0 "data/a.csv"; idle_source 1] "")
       = (pre ++ RemoveObjectsIfExist ["data/a.csv"]
              :: post1
              ++ TryMulti [CreateRequest "/processed/data/a.csv" "";
                           RemoveRequest "/processing/data/a.csv"]
              :: post2)%list
       /\ existsb is_TryMulti pre = false.
Proof.
  split.
  - apply (proj1 (commit_deletes_before_multi
                    (a_queue_table UNORDERED DELETE []) accepting_coordinator
                    true 0 [idle_source 0; idle_source 1] "" [] [] eq_refl)).
    reflexivity.
  - destruct (proj2 (commit_deletes_before_multi
                       (a_queue_table UNORDERED DELETE []) accepting_coordinator
                       true 7 [source_of_file 0 "data/a.csv"; idle_source 1] ""
                       [CreateRequest "/processed/data/a.csv" "";
                        RemoveRequest "/processing/data/a.csv"]
                       ["data/a.csv"] eq_refl)
                ltac:(discriminate) ltac:(discriminate) eq_refl)
      as (pre & post & Htrace & Hpre & Hmulti).
    destruct (Hmulti eq_refl) as (post1 & post2 & ->).
    exists pre, post1, post2. split; [exact Htrace | exact Hpre].
Defined.

Example commit_trace_with_delete :
  commit (a_queue_table UNORDERED DELETE []) accepting_coordinator
         true 7 [source_of_file 0 "data/a.csv"; idle_source 1] ""
  = ([ProfileIncrement ObjectStorageQueueProcessedRows 7;
      ProfileIncrement ObjectStorageQueueCommitRequests 2;
      RemoveObjectsIfExist ["data/a.csv"];
      ProfileIncrement ObjectStorageQueueRemovedObjects 1;
      TryMulti [CreateRequest "/processed/data/a.csv" "";
                RemoveRequest "/processing/data/a.csv"];
      ProfileIncrement ObjectStorageQueueSuccessfulCommits 1;
      FinalizeCommit 0 true "";
      FinalizeCommit 1 true ""], Ok tt).
Proof. reflexivity. Qed.

(* ------------------------------------------------------------------ *)
(** ** The streaming task *)

Lemma check_dependencies_ready views n :
  check_dependencies views n = if forallb view_is_ready views then n else 0.
Proof.
  induction views as [|v rest IH]; simpl; [reflexivity|].
  destruct v as [[[target|]|]|]; simpl; auto.
Qed.

Lemma getDependencies_ready views :
  getDependencies views = if forallb view_is_ready views then size views else 0.
Proof.
  unfold getDependencies. destruct views as [|v rest]; [reflexivity|].
  cbv [is_nil]. apply check_dependencies_ready.
Qed.

Lemma size_zero {A} (l : list A) : size l = 0 -> l = [].
Proof. destruct l; [reflexivity|]. unfold size. simpl. lia. Qed.

Lemma reschedule_has_no_streaming_event st w :
  existsb is_streaming_event (threadFunc_reschedule st w) = false.
Proof.
  unfold threadFunc_reschedule.
  destruct (shutdown_called_on_exit w); simpl; [reflexivity|].
  destruct (reschedule_processing_interval_ms st >? 5000); simpl; [|reflexivity].
  destruct (unregister_exception w); reflexivity.
Qed.

Lemma threadFunc_streaming st w :
  shutdown_called_on_entry w = false ->
  getDependencies (dependent_views w) <> 0 ->
  threadFunc st w
  = match streamToViews (set_mv_attached true st) w with
    | (t, Ok true) =>
        let st' := set_mv_attached false
                     (set_reschedule_processing_interval_ms
                        (polling_min_timeout_ms st) (set_mv_attached true st)) in
        ((RegisterIfNot :: t ++ threadFunc_reschedule st' w)%list, st')
    | (t, Ok false) =>
        let st' := set_mv_attached false
                     (set_reschedule_processing_interval_ms
                        (Z.min (polling_max_timeout_ms st)
                               (wrap64 (reschedule_processing_interval_ms st
                                        + polling_backoff_ms st)))
                        (set_mv_attached true st)) in
        ((RegisterIfNot :: t ++ threadFunc_reschedule st' w)%list, st')
    | (t, Throw e) =>
        let st' := set_mv_attached false (set_mv_attached true st) in
        ((RegisterIfNot :: t ++ LogError e :: threadFunc_reschedule st' w)%list, st')
    end.
Proof.
  intros Hentry Hdeps. unfold threadFunc, threadFunc_try. rewrite Hentry.
  apply Z.eqb_neq in Hdeps. rewrite Hdeps. simpl.
  destruct (streamToViews (set_mv_attached true st) w) as [t [[|]|e]]; simpl;
    try reflexivity.
  rewrite <- app_assoc. reflexivity.
Qed.

(** C4, as amended. [getDependencies] returns the number of dependent
    views when every one of them resolves and every materialized one has a
    target table, and 0 otherwise (a view that is not materialized counts;
    one view that is not ready brings the count to 0). When it returns 0
    the tick is skipped: no registration, no file iterator, no pipeline,
    and the storage is left as it was; when it does not, the tick starts by
    registering the replica. *)
Theorem tick_is_skipped_without_dependencies :
  (forall views,
      getDependencies views
      = if forallb view_is_ready views then size views else 0)
  /\ (forall views,
         getDependencies views = 0
         <-> views = [] \/ forallb view_is_ready views = false)
  /\ (forall st w,
         getDependencies (dependent_views w) = 0 ->
         existsb is_streaming_event (fst (threadFunc st w)) = false
         /\ snd (threadFunc st w) = st)
  /\ (forall st w,
         shutdown_called_on_entry w = false ->
         getDependencies (dependent_views w) <> 0 ->
         exists rest, fst (threadFunc st w) = RegisterIfNot :: rest).
Proof.
  split; [exact getDependencies_ready|]. split; [|split].
  - intros views. rewrite getDependencies_ready.
    destruct (forallb view_is_ready views); split; intros H.
    + left. apply size_zero, H.
    + destruct H as [->|H]; [reflexivity | discriminate].
    + right. reflexivity.
    + reflexivity.
  - intros st w H. unfold threadFunc, threadFunc_try.
    destruct (shutdown_called_on_entry w); [split; reflexivity|].
    rewrite H. simpl. split; [|reflexivity].
    apply reschedule_has_no_streaming_event.
  - intros st w Hentry Hdeps.
    rewrite (threadFunc_streaming st w Hentry Hdeps).
    destruct (streamToViews (set_mv_attached true st) w) as [t [[|]|e]];
      simpl; eauto.
Qed.

Lemma tick_is_skipped_without_dependencies_witness :
  (existsb is_streaming_event
     (fst (threadFunc (a_queue_table UNORDERED KEEP [])
             (world_of [Some (StorageMaterializedView None)]
                [iteration_over ["data/a.csv"] 3 None accepting_coordinator])))
   = false
   /\ snd (threadFunc (a_queue_table UNORDERED KEEP [])
             (world_of [Some (StorageMaterializedView None)]
                [iteration_over ["data/a.csv"] 3 None accepting_coordinator]))
      = a_queue_table UNORDERED KEEP [])
  /\ exists rest,
       fst (threadFunc (a_queue_table UNORDERED KEEP [])
              (world_of [Some (StorageMaterializedView (Some "db.target"))]
                 [iteration_over ["data/a.csv"] 3 None accepting_coordinator]))
       = RegisterIfNot :: rest.
Proof.
  split.
  - apply (proj1 (proj2 (proj2 tick_is_skipped_without_dependencies))).
    reflexivity.
  - apply (proj2 (proj2 (proj2 tick_is_skipped_without_dependencies)));
      [reflexivity | discriminate].
Defined.

(** A dependent view that is not a materialized view is no consumer in
    the words of the specification, yet the tick streams to it; and one
    materialized view without target table stops the tick although another
    one is ready. *)
Lemma consumers_are_not_the_ready_materialized_views :
  (downstream_consumers [Some OtherStorage] = []
   /\ fst (threadFunc (a_queue_table UNORDERED KEEP [])
             (world_of [Some OtherStorage]
                [iteration_over ["data/a.csv"] 3 None accepting_coordinator]))
      = [RegisterIfNot;
         CreateFileIterator;
         ProfileIncrement ObjectStorageQueueInsertIterations 1;
         ExecutePipeline 2;
         ProfileIncrement ObjectStorageQueueProcessedRows 3;
         ProfileIncrement ObjectStorageQueueCommitRequests 2;
         TryMulti [CreateRequest "/processed/data/a.csv" "";
                   RemoveRequest "/processing/data/a.csv"];
         ProfileIncrement ObjectStorageQueueSuccessfulCommits 1;
         FinalizeCommit 0 true "";
         FinalizeCommit 1 true "";
         ReleaseFinishedBuckets;
         ScheduleAfter 1000])
  /\ (downstream_consumers
        [Some (StorageMaterializedView (Some "db.target"));
         Some (StorageMaterializedView None)]
      = [Some (StorageMaterializedView (Some "db.target"))]
      /\ getDependencies
           [Some (StorageMaterializedView (Some "db.target"));
            Some (StorageMaterializedView None)] = 0
      /\ fst (threadFunc (a_queue_table UNORDERED KEEP [])
                (world_of [Some (StorageMaterializedView (Some "db.target"));
                           Some (StorageMaterializedView None)]
                   [iteration_over ["data/a.csv"] 3 None accepting_coordinator]))
         = [ScheduleAfter 1000]).
Proof. repeat split. Qed.

Lemma wrap64_small z : 0 <= z < two64 -> wrap64 z = z.
Proof. intros H. unfold wrap64. apply Z.mod_small. exact H. Qed.

Lemma streamToViews_returns_row_test st w t b :
  streamToViews st w = (t, Ok b) ->
  exists total_rows,
    result_of (streamToViews_loop st (getCurrentExceptionMessage w)
                 (processing_threads_num (getTableMetadata st))
                 (iterations w) 0) = Ok total_rows
    /\ b = (total_rows >? 0).
Proof.
  unfold streamToViews.
  destruct (table_exists w); simpl; [|discriminate].
  destruct (streamToViews_loop st (getCurrentExceptionMessage w)
              (processing_threads_num (getTableMetadata st)) (iterations w) 0)
    as [t' [total|e]]; simpl; [|discriminate].
  intros H. injection H as _ <-. exists total. split; reflexivity.
Qed.

Lemma reschedule_schedules st w :
  shutdown_called_on_exit w = false ->
  exists rest,
    threadFunc_reschedule st w
    = ScheduleAfter (reschedule_processing_interval_ms st) :: rest.
Proof.
  intros H. unfold threadFunc_reschedule. rewrite H. simpl. eauto.
Qed.

(** C3, as amended. A tick that runs the streaming loop ends in one of
    three ways. If [streamToViews] returned true, which it does exactly
    when [total_rows] is positive, the interval is [polling_min_timeout_ms].
    If it returned false, the interval is the minimum of
    [polling_max_timeout_ms] and the (64-bit) sum of the previous interval
    and [polling_backoff_ms]: it never exceeds the maximum, short of an
    overflow it is the previous interval raised by the backoff and capped,
    and it is then not below the previous interval if that one was at most
    the maximum. If [streamToViews] threw, the two assignments are skipped:
    the interval is the previous one and the exception is logged. In all
    three cases the task is rescheduled after the interval the tick
    leaves. *)
Theorem reschedule_interval_follows_progress st w :
  shutdown_called_on_entry w = false ->
  getDependencies (dependent_views w) <> 0 ->
  (forall t b,
      streamToViews (set_mv_attached true st) w = (t, Ok b) ->
      (exists total_rows,
          result_of (streamToViews_loop (set_mv_attached true st)
                       (getCurrentExceptionMessage w)
                       (processing_threads_num (getTableMetadata st))
                       (iterations w) 0) = Ok total_rows
          /\ b = (total_rows >? 0))
      /\ (b = true ->
          reschedule_processing_interval_ms (snd (threadFunc st w))
          = polling_min_timeout_ms st)
      /\ (b = false ->
          reschedule_processing_interval_ms (snd (threadFunc st w))
          = Z.min (polling_max_timeout_ms st)
                  (wrap64 (reschedule_processing_interval_ms st + polling_backoff_ms st))
          /\ reschedule_processing_interval_ms (snd (threadFunc st w))
             <= polling_max_timeout_ms st
          /\ (0 <= reschedule_processing_interval_ms st + polling_backoff_ms st < two64 ->
              reschedule_processing_interval_ms (snd (threadFunc st w))
              = Z.min (polling_max_timeout_ms st)
                      (reschedule_processing_interval_ms st + polling_backoff_ms st))
          /\ (0 <= polling_backoff_ms st ->
              0 <= reschedule_processing_interval_ms st <= polling_max_timeout_ms st ->
              reschedule_processing_interval_ms st + polling_backoff_ms st < two64 ->
              reschedule_processing_interval_ms st
              <= reschedule_processing_interval_ms (snd (threadFunc st w)))))
  /\ (forall t e,
         streamToViews (set_mv_attached true st) w = (t, Throw e) ->
         reschedule_processing_interval_ms (snd (threadFunc st w))
         = reschedule_processing_interval_ms st
         /\ In (LogError e) (fst (threadFunc st w)))
  /\ (shutdown_called_on_exit w = false ->
      In (ScheduleAfter (reschedule_processing_interval_ms (snd (threadFunc st w))))
         (fst (threadFunc st w))).
Proof.
  intros Hentry Hdeps.
  rewrite (threadFunc_streaming st w Hentry Hdeps).
  split; [|split].
  - intros t b Hstream.
    split; [exact (streamToViews_returns_row_test _ _ _ _ Hstream)|].
    rewrite Hstream. split.
    + intros ->. reflexivity.
    + intros ->. cbn [snd reschedule_processing_interval_ms set_mv_attached
                      set_reschedule_processing_interval_ms].
      split; [reflexivity|]. split; [apply Z.le_min_l|]. split.
      * intros Hrange. rewrite (wrap64_small _ Hrange). reflexivity.
      * intros Hb Hprev Hsum. rewrite wrap64_small by lia. lia.
  - intros t e Hstream. rewrite Hstream. cbn [fst snd]. split; [reflexivity|].
    right. apply in_or_app. right. left. reflexivity.
  - intros Hexit.
    destruct (streamToViews (set_mv_attached true st) w) as [t [[|]|e]];
      cbn [fst snd];
      match goal with
      | |- In _ (_ :: _ ++ threadFunc_reschedule ?s w)%list =>
          destruct (reschedule_schedules s w Hexit) as [rest ->];
          right; apply in_or_app; right; left; reflexivity
      | |- In _ (_ :: _ ++ _ :: threadFunc_reschedule ?s w)%list =>
          destruct (reschedule_schedules s w Hexit) as [rest ->];
          right; apply in_or_app; right; right; left; reflexivity
      end.
Qed.

Lemma reschedule_interval_follows_progress_witness :
  reschedule_processing_interval_ms
    (snd (threadFunc
            (set_reschedule_processing_interval_ms 4000 (a_queue_table UNORDERED KEEP []))
            (world_of one_materialized_view
               [iteration_over ["data/a.csv"] 3 None accepting_coordinator])))
  = 1000
  /\ (reschedule_processing_interval_ms
        (snd (threadFunc
                (set_reschedule_processing_interval_ms 9500 (a_queue_table UNORDERED KEEP []))
                (world_of one_materialized_view [])))
      = Z.min 10000 (9500 + 1000)
      /\ 9500 <= reschedule_processing_interval_ms
                   (snd (threadFunc
                           (set_reschedule_processing_interval_ms 9500
                              (a_queue_table UNORDERED KEEP []))
                           (world_of one_materialized_view []))))
  /\ reschedule_processing_interval_ms
       (snd (threadFunc
               (set_reschedule_processing_interval_ms 5000 (a_queue_table UNORDERED KEEP []))
               (world_of one_materialized_view
                  [iteration_over ["data/a.csv"] 3
                     (Some (CollaboratorException "Cannot parse input"))
                     accepting_coordinator])))
     = 5000
  /\ In (ScheduleAfter
           (reschedule_processing_interval_ms
              (snd (threadFunc
                      (set_reschedule_processing_interval_ms 9500
                         (a_queue_table UNORDERED KEEP []))
                      (world_of one_materialized_view [])))))
        (fst (threadFunc
                (set_reschedule_processing_interval_ms 9500 (a_queue_table UNORDERED KEEP []))
                (world_of one_materialized_view []))).
Proof.
  split; [|split; [|split]].
  - refine (proj1 (proj2 (proj1 (reschedule_interval_follows_progress
      (set_reschedule_processing_interval_ms 4000 (a_queue_table UNORDERED KEEP []))
      (world_of one_materialized_view
         [iteration_over ["data/a.csv"] 3 None accepting_coordinator])
      eq_refl _) _ true eq_refl)) eq_refl).
    discriminate.
  - destruct (proj2 (proj2 (proj1 (reschedule_interval_follows_progress
      (set_reschedule_processing_interval_ms 9500 (a_queue_table UNORDERED KEEP []))
      (world_of one_materialized_view [])
      eq_refl ltac:(discriminate)) [CreateFileIterator] false eq_refl)) eq_refl)
      as (_ & _ & Hsum & Hgrow).
    split.
    + apply Hsum. vm_compute. split; [discriminate | reflexivity].
    + apply Hgrow; vm_compute; try split; try discriminate; reflexivity.
  - refine (proj1 (proj1 (proj2 (reschedule_interval_follows_progress
      (set_reschedule_processing_interval_ms 5000 (a_queue_table UNORDERED KEEP []))
      (world_of one_materialized_view
         [iteration_over ["data/a.csv"] 3
            (Some (CollaboratorException "Cannot parse input")) accepting_coordinator])
      eq_refl _)) _ (CollaboratorException "Cannot parse input") eq_refl)).
    discriminate.
  - refine (proj2 (proj2 (reschedule_interval_follows_progress
      (set_reschedule_processing_interval_ms 9500 (a_queue_table UNORDERED KEEP []))
      (world_of one_materialized_view [])
      eq_refl _)) eq_refl).
    discriminate.
Defined.

(** A tick that runs the loop, reads and commits three rows in its first
    iteration and meets an exception in the second: rows were processed,
    yet the interval is neither reset to [polling_min_timeout_ms] nor
    raised by the backoff; it stays what it was. *)
Lemma rows_processed_then_exception_keeps_interval :
  In (ProfileIncrement ObjectStorageQueueProcessedRows 3)
     (fst (threadFunc
             (set_reschedule_processing_interval_ms 5000 (a_queue_table UNORDERED KEEP []))
             (world_of one_materialized_view
                [iteration_over ["data/a.csv"] 3 None accepting_coordinator;
                 iteration_over ["data/b.csv"] 2
                   (Some (CollaboratorException "Cannot parse input"))
                   accepting_coordinator])))
  /\ In (FinalizeCommit 0 true "")
        (fst (threadFunc
                (set_reschedule_processing_interval_ms 5000 (a_queue_table UNORDERED KEEP []))
                (world_of one_materialized_view
                   [iteration_over ["data/a.csv"] 3 None accepting_coordinator;
                    iteration_over ["data/b.csv"] 2
                      (Some (CollaboratorException "Cannot parse input"))
                      accepting_coordinator])))
  /\ reschedule_processing_interval_ms
       (snd (threadFunc
               (set_reschedule_processing_interval_ms 5000 (a_queue_table UNORDERED KEEP []))
               (world_of one_materialized_view
                  [iteration_over ["data/a.csv"] 3 None accepting_coordinator;
                   iteration_over ["data/b.csv"] 2
                     (Some (CollaboratorException "Cannot parse input"))
                     accepting_coordinator])))
     = 5000
  /\ polling_min_timeout_ms
       (set_reschedule_processing_interval_ms 5000 (a_queue_table UNORDERED KEEP []))
     = 1000
  /\ Z.min (polling_max_timeout_ms
              (set_reschedule_processing_interval_ms 5000 (a_queue_table UNORDERED KEEP [])))
           (5000 + polling_backoff_ms
                     (set_reschedule_processing_interval_ms 5000
                        (a_queue_table UNORDERED KEEP [])))
     = 6000.
Proof.
  split; [|split; [|split; [|split]]]; try reflexivity.
  - vm_compute. auto 10.
  - vm_compute. auto 12.
Qed.

Lemma commit_fail_point st zk insert_succeeded inserted_rows sources
    exception_message requests successful_objects :
  gather_requests sources insert_succeeded exception_message [] []
  = (requests, successful_objects) ->
  requests <> [] ->
  object_storage_queue_fail_commit zk = true ->
  result_of (commit st zk insert_succeeded inserted_rows sources exception_message)
  = Throw (DBException UNKNOWN_EXCEPTION "Failed to commit processed files" [])
  /\ existsb is_TryMulti
       (trace_of (commit st zk insert_succeeded inserted_rows sources
                         exception_message)) = false.
Proof.
  intros Hgather Hreq Hfail. unfold commit. simpl. rewrite Hgather.
  destruct requests as [|r requests']; [congruence|]. simpl.
  rewrite Hfail.
  destruct (negb (is_nil successful_objects)
            && is_DELETE (after_processing (getTableMetadata st)));
    simpl; split; reflexivity.
Qed.

(** C5. With the fail point [object_storage_queue_fail_commit] enabled and
    requests to commit, [commit] throws UNKNOWN_EXCEPTION and no [tryMulti]
    is issued; the exception leaves [streamToViews]; and whatever exception
    leaves [streamToViews], [threadFunc] logs it, keeps the reschedule
    interval, and, unless shutdown was called, schedules itself again after
    that interval. *)
Theorem fail_point_aborts_commit_and_task_retries :
  (forall st zk insert_succeeded inserted_rows sources exception_message
          requests successful_objects,
      gather_requests sources insert_succeeded exception_message [] []
      = (requests, successful_objects) ->
      requests <> [] ->
      object_storage_queue_fail_commit zk = true ->
      result_of (commit st zk insert_succeeded inserted_rows sources
                        exception_message)
      = Throw (DBException UNKNOWN_EXCEPTION "Failed to commit processed files" [])
      /\ existsb is_TryMulti
           (trace_of (commit st zk insert_succeeded inserted_rows sources
                             exception_message)) = false)
  /\ (forall st w it rest requests successful_objects,
         table_exists w = true ->
         iterations w = it :: rest ->
         executor_exception it = None ->
         gather_requests
           (create_sources it (processing_threads_num (getTableMetadata st)))
           true "" [] [] = (requests, successful_objects) ->
         requests <> [] ->
         object_storage_queue_fail_commit (zookeeper it) = true ->
         result_of (streamToViews st w)
         = Throw (DBException UNKNOWN_EXCEPTION "Failed to commit processed files" [])
         /\ existsb is_TryMulti (trace_of (streamToViews st w)) = false)
  /\ (forall st w t e,
         shutdown_called_on_entry w = false ->
         getDependencies (dependent_views w) <> 0 ->
         streamToViews (set_mv_attached true st) w = (t, Throw e) ->
         exists tail,
           fst (threadFunc st w) = (RegisterIfNot :: t ++ LogError e :: tail)%list
           /\ reschedule_processing_interval_ms (snd (threadFunc st w))
              = reschedule_processing_interval_ms st
           /\ (shutdown_called_on_exit w = false ->
               exists tail',
                 tail = ScheduleAfter (reschedule_processing_interval_ms st) :: tail')
           /\ (shutdown_called_on_exit w = true -> tail = [])).
Proof.
  split; [exact commit_fail_point|]. split.
  - intros st w it rest requests objs Htable Hits Hexec Hgather Hreq Hfail.
    unfold streamToViews. rewrite Htable, Hits. simpl. rewrite Hexec.
    destruct (commit_fail_point st (zookeeper it) true (rows it)
                (create_sources it (processing_threads_num (getTableMetadata st)))
                "" requests objs Hgather Hreq Hfail) as [Hres Htrace].
    destruct (commit st (zookeeper it) true (rows it)
                (create_sources it (processing_threads_num (getTableMetadata st))) "")
      as [tc rc].
    simpl in Hres, Htrace. subst rc. simpl. split; [reflexivity | exact Htrace].
  - intros st w t e Hentry Hdeps Hstream.
    rewrite (threadFunc_streaming st w Hentry Hdeps), Hstream.
    eexists. split; [reflexivity|]. split; [reflexivity|]. split.
    + intros Hexit. unfold threadFunc_reschedule. rewrite Hexit. simpl. eauto.
    + intros Hexit. unfold threadFunc_reschedule. rewrite Hexit. reflexivity.
Qed.

Lemma fail_point_aborts_commit_and_task_retries_witness :
  (result_of (commit (a_queue_table UNORDERED DELETE []) failing_coordinator
                     true 3 [source_of_file 0 "data/a.csv"] "")
   = Throw (DBException UNKNOWN_EXCEPTION "Failed to commit processed files" [])
   /\ existsb is_TryMulti
        (trace_of (commit (a_queue_table UNORDERED DELETE []) failing_coordinator
                          true 3 [source_of_file 0 "data/a.csv"] "")) = false)
  /\ (result_of (streamToViews (a_queue_table UNORDERED DELETE [])
                   (world_of [Some (StorageMaterializedView (Some "db.target"))]
                      [iteration_over ["data/a.csv"] 3 None failing_coordinator]))
      = Throw (DBException UNKNOWN_EXCEPTION "Failed to commit processed files" [])
      /\ existsb is_TryMulti
           (trace_of (streamToViews (a_queue_table UNORDERED DELETE [])
                        (world_of [Some (StorageMaterializedView (Some "db.target"))]
                           [iteration_over ["data/a.csv"] 3 None failing_coordinator])))
         = false)
  /\ exists tail,
       fst (threadFunc (a_queue_table UNORDERED DELETE [])
              (world_of [Some (StorageMaterializedView (Some "db.target"))]
                 [iteration_over ["data/a.csv"] 3 None failing_coordinator]))
       = ([RegisterIfNot;
           CreateFileIterator;
           ProfileIncrement ObjectStorageQueueInsertIterations 1;
           ExecutePipeline 2;
           ProfileIncrement ObjectStorageQueueProcessedRows 3;
           ProfileIncrement ObjectStorageQueueCommitRequests 2;
           RemoveObjectsIfExist ["data/a.csv"];
           ProfileIncrement ObjectStorageQueueRemovedObjects 1]
          ++ LogError (DBException UNKNOWN_EXCEPTION
                         "Failed to commit processed files" []) :: tail)%list
       /\ reschedule_processing_interval_ms
            (snd (threadFunc (a_queue_table UNORDERED DELETE [])
                    (world_of [Some (StorageMaterializedView (Some "db.target"))]
                       [iteration_over ["data/a.csv"] 3 None failing_coordinator])))
          = 1000
       /\ tail = [ScheduleAfter 1000]
       /\ fst (threadFunc (a_queue_table UNORDERED DELETE [])
                 (shut_down_during
                    (world_of [Some (StorageMaterializedView (Some "db.target"))]
                       [iteration_over ["data/a.csv"] 3 None failing_coordinator])))
          = ([RegisterIfNot;
              CreateFileIterator;
              ProfileIncrement ObjectStorageQueueInsertIterations 1;
              ExecutePipeline 2;
              ProfileIncrement ObjectStorageQueueProcessedRows 3;
              ProfileIncrement ObjectStorageQueueCommitRequests 2;
              RemoveObjectsIfExist ["data/a.csv"];
              ProfileIncrement ObjectStorageQueueRemovedObjects 1]
             ++ [LogError (DBException UNKNOWN_EXCEPTION
                             "Failed to commit processed files" [])])%list.
Proof.
  split; [|split].
  - apply (proj1 fail_point_aborts_commit_and_task_retries
             (a_queue_table UNORDERED DELETE []) failing_coordinator true 3
             [source_of_file 0 "data/a.csv"] ""
             [CreateRequest "/processed/data/a.csv" "";
              RemoveRequest "/processing/data/a.csv"]
             ["data/a.csv"] eq_refl);
      [discriminate | reflexivity].
  - apply (proj1 (proj2 fail_point_aborts_commit_and_task_retries)
             (a_queue_table UNORDERED DELETE [])
             (world_of [Some (StorageMaterializedView (Some "db.target"))]
                [iteration_over ["data/a.csv"] 3 None failing_coordinator])
             (iteration_over ["data/a.csv"] 3 None failing_coordinator) []
             [CreateRequest "/processed/data/a.csv" "";
              RemoveRequest "/processing/data/a.csv"]
             ["data/a.csv"] eq_refl eq_refl eq_refl eq_refl);
      [discriminate | reflexivity].
  - destruct (proj2 (proj2 fail_point_aborts_commit_and_task_retries)
                (a_queue_table UNORDERED DELETE [])
                (world_of [Some (StorageMaterializedView (Some "db.target"))]
                   [iteration_over ["data/a.csv"] 3 None failing_coordinator])
                [CreateFileIterator;
                 ProfileIncrement ObjectStorageQueueInsertIterations 1;
                 ExecutePipeline 2;
                 ProfileIncrement ObjectStorageQueueProcessedRows 3;
                 ProfileIncrement ObjectStorageQueueCommitRequests 2;
                 RemoveObjectsIfExist ["data/a.csv"];
                 ProfileIncrement ObjectStorageQueueRemovedObjects 1]
                (DBException UNKNOWN_EXCEPTION "Failed to commit processed files" [])
                eq_refl ltac:(discriminate) eq_refl)
      as (tail & Htrace & Hinterval & Hsched & _).
    exists tail. split; [exact Htrace|]. split; [exact Hinterval|].
    split.
    + destruct (Hsched eq_refl) as [tail' Htail]. subst tail.
      vm_compute in Htrace. injection Htrace as <-. reflexivity.
    + destruct (proj2 (proj2 fail_point_aborts_commit_and_task_retries)
                  (a_queue_table UNORDERED DELETE [])
                  (shut_down_during
                     (world_of [Some (StorageMaterializedView (Some "db.target"))]
                        [iteration_over ["data/a.csv"] 3 None failing_coordinator]))
                  [CreateFileIterator;
                   ProfileIncrement ObjectStorageQueueInsertIterations 1;
                   ExecutePipeline 2;
                   ProfileIncrement ObjectStorageQueueProcessedRows 3;
                   ProfileIncrement ObjectStorageQueueCommitRequests 2;
                   RemoveObjectsIfExist ["data/a.csv"];
                   ProfileIncrement ObjectStorageQueueRemovedObjects 1]
                  (DBException UNKNOWN_EXCEPTION "Failed to commit processed files" [])
                  eq_refl ltac:(discriminate) eq_refl)
        as (tail2 & Htrace2 & _ & _ & Hnone).
      rewrite (Hnone eq_refl) in Htrace2. exact Htrace2.
Defined.

(* ------------------------------------------------------------------ *)
(** ** Sets of names *)

Lemma lt_name_trans a b c : lt_name a b -> lt_name b c -> lt_name a c.
Proof.
  unfold lt_name. intros Hab Hbc.
  apply String_as_OT.cmp_lt. apply String_as_OT.cmp_lt in Hab, Hbc.
  exact (String_as_OT.lt_trans _ _ _ Hab Hbc).
Qed.

Lemma lt_name_irrefl a : ~ lt_name a a.
Proof.
  unfold lt_name. intros H.
  assert (Heq : String.compare a a = Eq) by (apply String_as_OT.cmp_eq; reflexivity).
  congruence.
Qed.

Lemma compare_Gt_lt a b : String.compare a b = Gt -> lt_name b a.
Proof.
  unfold lt_name. intros H. rewrite String.compare_antisym, H. reflexivity.
Qed.

Lemma contains_In s x : contains s x = true <-> In x s.
Proof.
  unfold contains. rewrite existsb_exists. split.
  - intros (y & Hy & Heq). apply String.eqb_eq in Heq. subst. exact Hy.
  - intros H. exists x. split; [exact H | apply String.eqb_refl].
Qed.

Lemma contains_not_In s x : contains s x = false <-> ~ In x s.
Proof.
  rewrite <- contains_In. destruct (contains s x); split; congruence.
Qed.

Lemma set_insert_In x s y :
  In y (fst (set_insert x s)) <-> y = x \/ In y s.
Proof.
  induction s as [|z rest IH]; simpl.
  - intuition.
  - destruct (String.compare x z) eqn:Hcmp.
    + apply String.compare_eq_iff in Hcmp. subst z. simpl. intuition.
    + simpl. intuition.
    + destruct (set_insert x rest) as [rest' ins]. simpl in *. intuition.
Qed.

Lemma set_insert_new x s : ~ In x s -> snd (set_insert x s) = true.
Proof.
  induction s as [|z rest IH]; simpl; [reflexivity|].
  intros Hnin. destruct (String.compare x z) eqn:Hcmp.
  - apply String.compare_eq_iff in Hcmp. subst z. exfalso. apply Hnin. now left.
  - reflexivity.
  - destruct (set_insert x rest) as [rest' ins]. simpl in *.
    apply IH. intros H. apply Hnin. now right.
Qed.

Lemma set_insert_old x s : ordered_set s -> In x s -> snd (set_insert x s) = false.
Proof.
  unfold ordered_set. induction 1 as [|z rest Hsorted IH Hall]; simpl; [intros []|].
  intros Hin. destruct (String.compare x z) eqn:Hcmp.
  - reflexivity.
  - exfalso. destruct Hin as [->|Hin].
    + exact (lt_name_irrefl _ Hcmp).
    + rewrite Forall_forall in Hall. specialize (Hall _ Hin).
      exact (lt_name_irrefl _ (lt_name_trans _ _ _ Hcmp Hall)).
  - destruct (set_insert x rest) as [rest' ins]. simpl in *.
    destruct Hin as [->|Hin]; [|exact (IH Hin)].
    exfalso. exact (lt_name_irrefl _ (compare_Gt_lt _ _ Hcmp)).
Qed.

Lemma set_insert_ordered x s : ordered_set s -> ordered_set (fst (set_insert x s)).
Proof.
  unfold ordered_set. induction 1 as [|z rest Hsorted IH Hall]; simpl.
  - constructor; constructor.
  - destruct (String.compare x z) eqn:Hcmp.
    + constructor; assumption.
    + constructor; [constructor; assumption|].
      constructor; [exact Hcmp|].
      rewrite Forall_forall in *. intros y Hy.
      exact (lt_name_trans _ _ _ Hcmp (Hall _ Hy)).
    + pose proof (set_insert_In x rest) as Hmem.
      destruct (set_insert x rest) as [rest' ins]. simpl in *.
      constructor; [exact IH|].
      rewrite Forall_forall in *. intros y Hy.
      apply Hmem in Hy. destruct Hy as [->|Hy]; [|exact (Hall _ Hy)].
      exact (compare_Gt_lt _ _ Hcmp).
Qed.

Lemma has_duplicates_cons x names :
  has_duplicates (x :: names) = true -> In x names \/ has_duplicates names = true.
Proof.
  simpl. intros H. apply orb_true_iff in H.
  destruct H as [H|H]; [left; apply contains_In, H | right; exact H].
Qed.

Lemma has_duplicates_false names : has_duplicates names = false <-> NoDup names.
Proof.
  induction names as [|x rest IH]; simpl.
  - split; [constructor | reflexivity].
  - rewrite orb_false_iff, contains_not_In, IH. split.
    + intros [Hnin Hnd]. constructor; assumption.
    + intros H. inversion H; subst. split; assumption.
Qed.

(* ------------------------------------------------------------------ *)
(** ** ALTER: the checks *)

Lemma get_names_from_throw settings names e :
  get_names_from settings names = Throw e ->
  exists n, In n (map name settings) /\ e = duplicated n.
Proof.
  revert names. induction settings as [|s rest IH]; simpl; intros names H.
  - discriminate.
  - destruct (set_insert (name s) names) as [names' inserted].
    destruct inserted; simpl in H.
    + destruct (IH _ H) as (n & Hn & ->). eauto.
    + injection H as <-. exists (name s). split; [now left | reflexivity].
Qed.

Lemma get_names_from_dup settings names :
  ordered_set names ->
  has_duplicates (map name settings) = true
  \/ (exists x, In x names /\ In x (map name settings)) ->
  exists n, get_names_from settings names = Throw (duplicated n).
Proof.
  revert names. induction settings as [|s rest IH]; simpl; intros names Hord H.
  - destruct H as [H|(x & _ & [])]. discriminate.
  - pose proof (set_insert_In (name s) names) as Hmem.
    pose proof (set_insert_ordered (name s) names Hord) as Hord'.
    destruct (in_dec string_dec (name s) names) as [Hin|Hnin].
    + rewrite (surjective_pairing (set_insert (name s) names)).
      rewrite (set_insert_old _ _ Hord Hin). simpl.
      exists (name s). reflexivity.
    + rewrite (surjective_pairing (set_insert (name s) names)).
      rewrite (set_insert_new _ _ Hnin). simpl.
      apply IH; [exact Hord'|].
      destruct H as [H|(x & Hx & [<-|Hx'])].
      * apply orb_true_iff in H. destruct H as [H|H]; [|now left].
        right. exists (name s). split; [apply Hmem; now left | apply contains_In, H].
      * contradiction.
      * right. exists x. split; [apply Hmem; now right | exact Hx'].
Qed.

Lemma get_names_from_ok settings names names' :
  ordered_set names ->
  get_names_from settings names = Ok names' ->
  (forall x, In x names' <-> In x names \/ In x (map name settings))
  /\ NoDup (map name settings)
  /\ (forall x, In x names -> ~ In x (map name settings))
  /\ ordered_set names'.
Proof.
  revert names. induction settings as [|s rest IH]; simpl; intros names Hord H.
  - injection H as <-. split; [intuition|]. split; [constructor | intuition].
  - pose proof (set_insert_In (name s) names) as Hmem.
    pose proof (set_insert_ordered (name s) names Hord) as Hord'.
    rewrite (surjective_pairing (set_insert (name s) names)) in H.
    destruct (in_dec string_dec (name s) names) as [Hin|Hnin].
    + rewrite (set_insert_old _ _ Hord Hin) in H. discriminate.
    + rewrite (set_insert_new _ _ Hnin) in H. simpl in H.
      destruct (IH _ Hord' H) as (Hiff & Hnd & Hdisj & Hord'').
      split; [|split; [|split]].
      * intros x. rewrite Hiff, Hmem. intuition.
      * constructor; [|exact Hnd].
        apply (Hdisj (name s)). apply Hmem. now left.
      * intros x Hx [<-|Hx']; [contradiction|].
        apply (Hdisj x); [apply Hmem; now right | exact Hx'].
      * exact Hord''.
Qed.

Lemma isSettingChangeable_normalized name_ mode_ :
  is_normalized name_ = true ->
  isSettingChangeable name_ mode_ = Ok (contains (changeable_settings mode_) name_).
Proof.
  unfold is_normalized, isSettingChangeable, checkNormalizedSetting.
  intros H. apply negb_true_iff in H. rewrite H. simpl.
  destruct mode_; reflexivity.
Qed.

Lemma requiresDetachedMV_normalized name_ :
  is_normalized name_ = true ->
  requiresDetachedMV name_ = Ok (String.eqb name_ "buckets").
Proof.
  unfold is_normalized, requiresDetachedMV, checkNormalizedSetting.
  intros H. apply negb_true_iff in H. rewrite H. reflexivity.
Qed.

Lemma changeable_settings_normalized mode_ name_ :
  In name_ (changeable_settings mode_) -> is_normalized name_ = true.
Proof.
  destruct mode_; simpl; intros H;
    repeat (destruct H as [<-|H]; [reflexivity|]); destruct H.
Qed.

Lemma check_changed_setting_ok st views mode_ s :
  check_changed_setting st views mode_ s = Ok tt ->
  In (name s) (changeable_settings mode_).
Proof.
  unfold check_changed_setting.
  destruct (is_normalized (name s)) eqn:Hnorm.
  - rewrite (isSettingChangeable_normalized _ _ Hnorm). simpl.
    destruct (contains (changeable_settings mode_) (name s)) eqn:Hc; simpl.
    + intros _. apply contains_In, Hc.
    + discriminate.
  - unfold isSettingChangeable, checkNormalizedSetting.
    apply negb_false_iff in Hnorm. rewrite Hnorm. discriminate.
Qed.

Lemma check_changed_setting_throw st views mode_ s e :
  is_normalized (name s) = true ->
  check_changed_setting st views mode_ s = Throw e ->
  has_code SUPPORT_IS_DISABLED e = true.
Proof.
  intros Hnorm. unfold check_changed_setting.
  rewrite (isSettingChangeable_normalized _ _ Hnorm),
          (requiresDetachedMV_normalized _ Hnorm). simpl.
  destruct (contains (changeable_settings mode_) (name s)); simpl.
  - destruct (String.eqb (name s) "buckets"); [|discriminate].
    destruct (getDependencies views =? 0); simpl; [discriminate|].
    intros H. injection H as <-. reflexivity.
  - intros H. injection H as <-. reflexivity.
Qed.

Lemma check_changed_setting_other st views mode_ s :
  In (name s) (changeable_settings mode_) ->
  name s <> "buckets" ->
  check_changed_setting st views mode_ s = Ok tt.
Proof.
  intros Hin Hne. unfold check_changed_setting.
  pose proof (changeable_settings_normalized _ _ Hin) as Hnorm.
  rewrite (isSettingChangeable_normalized _ _ Hnorm),
          (requiresDetachedMV_normalized _ Hnorm). simpl.
  apply contains_In in Hin. rewrite Hin. simpl.
  apply String.eqb_neq in Hne. rewrite Hne. reflexivity.
Qed.

Lemma check_changed_setting_buckets st views mode_ s :
  name s = "buckets" ->
  getDependencies views <> 0 ->
  check_changed_setting st views mode_ s
  = match mode_ with
    | ORDERED =>
        Throw (DBException SUPPORT_IS_DISABLED
          "Changing setting {} is not allowed only with detached dependencies (dependencies count: {})"
          [ArgString "buckets"; ArgNumber (getDependencies views)])
    | UNORDERED =>
        Throw (DBException SUPPORT_IS_DISABLED
          "Changing setting {} is not allowed for {} mode of {}"
          [ArgString "buckets"; ArgString "UNORDERED"; ArgString (getName st)])
    end.
Proof.
  intros Hname Hdeps. unfold check_changed_setting. rewrite Hname.
  apply Z.eqb_neq in Hdeps.
  destruct mode_; simpl; [rewrite Hdeps|]; reflexivity.
Qed.

Lemma alter_loop_ok st views mode_ old new_settings names changed changed' :
  alter_loop st views mode_ old new_settings names changed = Ok changed' ->
  forall s, In s new_settings -> setting_changed old s = true ->
            check_changed_setting st views mode_ s = Ok tt.
Proof.
  revert names changed.
  induction new_settings as [|s0 rest IH]; simpl; intros names changed H s Hin Hch.
  - destruct Hin.
  - destruct (set_insert (name s0) names) as [names' inserted].
    destruct inserted; simpl in H; [|discriminate].
    destruct (setting_changed old s0) eqn:Hch0; simpl in H.
    + destruct (check_changed_setting st views mode_ s0) as [[]|e] eqn:Hcheck;
        [|discriminate].
      destruct Hin as [<-|Hin]; [exact Hcheck | exact (IH _ _ H s Hin Hch)].
    + destruct Hin as [<-|Hin]; [congruence | exact (IH _ _ H s Hin Hch)].
Qed.

Lemma alter_loop_throw st views mode_ old new_settings names changed e :
  alter_loop st views mode_ old new_settings names changed = Throw e ->
  (exists n, In n (map name new_settings) /\ e = duplicated n)
  \/ (exists s, In s new_settings /\ setting_changed old s = true
                /\ check_changed_setting st views mode_ s = Throw e).
Proof.
  revert names changed.
  induction new_settings as [|s0 rest IH]; simpl; intros names changed H.
  - discriminate.
  - destruct (set_insert (name s0) names) as [names' inserted].
    destruct inserted; simpl in H.
    + destruct (setting_changed old s0) eqn:Hch0; simpl in H.
      * destruct (check_changed_setting st views mode_ s0) as [[]|e0] eqn:Hcheck.
        -- destruct (IH _ _ H) as [(n & Hn & ->)|(s & Hs & Hch & Hc)];
             [left | right]; eauto 6.
        -- injection H as <-. right. exists s0. auto.
      * destruct (IH _ _ H) as [(n & Hn & ->)|(s & Hs & Hch & Hc)];
          [left | right]; eauto 6.
    + injection H as <-. left. exists (name s0). split; [now left | reflexivity].
Qed.

Lemma alter_loop_nodup st views mode_ old new_settings names changed e :
  NoDup (map name new_settings) ->
  (forall x, In x names -> ~ In x (map name new_settings)) ->
  alter_loop st views mode_ old new_settings names changed = Throw e ->
  exists s, In s new_settings /\ setting_changed old s = true
            /\ check_changed_setting st views mode_ s = Throw e.
Proof.
  revert names changed.
  induction new_settings as [|s0 rest IH]; simpl; intros names changed Hnd Hdisj H.
  - discriminate.
  - inversion Hnd as [|? ? Hnin Hnd']; subst.
    pose proof (set_insert_In (name s0) names) as Hmem.
    assert (Hnew : ~ In (name s0) names) by (intros Hin; apply (Hdisj _ Hin); now left).
    rewrite (surjective_pairing (set_insert (name s0) names)) in H.
    rewrite (set_insert_new _ _ Hnew) in H. simpl in H.
    assert (Hdisj' : forall x, In x (fst (set_insert (name s0) names)) ->
                               ~ In x (map name rest)).
    { intros x Hx. apply Hmem in Hx. destruct Hx as [->|Hx]; [exact Hnin|].
      intros Hx'. apply (Hdisj _ Hx). now right. }
    destruct (setting_changed old s0) eqn:Hch0; simpl in H.
    + destruct (check_changed_setting st views mode_ s0) as [[]|e0] eqn:Hcheck.
      * destruct (IH _ _ Hnd' Hdisj' H) as (s & Hs & Hch & Hc). eauto 6.
      * injection H as <-. exists s0. auto.
    + destruct (IH _ _ Hnd' Hdisj' H) as (s & Hs & Hch & Hc). eauto 6.
Qed.

Lemma alter_loop_dup st views mode_ old new_settings names changed :
  ordered_set names ->
  has_duplicates (map name new_settings) = true
  \/ (exists x, In x names /\ In x (map name new_settings)) ->
  exists e, alter_loop st views mode_ old new_settings names changed = Throw e.
Proof.
  revert names changed.
  induction new_settings as [|s0 rest IH]; simpl; intros names changed Hord H.
  - destruct H as [H|(x & _ & [])]. discriminate.
  - pose proof (set_insert_In (name s0) names) as Hmem.
    pose proof (set_insert_ordered (name s0) names Hord) as Hord'.
    rewrite (surjective_pairing (set_insert (name s0) names)).
    destruct (in_dec string_dec (name s0) names) as [Hin|Hnin].
    + rewrite (set_insert_old _ _ Hord Hin). simpl. eauto.
    + rewrite (set_insert_new _ _ Hnin). simpl.
      assert (Hrest : has_duplicates (map name rest) = true
                      \/ (exists x, In x (fst (set_insert (name s0) names))
                                    /\ In x (map name rest))).
      { destruct H as [H|(x & Hx & [<-|Hx'])].
        - apply orb_true_iff in H. destruct H as [H|H]; [|now left].
          right. exists (name s0).
          split; [apply Hmem; now left | apply contains_In, H].
        - contradiction.
        - right. exists x. split; [apply Hmem; now right | exact Hx']. }
      destruct (setting_changed old s0); simpl.
      * destruct (check_changed_setting st views mode_ s0) as [[]|e0]; [|eauto].
        exact (IH _ _ Hord' Hrest).
      * exact (IH _ _ Hord' Hrest).
Qed.

Lemma alter_unfold ext st views commands :
  isSettingsAlter ext commands = true ->
  alter ext st views commands
  = match new_settings_of ext st commands with
    | Throw e => (st, Throw e)
    | Ok new_settings =>
        match alter_loop st views (mode (getTableMetadata st)) (old_settings_of st)
                         new_settings [] [] with
        | Throw e => (st, Throw e)
        | Ok changed_settings =>
            match fold_left (alter_local_setting ext) changed_settings
                    (set_files_metadata
                       (alterSettings ext changed_settings (files_metadata st)) st,
                     Ok tt) with
            | (st2, Throw e) => (st2, Throw e)
            | (st2, Ok _) => (setInMemoryMetadata new_settings st2, Ok tt)
            end
        end
    end.
Proof. intros H. unfold alter. rewrite H. reflexivity. Qed.

Lemma ordered_set_NoDup s : ordered_set s -> NoDup s.
Proof.
  unfold ordered_set. induction 1 as [|x rest Hsorted IH Hall]; constructor.
  - intros Hin. rewrite Forall_forall in Hall.
    exact (lt_name_irrefl _ (Hall _ Hin)).
  - exact IH.
Qed.

Lemma NoDup_filter {A} (f : A -> bool) l : NoDup l -> NoDup (filter f l).
Proof.
  induction 1 as [|x rest Hnin Hnd IH]; simpl; [constructor|].
  destruct (f x); [|exact IH].
  constructor; [|exact IH].
  intros Hin. apply filter_In in Hin. apply Hnin, Hin.
Qed.

Lemma NoDup_append {A} (l1 l2 : list A) :
  NoDup l1 -> NoDup l2 -> (forall x, In x l1 -> ~ In x l2) -> NoDup (l1 ++ l2).
Proof.
  induction 1 as [|x rest Hnin Hnd IH]; simpl; intros Hnd2 Hdisj; [exact Hnd2|].
  constructor.
  - intros Hin. apply in_app_or in Hin. destruct Hin as [Hin|Hin].
    + exact (Hnin Hin).
    + exact (Hdisj x (or_introl eq_refl) Hin).
  - apply IH; [exact Hnd2|]. intros y Hy. apply Hdisj. now right.
Qed.

Lemma ordered_set_nil : ordered_set [].
Proof. constructor. Qed.

(** With a settings clause in the metadata, the list the main loop runs
    over has no repeated name, or [alter] has thrown before the loop. *)
Lemma add_reset_settings_NoDup ext old applied new_settings :
  add_reset_settings ext (Some old) applied = Ok new_settings ->
  NoDup (map name new_settings).
Proof.
  unfold add_reset_settings, get_names, rbind.
  destruct (get_names_from old []) as [old_set|] eqn:Hold; [|discriminate].
  destruct (get_names_from applied []) as [new_set|] eqn:Hnew; [|discriminate].
  intros H. injection H as <-.
  destruct (get_names_from_ok _ _ _ ordered_set_nil Hold) as (_ & _ & _ & Hord_old).
  destruct (get_names_from_ok _ _ _ ordered_set_nil Hnew) as (Hmem & Hnd & _ & _).
  rewrite map_app, map_map. simpl. rewrite map_id.
  apply NoDup_append.
  - exact Hnd.
  - apply NoDup_filter, ordered_set_NoDup, Hord_old.
  - intros x Hx Hx'. unfold set_difference in Hx'.
    apply filter_In in Hx'. destruct Hx' as [_ Hx'].
    apply negb_true_iff, contains_not_In in Hx'.
    apply Hx', Hmem. now right.
Qed.

Lemma add_reset_settings_throw ext old applied e :
  add_reset_settings ext old applied = Throw e ->
  exists n, e = duplicated n.
Proof.
  unfold add_reset_settings, get_names, rbind.
  destruct old as [old|]; [|discriminate].
  destruct (get_names_from old []) as [old_set|e1] eqn:Hold.
  - destruct (get_names_from applied []) as [new_set|e2] eqn:Hnew; [discriminate|].
    intros H. injection H as <-.
    destruct (get_names_from_throw _ _ _ Hnew) as (n & _ & ->). eauto.
  - intros H. injection H as <-.
    destruct (get_names_from_throw _ _ _ Hold) as (n & _ & ->). eauto.
Qed.

(* ------------------------------------------------------------------ *)
(** ** ALTER: which settings may change *)

Lemma check_changed_setting_not_normalized st views mode_ s :
  is_normalized (name s) = false ->
  check_changed_setting st views mode_ s
  = Throw (DBException LOGICAL_ERROR "Setting is not normalized: {}"
             [ArgString (name s)]).
Proof.
  unfold is_normalized, check_changed_setting, isSettingChangeable,
    checkNormalizedSetting, rbind.
  intros H. apply negb_false_iff in H. rewrite H. reflexivity.
Qed.

(** C2, as amended. The settings that may change are the fourteen of
    Unordered mode and the eleven of Ordered mode. [alter] succeeds only
    if every setting whose (normalized) value changes is one of them; a
    changed setting that is not makes [alter] throw and leave the storage
    as it was. The exception is one of three: SUPPORT_IS_DISABLED,
    BAD_ARGUMENTS for a repeated name, or LOGICAL_ERROR for a name that
    still starts with s3queue_ after normalization; it is
    SUPPORT_IS_DISABLED provided no name of the list is of that kind and
    no name is repeated (with a settings clause in the metadata a repeated
    name is thrown on before the loop). *)
Theorem alter_changes_only_changeable_settings ext st views commands :
  isSettingsAlter ext commands = true ->
  (changeable_settings UNORDERED
   = ["processing_threads_num"; "loading_retries"; "after_processing";
      "tracked_files_limit"; "tracked_file_ttl_sec"; "polling_min_timeout_ms";
      "polling_max_timeout_ms"; "polling_backoff_ms";
      "max_processed_files_before_commit"; "max_processed_rows_before_commit";
      "max_processed_bytes_before_commit";
      "max_processing_time_sec_before_commit"; "enable_hash_ring_filtering";
      "list_objects_batch_size"]
   /\ changeable_settings ORDERED
      = ["loading_retries"; "after_processing"; "polling_min_timeout_ms";
         "polling_max_timeout_ms"; "polling_backoff_ms";
         "max_processed_files_before_commit"; "max_processed_rows_before_commit";
         "max_processed_bytes_before_commit";
         "max_processing_time_sec_before_commit"; "buckets";
         "list_objects_batch_size"])
  /\ (snd (alter ext st views commands) = Ok tt ->
      exists new_settings,
        new_settings_of ext st commands = Ok new_settings
        /\ forall s, In s new_settings ->
                     setting_changed (old_settings_of st) s = true ->
                     In (name s) (changeable_settings (mode (getTableMetadata st))))
  /\ (forall new_settings s,
         new_settings_of ext st commands = Ok new_settings ->
         In s new_settings ->
         setting_changed (old_settings_of st) s = true ->
         ~ In (name s) (changeable_settings (mode (getTableMetadata st))) ->
         exists e,
           alter ext st views commands = (st, Throw e)
           /\ ((forall s', In s' new_settings -> is_normalized (name s') = true) ->
               (metadata_settings_changes st = None -> NoDup (map name new_settings)) ->
               has_code SUPPORT_IS_DISABLED e = true)
           /\ (has_code SUPPORT_IS_DISABLED e = true
               \/ (exists n,
                      In n (map name new_settings)
                      /\ e = DBException BAD_ARGUMENTS "Setting {} is duplicated"
                               [ArgString n])
               \/ (exists s',
                      In s' new_settings
                      /\ is_normalized (name s') = false
                      /\ e = DBException LOGICAL_ERROR "Setting is not normalized: {}"
                               [ArgString (name s')])))
  /\ (forall e,
         new_settings_of ext st commands = Throw e ->
         alter ext st views commands = (st, Throw e)
         /\ exists n, e = DBException BAD_ARGUMENTS "Setting {} is duplicated"
                            [ArgString n]).
Proof.
  intros Halter. split; [split; reflexivity|].
  rewrite (alter_unfold _ _ _ _ Halter).
  split; [|split]; cycle 2.
  { intros e Hnew. rewrite Hnew. split; [reflexivity|].
    exact (add_reset_settings_throw _ _ _ _ Hnew). }
  - destruct (new_settings_of ext st commands) as [new_settings|e]; [|discriminate].
    destruct (alter_loop st views (mode (getTableMetadata st)) (old_settings_of st)
                new_settings [] []) as [changed|e] eqn:Hloop; [|discriminate].
    intros _. exists new_settings. split; [reflexivity|].
    intros s Hin Hch.
    exact (check_changed_setting_ok _ _ _ _ (alter_loop_ok _ _ _ _ _ _ _ _ Hloop s Hin Hch)).
  - intros new_settings s Hnew Hin Hch Hnot. rewrite Hnew.
    destruct (alter_loop st views (mode (getTableMetadata st)) (old_settings_of st)
                new_settings [] []) as [changed|e] eqn:Hloop.
    + exfalso. apply Hnot.
      exact (check_changed_setting_ok _ _ _ _ (alter_loop_ok _ _ _ _ _ _ _ _ Hloop s Hin Hch)).
    + exists e. split; [reflexivity|]. split.
      * intros Hnorm Hnd.
        assert (Hnodup : NoDup (map name new_settings)).
        { unfold new_settings_of, old_settings_of in *.
          destruct (metadata_settings_changes st) as [old|]; simpl in *.
          - exact (add_reset_settings_NoDup _ _ _ _ Hnew).
          - apply Hnd. reflexivity. }
        assert (Hempty : forall x : string, In x [] -> ~ In x (map name new_settings))
          by (intros x []).
        destruct (alter_loop_nodup _ _ _ _ _ _ _ _ Hnodup Hempty Hloop)
          as (s' & Hs' & _ & Hcheck).
        exact (check_changed_setting_throw _ _ _ _ _ (Hnorm _ Hs') Hcheck).
      * destruct (alter_loop_throw _ _ _ _ _ _ _ _ Hloop)
          as [(n & Hn & ->)|(s' & Hs' & _ & Hcheck)].
        -- right. left. exists n. split; [exact Hn | reflexivity].
        -- destruct (is_normalized (name s')) eqn:Hnorm.
           ++ left. exact (check_changed_setting_throw _ _ _ _ _ Hnorm Hcheck).
           ++ right. right. exists s'. split; [exact Hs'|]. split; [exact Hnorm|].
              rewrite (check_changed_setting_not_normalized _ _ _ _ Hnorm) in Hcheck.
              injection Hcheck as <-. reflexivity.
Qed.

Lemma alter_changes_only_changeable_settings_witness :
  (exists new_settings,
      new_settings_of plain_collaborators (a_queue_table ORDERED KEEP [])
        [MODIFY [a_setting "s3queue_polling_max_timeout_ms" (FieldUInt64 5000)]]
      = Ok new_settings
      /\ forall s, In s new_settings ->
                   setting_changed (old_settings_of (a_queue_table ORDERED KEEP [])) s = true ->
                   In (name s) (changeable_settings ORDERED))
  /\ (exists e,
         alter plain_collaborators (a_queue_table UNORDERED KEEP [])
               one_materialized_view
               [MODIFY [a_setting "keeper_path" (FieldString "/other")]]
         = (a_queue_table UNORDERED KEEP [], Throw e)
         /\ has_code SUPPORT_IS_DISABLED e = true).
Proof.
  split.
  - apply (proj1 (proj2 (alter_changes_only_changeable_settings plain_collaborators
             (a_queue_table ORDERED KEEP []) []
             [MODIFY [a_setting "s3queue_polling_max_timeout_ms" (FieldUInt64 5000)]]
             eq_refl))).
    reflexivity.
  - destruct (proj1 (proj2 (proj2 (alter_changes_only_changeable_settings
                plain_collaborators
                (a_queue_table UNORDERED KEEP []) one_materialized_view
                [MODIFY [a_setting "keeper_path" (FieldString "/other")]]
                eq_refl)))
                [a_setting "mode" (FieldString "unordered");
                 a_setting "keeper_path" (FieldString "/other")]
                (a_setting "keeper_path" (FieldString "/other"))
                eq_refl (or_intror (or_introl eq_refl)) eq_refl)
      as (e & He & Hcode & _).
    + simpl. intuition discriminate.
    + exists e. split; [exact He|]. apply Hcode.
      * intros s' [<-|[<-|[]]]; reflexivity.
      * discriminate.
Defined.

(** Two alters that change a setting outside the list and do not end in
    SUPPORT_IS_DISABLED: on a table created with both spellings of one
    setting, changing [keeper_path] is answered with BAD_ARGUMENTS; and a
    name with the prefix twice is answered with LOGICAL_ERROR. *)
Lemma unchangeable_setting_other_errors :
  (In (a_setting "keeper_path" (FieldString "/other"))
      (AlterCommands_apply plain_collaborators
         (normalizeAlterCommands [MODIFY [a_setting "keeper_path" (FieldString "/other")]])
         (old_settings_of
            (a_queue_table UNORDERED KEEP
               [a_setting "s3queue_loading_retries" (FieldUInt64 1);
                a_setting "loading_retries" (FieldUInt64 2)])))
   /\ setting_changed
        (old_settings_of
           (a_queue_table UNORDERED KEEP
              [a_setting "s3queue_loading_retries" (FieldUInt64 1);
               a_setting "loading_retries" (FieldUInt64 2)]))
        (a_setting "keeper_path" (FieldString "/other")) = true
   /\ contains (changeable_settings UNORDERED) "keeper_path" = false
   /\ snd (alter plain_collaborators
             (a_queue_table UNORDERED KEEP
                [a_setting "s3queue_loading_retries" (FieldUInt64 1);
                 a_setting "loading_retries" (FieldUInt64 2)])
             []
             [MODIFY [a_setting "keeper_path" (FieldString "/other")]])
      = Throw (DBException BAD_ARGUMENTS "Setting {} is duplicated"
                 [ArgString "loading_retries"]))
  /\ (normalizeSetting "s3queue_s3queue_mode" = "s3queue_mode"
      /\ contains (changeable_settings UNORDERED) "s3queue_mode" = false
      /\ snd (alter plain_collaborators (a_queue_table UNORDERED KEEP []) []
                [MODIFY [a_setting "s3queue_s3queue_mode" (FieldString "ordered")]])
         = Throw (DBException LOGICAL_ERROR "Setting is not normalized: {}"
                    [ArgString "s3queue_mode"])).
Proof.
  split; [split; [|split; [|split]] | split; [|split]]; try reflexivity.
  simpl. auto.
Qed.

(* ------------------------------------------------------------------ *)
(** ** ALTER: a repeated setting *)

Lemma set_insert_seen x s : snd (set_insert x s) = false -> In x s.
Proof.
  intros H. destruct (in_dec string_dec x s) as [Hin|Hnin]; [exact Hin|].
  rewrite (set_insert_new _ _ Hnin) in H. discriminate.
Qed.

Lemma set_insert_fresh x s : ordered_set s -> snd (set_insert x s) = true -> ~ In x s.
Proof.
  intros Hord H Hin. rewrite (set_insert_old _ _ Hord Hin) in H. discriminate.
Qed.

(** Where the main loop of [alter] stops when it throws: at the first
    setting whose name was seen before, or at the first changed setting
    that may not be changed. *)
Lemma alter_loop_throw_at st views mode_ old new_settings names changed e :
  ordered_set names ->
  alter_loop st views mode_ old new_settings names changed = Throw e ->
  exists pre s post,
    new_settings = (pre ++ s :: post)%list
    /\ NoDup (map name pre)
    /\ (forall x, In x names -> ~ In x (map name pre))
    /\ ((e = duplicated (name s)
         /\ (In (name s) names \/ In (name s) (map name pre)))
        \/ (~ In (name s) names
            /\ ~ In (name s) (map name pre)
            /\ setting_changed old s = true
            /\ check_changed_setting st views mode_ s = Throw e)).
Proof.
  revert names changed.
  induction new_settings as [|s0 rest IH]; cbn [alter_loop];
    intros names changed Hord H; [discriminate|].
  pose proof (set_insert_In (name s0) names) as Hmem.
  pose proof (set_insert_ordered (name s0) names Hord) as Hord'.
  pose proof (set_insert_seen (name s0) names) as Hseen.
  pose proof (set_insert_fresh (name s0) names Hord) as Hfresh.
  destruct (set_insert (name s0) names) as [names' inserted].
  cbn [fst snd] in *.
  destruct inserted; cbn [negb] in H.
  - specialize (Hfresh eq_refl).
    assert (Hrest : forall changed',
               alter_loop st views mode_ old rest names' changed' = Throw e ->
               exists pre s post,
                 s0 :: rest = (pre ++ s :: post)%list
                 /\ NoDup (map name pre)
                 /\ (forall x, In x names -> ~ In x (map name pre))
                 /\ ((e = duplicated (name s)
                      /\ (In (name s) names \/ In (name s) (map name pre)))
                     \/ (~ In (name s) names
                         /\ ~ In (name s) (map name pre)
                         /\ setting_changed old s = true
                         /\ check_changed_setting st views mode_ s = Throw e))).
    { intros changed' Hloop.
      destruct (IH _ _ Hord' Hloop) as (pre & s & post & -> & Hnd & Hdisj & Hcase).
      exists (s0 :: pre), s, post. split; [reflexivity|].
      assert (Hs0 : ~ In (name s0) (map name pre))
        by (apply Hdisj, Hmem; now left).
      split; [cbn [map]; constructor; assumption|].
      split.
      - intros x Hx [Heq|Hin].
        + apply Hfresh. rewrite Heq. exact Hx.
        + apply (Hdisj x); [apply Hmem; now right | exact Hin].
      - destruct Hcase as [(He & Hin)|(Hn & Hp & Hch & Hcheck)].
        + left. split; [exact He|].
          destruct Hin as [Hin|Hin].
          * apply Hmem in Hin. destruct Hin as [Heq|Hin]; [|now left].
            right. left. symmetry. exact Heq.
          * right. right. exact Hin.
        + right. split; [|split; [|split; assumption]].
          * intros Hin. apply Hn, Hmem. now right.
          * intros [Heq|Hin]; [|exact (Hp Hin)].
            apply Hn, Hmem. left. symmetry. exact Heq. }
    destruct (setting_changed old s0) eqn:Hch0; cbn [negb] in H.
    + destruct (check_changed_setting st views mode_ s0) as [[]|e0] eqn:Hcheck.
      * exact (Hrest _ H).
      * injection H as <-. exists [], s0, rest. split; [reflexivity|].
        split; [constructor|]. split; [intros x _ []|].
        right. split; [exact Hfresh|]. split; [intros []|]. split; [exact Hch0 | exact Hcheck].
    + exact (Hrest _ H).
  - injection H as <-. exists [], s0, rest. split; [reflexivity|].
    split; [constructor|]. split; [intros x _ []|].
    left. split; [reflexivity|]. left. exact (Hseen eq_refl).
Qed.

Lemma get_names_from_throw_dup settings names e :
  get_names_from settings names = Throw e ->
  has_duplicates (map name settings) = true
  \/ (exists x, In x names /\ In x (map name settings)).
Proof.
  revert names. induction settings as [|s rest IH]; cbn [get_names_from map];
    intros names H; [discriminate|].
  pose proof (set_insert_In (name s) names) as Hmem.
  pose proof (set_insert_seen (name s) names) as Hseen.
  destruct (set_insert (name s) names) as [names' inserted]. cbn [fst snd] in *.
  destruct inserted; cbn [negb] in H.
  - destruct (IH _ H) as [Hdup|(x & Hx & Hin)].
    + left. cbn [has_duplicates]. rewrite Hdup. apply orb_true_r.
    + apply Hmem in Hx. destruct Hx as [->|Hx].
      * left. cbn [has_duplicates]. apply orb_true_iff. left.
        apply contains_In. exact Hin.
      * right. exists x. split; [exact Hx | now right].
  - right. exists (name s). split; [exact (Hseen eq_refl) | now left].
Qed.

Lemma has_duplicates_seen (pre : SettingsChanges) s post :
  In (name s) (map name pre) ->
  has_duplicates (map name (pre ++ s :: post)) = true.
Proof.
  intros Hin.
  destruct (has_duplicates (map name (pre ++ s :: post))) eqn:Hdup; [reflexivity|].
  apply has_duplicates_false in Hdup. rewrite map_app in Hdup. cbn [map] in Hdup.
  apply NoDup_remove_2 in Hdup. exfalso. apply Hdup, in_or_app. now left.
Qed.

Lemma check_changed_setting_not_duplicated st views mode_ s n :
  check_changed_setting st views mode_ s <> Throw (duplicated n).
Proof.
  unfold check_changed_setting, isSettingChangeable, requiresDetachedMV,
    checkNormalizedSetting, rbind.
  destruct (starts_with (name s) "s3queue_"); [discriminate|].
  destruct mode_;
    match goal with
    | |- context [contains ?l ?x] => destruct (contains l x)
    end; cbn [negb]; try discriminate;
    destruct (String.eqb (name s) "buckets"); try discriminate;
    destruct (getDependencies views =? 0); cbn [negb]; discriminate.
Qed.

(** C9, as amended. [alter] looks for a repeated name in two lists: the
    settings clause of the table with its names normalized, and the list
    [AlterCommands::apply] returns for the normalized commands. When a
    name occurs twice in one of them, [alter] throws and leaves the
    storage as it was. The exception for the repeated name is
    BAD_ARGUMENTS, "Setting {} is duplicated": it is the one thrown
    whenever the metadata has a settings clause; without one, the loop
    stops at the first setting whose name it has seen, with that exception,
    or before it at a changed setting that may not be changed. The checks
    of [alter] throw that exception for no other reason: a name given
    twice in the ALTER itself matters only if it is still twice in the
    list [AlterCommands::apply] returns. *)
Theorem duplicated_setting_is_bad_arguments ext st views commands :
  isSettingsAlter ext commands = true ->
  (has_duplicates
     (map name (AlterCommands_apply ext (normalizeAlterCommands commands)
                  (old_settings_of st))) = true
   \/ (exists old, old_settings_of st = Some old
                   /\ has_duplicates (map name old) = true) ->
   exists e,
     alter ext st views commands = (st, Throw e)
     /\ (metadata_settings_changes st <> None ->
         exists n, e = DBException BAD_ARGUMENTS "Setting {} is duplicated" [ArgString n])
     /\ (metadata_settings_changes st = None ->
         exists pre s post,
           AlterCommands_apply ext (normalizeAlterCommands commands) (old_settings_of st)
           = (pre ++ s :: post)%list
           /\ NoDup (map name pre)
           /\ ((e = DBException BAD_ARGUMENTS "Setting {} is duplicated"
                      [ArgString (name s)]
                /\ In (name s) (map name pre))
               \/ (~ In (name s) (map name pre)
                   /\ setting_changed (old_settings_of st) s = true
                   /\ check_changed_setting st views (mode (getTableMetadata st)) s
                      = Throw e))))
  /\ (forall n,
         new_settings_of ext st commands
         = Throw (DBException BAD_ARGUMENTS "Setting {} is duplicated" [ArgString n])
         \/ (exists new_settings,
                new_settings_of ext st commands = Ok new_settings
                /\ alter_loop st views (mode (getTableMetadata st)) (old_settings_of st)
                              new_settings [] []
                   = Throw (DBException BAD_ARGUMENTS "Setting {} is duplicated"
                              [ArgString n])) ->
         has_duplicates
           (map name (AlterCommands_apply ext (normalizeAlterCommands commands)
                        (old_settings_of st))) = true
         \/ (exists old, old_settings_of st = Some old
                         /\ has_duplicates (map name old) = true)).
Proof.
  intros Halter. split.
  - intros Hdup. rewrite (alter_unfold _ _ _ _ Halter).
    unfold new_settings_of.
    set (applied := AlterCommands_apply ext (normalizeAlterCommands commands)
                      (old_settings_of st)) in *.
    unfold old_settings_of in *.
    destruct (metadata_settings_changes st) as [old|]; cbn [option_map] in *.
    + assert (Hthrow : exists n, add_reset_settings ext (Some (map normalize_change old))
                                   applied = Throw (duplicated n)).
      { unfold add_reset_settings, get_names, rbind.
        destruct (get_names_from (map normalize_change old) []) as [old_set|e] eqn:Hold.
        - destruct Hdup as [Hdup|(old' & Heq & Hdup)].
          + destruct (get_names_from_dup applied [] ordered_set_nil (or_introl Hdup))
              as (n & ->). eauto.
          + injection Heq as <-.
            destruct (get_names_from_dup _ [] ordered_set_nil (or_introl Hdup))
              as (n & Hn).
            congruence.
        - destruct (get_names_from_throw _ _ _ Hold) as (n & _ & ->). eauto. }
      destruct Hthrow as (n & ->).
      exists (duplicated n). split; [reflexivity|].
      split; [intros _; exists n; reflexivity | intros H; discriminate H].
    + destruct Hdup as [Hdup|(old' & Heq & _)]; [|discriminate].
      unfold add_reset_settings.
      match goal with
      | |- context [alter_loop ?a ?b ?c ?d ?l ?f ?g] =>
          destruct (alter_loop_dup a b c d l f g ordered_set_nil (or_introl Hdup))
            as (e & Hloop);
          rewrite Hloop
      end.
      exists e. split; [reflexivity|].
      split; [congruence|]. intros _.
      destruct (alter_loop_throw_at _ _ _ _ _ _ _ _ ordered_set_nil Hloop)
        as (pre & s & post & Heq & Hnd & _ & Hcase).
      exists pre, s, post. split; [exact Heq|]. split; [exact Hnd|].
      destruct Hcase as [(-> & [[]|Hin])|(_ & Hp & Hch & Hcheck)].
      * left. split; [reflexivity | exact Hin].
      * right. split; [exact Hp|]. split; [exact Hch | exact Hcheck].
  - intros n H. unfold new_settings_of in H.
    set (applied := AlterCommands_apply ext (normalizeAlterCommands commands)
                      (old_settings_of st)) in *.
    destruct (old_settings_of st) as [old|] eqn:Hold_settings.
    + destruct H as [H|(new_settings & Hnew & Hloop)].
      * unfold add_reset_settings, get_names, rbind in H.
        destruct (get_names_from old []) as [old_set|e1] eqn:Hold.
        -- destruct (get_names_from applied []) as [new_set|e2] eqn:Hnew;
             [discriminate|].
           destruct (get_names_from_throw_dup _ _ _ Hnew) as [Hdup|(x & [] & _)].
           left. exact Hdup.
        -- destruct (get_names_from_throw_dup _ _ _ Hold) as [Hdup|(x & [] & _)].
           right. exists old. split; [reflexivity | exact Hdup].
      * exfalso.
        pose proof (add_reset_settings_NoDup _ _ _ _ Hnew) as Hnd.
        assert (Hempty : forall x : string, In x [] -> ~ In x (map name new_settings))
          by (intros x []).
        destruct (alter_loop_nodup _ _ _ _ _ _ _ _ Hnd Hempty Hloop)
          as (s & _ & _ & Hcheck).
        exact (check_changed_setting_not_duplicated _ _ _ _ n Hcheck).
    + cbn [add_reset_settings] in H.
      destruct H as [H|(new_settings & Hnew & Hloop)]; [discriminate|].
      injection Hnew as <-.
      destruct (alter_loop_throw_at _ _ _ _ _ _ _ _ ordered_set_nil Hloop)
        as (pre & s & post & Heq & _ & _ & Hcase).
      destruct Hcase as [(_ & [[]|Hin])|(_ & _ & _ & Hcheck)].
      * left. rewrite Heq. exact (has_duplicates_seen pre s post Hin).
      * exfalso. exact (check_changed_setting_not_duplicated _ _ _ _ n Hcheck).
Qed.

Lemma duplicated_setting_is_bad_arguments_witness :
  exists e,
    alter plain_collaborators
      (a_queue_table UNORDERED KEEP
         [a_setting "s3queue_loading_retries" (FieldUInt64 1);
          a_setting "loading_retries" (FieldUInt64 2)])
      one_materialized_view
      [MODIFY [a_setting "polling_min_timeout_ms" (FieldUInt64 500)]]
    = (a_queue_table UNORDERED KEEP
         [a_setting "s3queue_loading_retries" (FieldUInt64 1);
          a_setting "loading_retries" (FieldUInt64 2)], Throw e)
    /\ exists n, e = DBException BAD_ARGUMENTS "Setting {} is duplicated" [ArgString n].
Proof.
  destruct (proj1 (duplicated_setting_is_bad_arguments plain_collaborators
              (a_queue_table UNORDERED KEEP
                 [a_setting "s3queue_loading_retries" (FieldUInt64 1);
                  a_setting "loading_retries" (FieldUInt64 2)])
              one_materialized_view
              [MODIFY [a_setting "polling_min_timeout_ms" (FieldUInt64 500)]]
              eq_refl) (or_introl eq_refl))
    as (e & He & Hbad & _).
  exists e. split; [exact He|]. apply Hbad. discriminate.
Defined.

(** Two tables. The first was created with both spellings of
    [loading_retries]: any alter of its settings is answered with
    BAD_ARGUMENTS, which is not LOGICAL_ERROR. On the second, an ALTER
    that gives both spellings of [loading_retries] names the same
    normalized setting twice, and is accepted: the stand-in for
    [AlterCommands::apply] overwrites the first value with the second, and
    [alter] sees the name once. *)
Lemma duplicated_setting_is_not_logical_error :
  (has_duplicates
     (map name
        (map normalize_change
           [a_setting "mode" (FieldString "unordered");
            a_setting "s3queue_loading_retries" (FieldUInt64 1);
            a_setting "loading_retries" (FieldUInt64 2)])) = true
   /\ snd (alter plain_collaborators
             (a_queue_table UNORDERED KEEP
                [a_setting "s3queue_loading_retries" (FieldUInt64 1);
                 a_setting "loading_retries" (FieldUInt64 2)])
             []
             [MODIFY [a_setting "polling_min_timeout_ms" (FieldUInt64 500)]])
      = Throw (DBException BAD_ARGUMENTS "Setting {} is duplicated"
                 [ArgString "loading_retries"])
   /\ has_code LOGICAL_ERROR
        (DBException BAD_ARGUMENTS "Setting {} is duplicated"
           [ArgString "loading_retries"]) = false)
  /\ (map name
        (flat_map settings_changes
           (normalizeAlterCommands
              [MODIFY [a_setting "s3queue_loading_retries" (FieldUInt64 1);
                       a_setting "loading_retries" (FieldUInt64 2)]]))
      = ["loading_retries"; "loading_retries"]
      /\ alter plain_collaborators (a_queue_table UNORDERED KEEP []) []
           [MODIFY [a_setting "s3queue_loading_retries" (FieldUInt64 1);
                    a_setting "loading_retries" (FieldUInt64 2)]]
         = (setInMemoryMetadata
              [a_setting "mode" (FieldString "unordered");
               a_setting "loading_retries" (FieldUInt64 2)]
              (a_queue_table UNORDERED KEEP []), Ok tt)).
Proof. repeat split. Qed.

(* ------------------------------------------------------------------ *)
(** ** ALTER: buckets and attached views *)

Lemma requiresDetachedMV_buckets name_ :
  requiresDetachedMV name_ = Ok true <-> name_ = "buckets".
Proof.
  unfold requiresDetachedMV, checkNormalizedSetting. split.
  - destruct (starts_with name_ "s3queue_"); simpl; [discriminate|].
    intros H. injection H as H. apply String.eqb_eq, H.
  - intros ->. reflexivity.
Qed.

(** C8, as amended. [buckets] is the only setting for which
    [requiresDetachedMV] holds. An alter that changes the value of
    [buckets] while [getDependencies] is not 0 throws and leaves the
    storage as it was. When [buckets] is the setting the alter is rejected
    for (no name is repeated and every other changed setting may be
    changed), the exception is SUPPORT_IS_DISABLED: in Ordered mode its
    message names the setting and the number of dependencies; in Unordered
    mode, where [buckets] may not be changed at all, it names the setting,
    the mode and the engine. What is tested is [getDependencies], not the
    number of attached views: it is that number when every view is ready
    and 0 otherwise, and when it is 0 the check lets a change of [buckets]
    through in Ordered mode. *)
Theorem buckets_change_requires_detached_views :
  (forall name_, requiresDetachedMV name_ = Ok true <-> name_ = "buckets")
  /\ (forall ext st views commands new_settings s,
         isSettingsAlter ext commands = true ->
         new_settings_of ext st commands = Ok new_settings ->
         In s new_settings ->
         name s = "buckets" ->
         setting_changed (old_settings_of st) s = true ->
         getDependencies views <> 0 ->
         exists e,
           alter ext st views commands = (st, Throw e)
           /\ ((metadata_settings_changes st = None -> NoDup (map name new_settings)) ->
               (forall s', In s' new_settings ->
                           setting_changed (old_settings_of st) s' = true ->
                           name s' <> "buckets" ->
                           In (name s') (changeable_settings (mode (getTableMetadata st)))) ->
               e = match mode (getTableMetadata st) with
                   | ORDERED =>
                       DBException SUPPORT_IS_DISABLED
                         "Changing setting {} is not allowed only with detached dependencies (dependencies count: {})"
                         [ArgString "buckets"; ArgNumber (getDependencies views)]
                   | UNORDERED =>
                       DBException SUPPORT_IS_DISABLED
                         "Changing setting {} is not allowed for {} mode of {}"
                         [ArgString "buckets"; ArgString "UNORDERED";
                          ArgString (getName st)]
                   end))
  /\ (forall views,
         getDependencies views
         = if forallb view_is_ready views then size views else 0)
  /\ (forall st views s,
         name s = "buckets" ->
         getDependencies views = 0 ->
         check_changed_setting st views ORDERED s = Ok tt).
Proof.
  split; [exact requiresDetachedMV_buckets|].
  split; [|split; [exact getDependencies_ready|]]; cycle 1.
  { intros st views s Hname Hdeps. unfold check_changed_setting.
    rewrite Hname, Hdeps. reflexivity. }
  intros ext st views commands new_settings s Halter Hnew Hin Hname Hch Hdeps.
  rewrite (alter_unfold _ _ _ _ Halter), Hnew.
  pose proof (check_changed_setting_buckets st views (mode (getTableMetadata st))
                s Hname Hdeps) as Hbuckets.
  destruct (alter_loop st views (mode (getTableMetadata st)) (old_settings_of st)
              new_settings [] []) as [changed|e] eqn:Hloop.
  - exfalso.
    pose proof (alter_loop_ok _ _ _ _ _ _ _ _ Hloop s Hin Hch) as Hok.
    rewrite Hbuckets in Hok. destruct (mode (getTableMetadata st)); discriminate.
  - exists e. split; [reflexivity|]. intros Hnd Hothers.
    assert (Hnodup : NoDup (map name new_settings)).
    { unfold new_settings_of, old_settings_of in *.
      destruct (metadata_settings_changes st) as [old|]; cbn [option_map] in *.
      - exact (add_reset_settings_NoDup _ _ _ _ Hnew).
      - apply Hnd. reflexivity. }
    assert (Hempty : forall x : string, In x [] -> ~ In x (map name new_settings))
      by (intros x []).
    destruct (alter_loop_nodup _ _ _ _ _ _ _ _ Hnodup Hempty Hloop)
      as (s' & Hs' & Hch' & Hcheck).
    destruct (string_dec (name s') "buckets") as [Hb|Hb].
    + rewrite (check_changed_setting_buckets st views _ s' Hb Hdeps) in Hcheck.
      destruct (mode (getTableMetadata st)); congruence.
    + rewrite (check_changed_setting_other st views _ s' (Hothers _ Hs' Hch' Hb) Hb)
        in Hcheck.
      discriminate.
Qed.

Lemma buckets_change_requires_detached_views_witness :
  exists e,
    alter plain_collaborators
      (a_queue_table ORDERED KEEP [a_setting "buckets" (FieldUInt64 0)])
      one_materialized_view
      [MODIFY [a_setting "buckets" (FieldUInt64 3);
               a_setting "polling_backoff_ms" (FieldUInt64 100)]]
    = (a_queue_table ORDERED KEEP [a_setting "buckets" (FieldUInt64 0)], Throw e)
    /\ e = DBException SUPPORT_IS_DISABLED
             "Changing setting {} is not allowed only with detached dependencies (dependencies count: {})"
             [ArgString "buckets"; ArgNumber 1].
Proof.
  destruct (proj1 (proj2 buckets_change_requires_detached_views) plain_collaborators
              (a_queue_table ORDERED KEEP [a_setting "buckets" (FieldUInt64 0)])
              one_materialized_view
              [MODIFY [a_setting "buckets" (FieldUInt64 3);
                       a_setting "polling_backoff_ms" (FieldUInt64 100)]]
              [a_setting "mode" (FieldString "ordered");
               a_setting "buckets" (FieldUInt64 3);
               a_setting "polling_backoff_ms" (FieldUInt64 100)]
              (a_setting "buckets" (FieldUInt64 3))
              eq_refl eq_refl (or_intror (or_introl eq_refl)) eq_refl eq_refl
              ltac:(discriminate))
    as (e & He & Hmessage).
  exists e. split; [exact He|].
  apply Hmessage.
  - discriminate.
  - intros s' [<-|[<-|[<-|[]]]] Hch Hne.
    + discriminate Hch.
    + exfalso. apply Hne. reflexivity.
    + simpl. auto 12.
Defined.

(** Two alters of [buckets] on tables with attached views. In Unordered
    mode the alter is rejected because [buckets] may not be changed in that
    mode: the message does not carry the number of dependencies. In Ordered
    mode, with two attached views of which one is a materialized view
    without target table, [getDependencies] is 0 and the alter goes
    through. *)
Lemma buckets_change_with_attached_views :
  (getDependencies one_materialized_view = 1
   /\ setting_changed (old_settings_of (a_queue_table UNORDERED KEEP []))
        (a_setting "buckets" (FieldUInt64 3)) = true
   /\ snd (alter plain_collaborators (a_queue_table UNORDERED KEEP [])
             one_materialized_view
             [MODIFY [a_setting "buckets" (FieldUInt64 3)]])
      = Throw (DBException SUPPORT_IS_DISABLED
                 "Changing setting {} is not allowed for {} mode of {}"
                 [ArgString "buckets"; ArgString "UNORDERED"; ArgString "S3Queue"])
   /\ ~ In (ArgNumber 1)
           (exception_args
              (DBException SUPPORT_IS_DISABLED
                 "Changing setting {} is not allowed for {} mode of {}"
                 [ArgString "buckets"; ArgString "UNORDERED"; ArgString "S3Queue"])))
  /\ (size [Some (StorageMaterializedView (Some "db.target"));
            Some (StorageMaterializedView None)] = 2
      /\ getDependencies [Some (StorageMaterializedView (Some "db.target"));
                          Some (StorageMaterializedView None)] = 0
      /\ setting_changed
           (old_settings_of
              (a_queue_table ORDERED KEEP [a_setting "buckets" (FieldUInt64 0)]))
           (a_setting "buckets" (FieldUInt64 3)) = true
      /\ snd (alter plain_collaborators
                (a_queue_table ORDERED KEEP [a_setting "buckets" (FieldUInt64 0)])
                [Some (StorageMaterializedView (Some "db.target"));
                 Some (StorageMaterializedView None)]
                [MODIFY [a_setting "buckets" (FieldUInt64 3)]])
         = Ok tt
      /\ metadata_settings_changes
           (fst (alter plain_collaborators
                   (a_queue_table ORDERED KEEP [a_setting "buckets" (FieldUInt64 0)])
                   [Some (StorageMaterializedView (Some "db.target"));
                    Some (StorageMaterializedView None)]
                   [MODIFY [a_setting "buckets" (FieldUInt64 3)]]))
         = Some [a_setting "mode" (FieldString "ordered");
                 a_setting "buckets" (FieldUInt64 3)]).
Proof.
  split.
  - split; [reflexivity|]. split; [reflexivity|]. split; [reflexivity|].
    simpl. intuition discriminate.
  - repeat split.
Qed.

(* ------------------------------------------------------------------ *)
(** ** ALTER on examples *)

(** MODIFY SETTING of a setting kept in the engine: the member follows,
    and the stored settings clause carries the normalized name. *)
Example alter_polling_max_timeout :
  let '(st, r) :=
    alter plain_collaborators (a_queue_table ORDERED KEEP []) one_materialized_view
      [MODIFY [a_setting "s3queue_polling_max_timeout_ms" (FieldUInt64 5000)]] in
  r = Ok tt
  /\ polling_max_timeout_ms st = 5000
  /\ metadata_settings_changes st
     = Some [a_setting "mode" (FieldString "ordered");
             a_setting "polling_max_timeout_ms" (FieldUInt64 5000)].
Proof. repeat split. Qed.

(** RESET SETTING: the name leaves the clause, comes back with its
    default, and goes through the same checks as a modified setting. *)
Example alter_reset_buckets :
  new_settings_of plain_collaborators
    (a_queue_table ORDERED KEEP [a_setting "buckets" (FieldUInt64 4)])
    [RESET ["s3queue_buckets"]]
  = Ok [a_setting "mode" (FieldString "ordered");
        a_setting "buckets" (FieldUInt64 0)]
  /\ snd (alter plain_collaborators
            (a_queue_table ORDERED KEEP [a_setting "buckets" (FieldUInt64 4)])
            one_materialized_view [RESET ["s3queue_buckets"]])
     = Throw (DBException SUPPORT_IS_DISABLED
                "Changing setting {} is not allowed only with detached dependencies (dependencies count: {})"
                [ArgString "buckets"; ArgNumber 1])
  /\ snd (alter plain_collaborators
            (a_queue_table ORDERED KEEP [a_setting "buckets" (FieldUInt64 4)])
            [] [RESET ["s3queue_buckets"]])
     = Ok tt.
Proof. repeat split. Qed.

(** The interval grows tick after tick while nothing is processed, and
    stops at the maximum. *)
Example three_idle_ticks :
  let w := world_of one_materialized_view [] in
  let st0 := set_reschedule_processing_interval_ms 8500 (a_queue_table UNORDERED KEEP []) in
  let st1 := snd (threadFunc st0 w) in
  let st2 := snd (threadFunc st1 w) in
  let st3 := snd (threadFunc st2 w) in
  map reschedule_processing_interval_ms [st1; st2; st3] = [9500; 10000; 10000]
  /\ fst (threadFunc st2 w)
     = [RegisterIfNot; CreateFileIterator; ScheduleAfter 10000; Unregister].
Proof. repeat split. Qed.

(* ------------------------------------------------------------------ *)
(** ** Format strings *)

Lemma formatStringCountArgsNum_from_step a b rest cnt :
  formatStringCountArgsNum_from (String a (String b rest)) cnt
  = if Ascii.eqb a "{" && Ascii.eqb b "}" then
      formatStringCountArgsNum_from rest (cnt + 1)
    else if Ascii.eqb a "{" then -1
    else formatStringCountArgsNum_from (String b rest) cnt.
Proof. reflexivity. Qed.

Lemma formatStringCountArgsNum_from_bounds str cnt :
  formatStringCountArgsNum_from str cnt = -1
  \/ (cnt <= formatStringCountArgsNum_from str cnt
      /\ 2 * (formatStringCountArgsNum_from str cnt - cnt)
         <= Z.of_nat (String.length str)).
Proof.
  revert cnt.
  induction str as [str IH] using (well_founded_induction
    (Wf_nat.well_founded_ltof _ String.length)).
  intros cnt. destruct str as [|a [|b rest]].
  - right. cbn [formatStringCountArgsNum_from String.length]. lia.
  - right. cbn [formatStringCountArgsNum_from String.length]. lia.
  - rewrite formatStringCountArgsNum_from_step.
    destruct (Ascii.eqb a "{" && Ascii.eqb b "}").
    + destruct (IH rest ltac:(unfold Wf_nat.ltof; simpl; lia) (cnt + 1)) as [H|H].
      * left. exact H.
      * right. cbn [String.length]. lia.
    + destruct (Ascii.eqb a "{"); [left; reflexivity|].
      destruct (IH (String b rest) ltac:(unfold Wf_nat.ltof; simpl; lia) cnt) as [H|H].
      * left. exact H.
      * right. cbn [String.length] in *. lia.
Qed.

Lemma formatStringCountArgsNum_from_shift str cnt :
  0 <= cnt ->
  formatStringCountArgsNum_from str cnt
  = if formatStringCountArgsNum_from str 0 =? -1 then -1
    else cnt + formatStringCountArgsNum_from str 0.
Proof.
  revert cnt.
  induction str as [str IH] using (well_founded_induction
    (Wf_nat.well_founded_ltof _ String.length)).
  intros cnt Hcnt. destruct str as [|a [|b rest]].
  - cbn. lia.
  - cbn. lia.
  - rewrite !formatStringCountArgsNum_from_step.
    destruct (Ascii.eqb a "{" && Ascii.eqb b "}").
    + rewrite (IH rest ltac:(unfold Wf_nat.ltof; simpl; lia) (cnt + 1)) by lia.
      rewrite (IH rest ltac:(unfold Wf_nat.ltof; simpl; lia) (0 + 1)) by lia.
      destruct (formatStringCountArgsNum_from_bounds rest 0) as [H|[H _]].
      * rewrite H. reflexivity.
      * destruct (formatStringCountArgsNum_from rest 0 =? -1) eqn:E; [reflexivity|].
        destruct (0 + 1 + formatStringCountArgsNum_from rest 0 =? -1) eqn:E'; lia.
    + destruct (Ascii.eqb a "{"); [reflexivity|].
      apply (IH (String b rest)); [unfold Wf_nat.ltof; simpl; lia | exact Hcnt].
Qed.

Lemma formatStringCountArgsNum_from_text text rest cnt :
  brace_free text = true ->
  formatStringCountArgsNum_from (text ++ String "{" rest) cnt
  = formatStringCountArgsNum_from (String "{" rest) cnt.
Proof.
  induction text as [|c text IH]; intros Hfree; [reflexivity|].
  simpl in Hfree. apply andb_true_iff in Hfree. destruct Hfree as [Hc Hfree].
  apply negb_true_iff in Hc.
  change (String c text ++ String "{" rest)
    with (String c (text ++ String "{" rest)).
  destruct text as [|c' text'].
  - change ("" ++ String "{" rest) with (String "{" rest).
    rewrite formatStringCountArgsNum_from_step, Hc. reflexivity.
  - change (String c' text' ++ String "{" rest)
      with (String c' (text' ++ String "{" rest)) in *.
    rewrite formatStringCountArgsNum_from_step, Hc. simpl. exact (IH Hfree).
Qed.

Lemma formatStringCountArgsNum_brace_free text :
  brace_free text = true -> formatStringCountArgsNum_from text 0 = 0.
Proof.
  induction text as [|c text IH]; intros Hfree; [reflexivity|].
  simpl in Hfree. apply andb_true_iff in Hfree. destruct Hfree as [Hc Hfree].
  apply negb_true_iff in Hc.
  destruct text as [|c' text']; [reflexivity|].
  rewrite formatStringCountArgsNum_from_step, Hc. simpl. exact (IH Hfree).
Qed.

Lemma formatStringCountArgsNum_plain texts last :
  Forall (fun text => brace_free text = true) texts ->
  brace_free last = true ->
  formatStringCountArgsNum (plain_format texts last) = size texts.
Proof.
  unfold formatStringCountArgsNum.
  induction 1 as [|text rest Hfree Hrest IH]; intros Hlast.
  - exact (formatStringCountArgsNum_brace_free _ Hlast).
  - cbn [plain_format].
    change ("{}" ++ plain_format rest last)
      with (String "{" (String "}" (plain_format rest last))).
    rewrite (formatStringCountArgsNum_from_text _ _ _ Hfree).
    rewrite formatStringCountArgsNum_from_step. simpl.
    rewrite formatStringCountArgsNum_from_shift by lia.
    rewrite (IH Hlast). unfold size. cbn [List.length].
    destruct (Z.of_nat (Datatypes.length rest) =? -1) eqn:E; lia.
Qed.

(** X1. [formatStringCountArgsNum] returns -1 or a count between 0 and
    half the length of the string. *)
Theorem formatStringCountArgsNum_bounds str :
  formatStringCountArgsNum str = -1
  \/ (0 <= formatStringCountArgsNum str
      /\ 2 * formatStringCountArgsNum str <= Z.of_nat (String.length str)).
Proof.
  unfold formatStringCountArgsNum.
  destruct (formatStringCountArgsNum_from_bounds str 0) as [H|H];
    [left; exact H | right; lia].
Qed.

(** X2. For a format string made of texts without braces and of
    substitutions, the count is the number of substitutions, and
    [formatStringCheckArgsNumImpl] accepts a number of arguments exactly
    when the string is empty or the number is that count. *)
Theorem plain_format_is_checked texts last nargs :
  Forall (fun text => brace_free text = true) texts ->
  brace_free last = true ->
  formatStringCountArgsNum (plain_format texts last) = size texts
  /\ (formatStringCheckArgsNumImpl (plain_format texts last) nargs = true
      <-> plain_format texts last = "" \/ nargs = size texts).
Proof.
  intros Htexts Hlast.
  pose proof (formatStringCountArgsNum_plain texts last Htexts Hlast) as Hcount.
  split; [exact Hcount|].
  unfold formatStringCheckArgsNumImpl. rewrite Hcount.
  destruct (plain_format texts last) as [|c s] eqn:Hf; cbn [empty].
  - split; [left; reflexivity | reflexivity].
  - assert (Hnonneg : (0 <=? size texts) = true) by (apply Z.leb_le; unfold size; lia).
    rewrite Hnonneg. cbn [andb]. rewrite negb_involutive. split.
    + intros H. right. apply Z.eqb_eq in H. lia.
    + intros [H|H]; [discriminate | apply Z.eqb_eq; lia].
Qed.

Lemma plain_format_is_checked_witness :
  formatStringCountArgsNum "Changing setting {} is not allowed for {} mode of {}" = 3
  /\ (formatStringCheckArgsNumImpl
        "Changing setting {} is not allowed for {} mode of {}" 3 = true
      <-> "Changing setting {} is not allowed for {} mode of {}" = "" \/ 3 = 3).
Proof.
  exact (plain_format_is_checked
           ["Changing setting "; " is not allowed for "; " mode of "] "" 3
           ltac:(repeat constructor) eq_refl).
Defined.

Lemma string_pairs_ind (P : string -> Prop) :
  P "" ->
  (forall a, P (String a "")) ->
  (forall a b s, P s -> P (String b s) -> P (String a (String b s))) ->
  forall s, P s.
Proof.
  intros Hnil Hone Hstep.
  assert (H : forall s, P s /\ forall a, P (String a s)).
  { induction s as [|b s [IH1 IH2]].
    - split; [exact Hnil | exact Hone].
    - split; [apply IH2|]. intros a. apply Hstep; [exact IH1 | apply IH2]. }
  intros s. apply H.
Qed.

Lemma formatStringCountArgsNum_from_complex pre c rest cnt :
  c <> "}"%char ->
  formatStringCountArgsNum_from (pre ++ String "{" (String c rest)) cnt = -1.
Proof.
  intros Hc. apply Ascii.eqb_neq in Hc. revert cnt.
  induction pre as [|a|a b pre IH1 IH2] using string_pairs_ind; intros cnt.
  - change ("" ++ String "{" (String c rest)) with (String "{" (String c rest)).
    rewrite formatStringCountArgsNum_from_step, Hc. reflexivity.
  - change (String a "" ++ String "{" (String c rest))
      with (String a (String "{" (String c rest))).
    rewrite formatStringCountArgsNum_from_step.
    destruct (Ascii.eqb a "{"); [reflexivity|]. cbn [andb].
    rewrite formatStringCountArgsNum_from_step, Hc. reflexivity.
  - change (String a (String b pre) ++ String "{" (String c rest))
      with (String a (String b (pre ++ String "{" (String c rest)))).
    rewrite formatStringCountArgsNum_from_step.
    destruct (Ascii.eqb a "{" && Ascii.eqb b "}"); [apply IH1|].
    destruct (Ascii.eqb a "{"); [reflexivity|].
    exact (IH2 cnt).
Qed.

Lemma formatStringCountArgsNum_from_minus_one str cnt :
  0 <= cnt ->
  formatStringCountArgsNum_from str cnt = -1 ->
  exists pre c rest,
    str = pre ++ String "{" (String c rest) /\ c <> "}"%char.
Proof.
  revert cnt.
  induction str as [|a|a b str IH1 IH2] using string_pairs_ind; intros cnt Hcnt H.
  - cbn in H. lia.
  - cbn in H. lia.
  - rewrite formatStringCountArgsNum_from_step in H.
    destruct (Ascii.eqb a "{") eqn:Ha; cbn [andb] in H.
    + apply Ascii.eqb_eq in Ha. subst a.
      destruct (Ascii.eqb b "}") eqn:Hb.
      * apply Ascii.eqb_eq in Hb. subst b.
        destruct (IH1 (cnt + 1) ltac:(lia) H) as (pre & c & rest & -> & Hc).
        exists (String "{" (String "}" pre)), c, rest. split; [reflexivity | exact Hc].
      * exists "", b, str. split; [reflexivity|]. apply Ascii.eqb_neq. exact Hb.
    + destruct (IH2 cnt Hcnt H) as (pre & c & rest & Heq & Hc).
      exists (String a pre), c, rest. split; [|exact Hc].
      cbn [append]. rewrite <- Heq. reflexivity.
Qed.

Lemma formatStringCountArgsNum_from_last_brace str cnt :
  ends_with str "{" = false ->
  formatStringCountArgsNum_from (str ++ "{") cnt = formatStringCountArgsNum_from str cnt.
Proof.
  revert cnt.
  induction str as [|a|a b str IH1 IH2] using string_pairs_ind; intros cnt Hend.
  - reflexivity.
  - cbn [ends_with] in Hend. change (String a "" ++ "{") with (String a (String "{" "")).
    rewrite formatStringCountArgsNum_from_step, Hend. reflexivity.
  - change (String a (String b str) ++ "{") with (String a (String b (str ++ "{"))).
    rewrite !formatStringCountArgsNum_from_step.
    assert (Htail : ends_with (String b str) "{" = false) by exact Hend.
    destruct (Ascii.eqb a "{" && Ascii.eqb b "}") eqn:Hpair.
    + destruct str as [|c str']; [reflexivity|].
      apply IH1. exact Hend.
    + destruct (Ascii.eqb a "{"); [reflexivity|].
      exact (IH2 cnt Htail).
Qed.

(** X3. [formatStringCountArgsNum] gives up with -1 exactly when the string
    holds, anywhere, an opening brace that is followed by a character other
    than the closing brace; the check then accepts any number of
    arguments. An opening brace that is the last character of the string
    is not looked at: it leaves the count what it is without it. *)
Theorem complex_format_is_not_checked :
  (forall pre c rest nargs,
      c <> "}"%char ->
      formatStringCountArgsNum (pre ++ String "{" (String c rest)) = -1
      /\ formatStringCheckArgsNumImpl (pre ++ String "{" (String c rest)) nargs = true)
  /\ (forall str,
         formatStringCountArgsNum str = -1 ->
         exists pre c rest,
           str = pre ++ String "{" (String c rest) /\ c <> "}"%char)
  /\ (forall str,
         ends_with str "{" = false ->
         formatStringCountArgsNum (str ++ "{") = formatStringCountArgsNum str).
Proof.
  split; [|split].
  - intros pre c rest nargs Hc.
    unfold formatStringCheckArgsNumImpl, formatStringCountArgsNum.
    rewrite (formatStringCountArgsNum_from_complex pre c rest 0 Hc).
    split; [reflexivity|].
    destruct (empty (pre ++ String "{" (String c rest))); reflexivity.
  - intros str. apply formatStringCountArgsNum_from_minus_one. lia.
  - intros str. apply formatStringCountArgsNum_from_last_brace.
Qed.

Lemma complex_format_is_not_checked_witness :
  (formatStringCountArgsNum "{} of {:.3f}" = -1
   /\ formatStringCheckArgsNumImpl "{} of {:.3f}" 7 = true)
  /\ (exists pre c rest,
         "ratio {:.3f} of {}" = pre ++ String "{" (String c rest) /\ c <> "}"%char)
  /\ formatStringCountArgsNum ("{} open " ++ "{") = formatStringCountArgsNum "{} open ".
Proof.
  split; [|split].
  - apply (proj1 complex_format_is_not_checked "{} of " ":"%char ".3f}" 7).
    discriminate.
  - apply (proj1 (proj2 complex_format_is_not_checked) "ratio {:.3f} of {}").
    reflexivity.
  - apply (proj2 (proj2 complex_format_is_not_checked) "{} open "). reflexivity.
Defined.

Lemma check_changed_setting_format st views mode_ s e :
  check_changed_setting st views mode_ s = Throw e ->
  format_string_checked e = true.
Proof.
  unfold check_changed_setting, isSettingChangeable, requiresDetachedMV,
    checkNormalizedSetting, rbind.
  destruct (starts_with (name s) "s3queue_").
  - intros H. injection H as <-. reflexivity.
  - destruct mode_;
      match goal with
      | |- context [contains ?l ?n] => destruct (contains l n)
      end; cbn [negb];
      try (intros H; injection H as <-; reflexivity);
      destruct (String.eqb (name s) "buckets"); try discriminate;
      destruct (getDependencies views =? 0); cbn [negb]; try discriminate;
      intros H; injection H as <-; reflexivity.
Qed.

Lemma finalize_sources_result sources insert_succeeded exception_message :
  result_of (finalize_sources sources insert_succeeded exception_message) = Ok tt.
Proof.
  induction sources as [|s rest IH]; simpl; [reflexivity|].
  destruct (finalize_sources rest insert_succeeded exception_message) as [t r].
  exact IH.
Qed.

Lemma duplicated_format n : format_string_checked (duplicated n) = true.
Proof. reflexivity. Qed.

(** X4. The exceptions the engine constructs itself carry a format string
    that [formatStringCheckArgsNumImpl] accepts for their number of
    arguments: those of the constructor, of [read], of [commit], and of
    the checks of [alter]. *)
Theorem thrown_exceptions_are_format_checked :
  (forall isPathWithGlobs sync qs p tid en zk ast att e,
      StorageObjectStorageQueue isPathWithGlobs sync qs p tid en zk ast att = Throw e ->
      format_string_checked e = true)
  /\ (forall st allow_direct_select query_plan e,
         read st allow_direct_select query_plan = Throw e ->
         format_string_checked e = true)
  /\ (forall st zk insert_succeeded inserted_rows sources exception_message e,
         result_of (commit st zk insert_succeeded inserted_rows sources
                           exception_message) = Throw e ->
         format_string_checked e = true)
  /\ (forall ext st commands e,
         new_settings_of ext st commands = Throw e ->
         format_string_checked e = true)
  /\ (forall st views mode_ old new_settings names changed e,
         alter_loop st views mode_ old new_settings names changed = Throw e ->
         format_string_checked e = true).
Proof.
  split; [|split; [|split; [|split]]].
  - intros g sync qs p tid en zk ast att e.
    unfold StorageObjectStorageQueue, configured_path, validateSettings, rbind.
    destruct (empty p); [|destruct (ends_with p "/"); [|destruct (negb (g p))]];
      try (intros H; injection H as <-; reflexivity);
      (destruct (negb att && negb (s_mode_changed qs));
       [intros H; injection H as <-; reflexivity|];
       destruct (s_processing_threads_num qs =? 0);
       [intros H; injection H as <-; reflexivity|];
       destruct (s_cleanup_interval_min_ms qs >? s_cleanup_interval_max_ms qs);
       [intros H; injection H as <-; reflexivity | discriminate]).
  - intros st allow plan e. unfold read.
    destruct allow; cbn [negb]; [|intros H; injection H as <-; reflexivity].
    destruct (mv_attached st); [|discriminate].
    intros H. injection H as <-. reflexivity.
  - intros st zk ins n sources msg e. unfold commit. simpl.
    destruct (gather_requests sources ins msg [] []) as [requests objs].
    destruct (is_nil requests); simpl; [discriminate|].
    destruct (negb (is_nil objs) && is_DELETE (after_processing (getTableMetadata st)));
      simpl;
      (destruct (object_storage_queue_fail_commit zk); simpl;
       [intros H; injection H as <-; reflexivity|];
       destruct (tryMulti zk requests) as [code responses];
       destruct (is_ZOK code); simpl;
       [pose proof (finalize_sources_result sources ins msg) as Hfin;
        destruct (finalize_sources sources ins msg) as [t r]; simpl in *;
        subst r; discriminate
       | intros H; injection H as <-; reflexivity]).
  - intros ext st commands e H. unfold new_settings_of in H.
    destruct (add_reset_settings_throw _ _ _ _ H) as (n & ->).
    apply duplicated_format.
  - intros st views mode_ old new_settings names changed e H.
    destruct (alter_loop_throw _ _ _ _ _ _ _ _ H)
      as [(n & _ & ->)|(s & _ & _ & Hcheck)].
    + apply duplicated_format.
    + exact (check_changed_setting_format _ _ _ _ _ Hcheck).
Qed.

Lemma thrown_exceptions_are_format_checked_witness :
  format_string_checked
    (DBException BAD_QUERY_PARAMETER
       "ObjectStorageQueue url must either end with '/' or contain globs" []) = true
  /\ format_string_checked
       (DBException QUERY_NOT_ALLOWED
          "Cannot read from {} with attached materialized views"
          [ArgString "S3Queue"]) = true
  /\ format_string_checked
       (DBException UNKNOWN_EXCEPTION "Failed to commit processed files" []) = true
  /\ format_string_checked
       (DBException BAD_ARGUMENTS "Setting {} is duplicated"
          [ArgString "loading_retries"]) = true
  /\ format_string_checked
       (DBException SUPPORT_IS_DISABLED
          "Changing setting {} is not allowed only with detached dependencies (dependencies count: {})"
          [ArgString "buckets"; ArgNumber 1]) = true.
Proof.
  split; [|split; [|split; [|split]]].
  - exact (proj1 thrown_exceptions_are_format_checked
             contains_glob_char metadata_of_settings
             (queue_settings_of UNORDERED KEEP) "data/file.csv" "db.queue" "S3Queue"
             "/clickhouse/s3queue/db/queue" None false _ eq_refl).
  - exact (proj1 (proj2 thrown_exceptions_are_format_checked)
             (set_mv_attached true (a_queue_table UNORDERED KEEP [])) true [] _ eq_refl).
  - exact (proj1 (proj2 (proj2 thrown_exceptions_are_format_checked))
             (a_queue_table UNORDERED DELETE []) failing_coordinator true 3
             [source_of_file 0 "data/a.csv"] "" _ eq_refl).
  - exact (proj1 (proj2 (proj2 (proj2 thrown_exceptions_are_format_checked)))
             plain_collaborators
             (a_queue_table UNORDERED KEEP
                [a_setting "s3queue_loading_retries" (FieldUInt64 1);
                 a_setting "loading_retries" (FieldUInt64 2)])
             [MODIFY [a_setting "polling_min_timeout_ms" (FieldUInt64 500)]]
             _ eq_refl).
  - exact (proj2 (proj2 (proj2 (proj2 thrown_exceptions_are_format_checked)))
             (a_queue_table ORDERED KEEP []) one_materialized_view ORDERED
             (Some [a_setting "mode" (FieldString "ordered")])
             [a_setting "mode" (FieldString "ordered");
              a_setting "buckets" (FieldUInt64 3)] [] [] _ eq_refl).
Defined.

(* ------------------------------------------------------------------ *)
(** ** Construction and getSettings *)

Lemma validateSettings_ok qs att :
  validateSettings qs att = Ok tt
  <-> (att || s_mode_changed qs = true
       /\ s_processing_threads_num qs <> 0
       /\ s_cleanup_interval_min_ms qs <= s_cleanup_interval_max_ms qs).
Proof.
  unfold validateSettings. rewrite Z.gtb_ltb.
  destruct att, (s_mode_changed qs); cbn [negb andb orb];
    try (split; [discriminate | intros (Hm & _); discriminate Hm]);
    (destruct (Z.eqb_spec (s_processing_threads_num qs) 0) as [Hz|Hz];
     [split; [discriminate | intros (_ & Hn & _); contradiction]|]);
    (destruct (Z.ltb_spec (s_cleanup_interval_max_ms qs) (s_cleanup_interval_min_ms qs))
       as [Hlt|Hle];
     [split; [discriminate | intros (_ & _ & Hc); lia]
     |split; [intros _; repeat split; [exact Hz | lia] | reflexivity]]).
Qed.

Lemma validateSettings_throw qs att e :
  validateSettings qs att = Throw e -> has_code BAD_ARGUMENTS e = true.
Proof.
  unfold validateSettings.
  destruct (negb att && negb (s_mode_changed qs));
    [intros H; injection H as <-; reflexivity|].
  destruct (s_processing_threads_num qs =? 0);
    [intros H; injection H as <-; reflexivity|].
  destruct (s_cleanup_interval_min_ms qs >? s_cleanup_interval_max_ms qs);
    [intros H; injection H as <-; reflexivity | discriminate].
Qed.

(** X5. The body of the constructor checks the path first and the settings
    second. A table is built only if the path is acceptable (empty, ending
    with '/', or with globs) and [validateSettings] passes, which it does
    exactly when [mode] is given unless the table is attached, there is at
    least one processing thread, and [cleanup_interval_min_ms] is not above
    [cleanup_interval_max_ms]. A path that is not acceptable is answered
    with BAD_QUERY_PARAMETER also when the settings are wrong; with an
    acceptable path, wrong settings are answered with the BAD_ARGUMENTS
    exception of [validateSettings]. *)
Theorem constructor_checks_path_then_settings (isPathWithGlobs : string -> bool) sync qs
    (p tid en zk : string) ast att :
  (forall st,
      StorageObjectStorageQueue isPathWithGlobs sync qs p tid en zk ast att = Ok st ->
      empty p || ends_with p "/" || isPathWithGlobs p = true
      /\ validateSettings qs att = Ok tt)
  /\ (validateSettings qs att = Ok tt
      <-> (att || s_mode_changed qs = true
           /\ s_processing_threads_num qs <> 0
           /\ s_cleanup_interval_min_ms qs <= s_cleanup_interval_max_ms qs))
  /\ (empty p || ends_with p "/" || isPathWithGlobs p = false ->
      exists e,
        StorageObjectStorageQueue isPathWithGlobs sync qs p tid en zk ast att = Throw e
        /\ has_code BAD_QUERY_PARAMETER e = true)
  /\ (forall e,
         empty p || ends_with p "/" || isPathWithGlobs p = true ->
         validateSettings qs att = Throw e ->
         StorageObjectStorageQueue isPathWithGlobs sync qs p tid en zk ast att = Throw e
         /\ has_code BAD_ARGUMENTS e = true).
Proof.
  split; [|split; [exact (validateSettings_ok qs att)|split]].
  - intros st. unfold StorageObjectStorageQueue, configured_path, rbind.
    destruct (empty p); [|destruct (ends_with p "/");
                          [|destruct (isPathWithGlobs p)]];
      cbn [orb negb]; try discriminate;
      (destruct (validateSettings qs att) as [[]|e]; [|discriminate]);
      intros _; split; reflexivity.
  - unfold StorageObjectStorageQueue, configured_path, rbind.
    destruct (empty p); [discriminate|].
    destruct (ends_with p "/"); [discriminate|].
    destruct (isPathWithGlobs p); [discriminate|].
    intros _. cbn [negb]. eexists. split; reflexivity.
  - intros e Hpath Hsettings.
    split; [|exact (validateSettings_throw _ _ _ Hsettings)].
    unfold StorageObjectStorageQueue, configured_path, rbind.
    destruct (empty p); [|destruct (ends_with p "/");
                          [|destruct (isPathWithGlobs p)]];
      cbn [orb negb] in *; try discriminate; rewrite Hsettings; reflexivity.
Qed.

Lemma constructor_checks_path_then_settings_witness :
  (exists e,
      StorageObjectStorageQueue contains_glob_char metadata_of_settings
        (queue_settings_of ORDERED KEEP) "data/file.csv" "db.queue" "S3Queue"
        "/clickhouse/s3queue/db/queue" None false
      = Throw e
      /\ has_code BAD_QUERY_PARAMETER e = true)
  /\ (empty "data/" || ends_with "data/" "/" || contains_glob_char "data/" = true
      /\ validateSettings (queue_settings_of ORDERED KEEP) false = Ok tt).
Proof.
  split.
  - exact (proj1 (proj2 (proj2 (constructor_checks_path_then_settings
             contains_glob_char metadata_of_settings (queue_settings_of ORDERED KEEP)
             "data/file.csv" "db.queue" "S3Queue" "/clickhouse/s3queue/db/queue"
             None false))) eq_refl).
  - exact (proj1 (constructor_checks_path_then_settings
             contains_glob_char metadata_of_settings (queue_settings_of ORDERED KEEP)
             "data/" "db.queue" "S3Queue" "/clickhouse/s3queue/db/queue"
             (Some [{| name := "mode"; value := mode_field ORDERED |}]) false)
             (a_queue_table ORDERED KEEP []) eq_refl).
Defined.

(** X6. [getSettings] of a table just built gives back the settings the
    engine keeps itself as they were given: the three polling settings,
    the four commit thresholds, [list_objects_batch_size] and
    [enable_hash_ring_filtering]; [keeper_path] is the path chosen in the
    coordinator, and [enable_logging_to_queue_log] comes back as 0 or 1.
    The first reschedule interval is [polling_min_timeout_ms]. *)
Theorem getSettings_after_construction isPathWithGlobs sync qs p tid en zk ast att st :
  StorageObjectStorageQueue isPathWithGlobs sync qs p tid en zk ast att = Ok st ->
  (s_polling_min_timeout_ms (getSettings st) = s_polling_min_timeout_ms qs
   /\ s_polling_max_timeout_ms (getSettings st) = s_polling_max_timeout_ms qs
   /\ s_polling_backoff_ms (getSettings st) = s_polling_backoff_ms qs)
  /\ (s_max_processed_files_before_commit (getSettings st)
      = s_max_processed_files_before_commit qs
      /\ s_max_processed_rows_before_commit (getSettings st)
         = s_max_processed_rows_before_commit qs
      /\ s_max_processed_bytes_before_commit (getSettings st)
         = s_max_processed_bytes_before_commit qs
      /\ s_max_processing_time_sec_before_commit (getSettings st)
         = s_max_processing_time_sec_before_commit qs)
  /\ (s_list_objects_batch_size (getSettings st) = s_list_objects_batch_size qs
      /\ s_enable_hash_ring_filtering (getSettings st)
         = s_enable_hash_ring_filtering qs)
  /\ (s_keeper_path (getSettings st) = zk
      /\ s_enable_logging_to_queue_log (getSettings st)
         = (if s_enable_logging_to_queue_log qs =? 0 then 0 else 1))
  /\ reschedule_processing_interval_ms st = s_polling_min_timeout_ms qs.
Proof.
  unfold StorageObjectStorageQueue, rbind.
  destruct (configured_path isPathWithGlobs p); [|discriminate].
  destruct (validateSettings qs att); [|discriminate].
  intros H. injection H as <-. cbn.
  destruct (s_enable_logging_to_queue_log qs =? 0); repeat split.
Qed.

Lemma getSettings_after_construction_witness :
  s_polling_max_timeout_ms (getSettings (a_queue_table ORDERED KEEP [])) = 10000
  /\ s_keeper_path (getSettings (a_queue_table ORDERED KEEP []))
     = "/clickhouse/s3queue/db/queue".
Proof.
  destruct (getSettings_after_construction contains_glob_char metadata_of_settings
              (queue_settings_of ORDERED KEEP) "data/" "db.queue" "S3Queue"
              "/clickhouse/s3queue/db/queue"
              (Some [{| name := "mode"; value := mode_field ORDERED |}]) false
              (a_queue_table ORDERED KEEP []) eq_refl)
    as ((_ & Hmax & _) & _ & _ & (Hpath & _) & _).
  split; [exact Hmax | exact Hpath].
Defined.

(* ------------------------------------------------------------------ *)
(** ** The read step *)

Lemma initializePipeline_sources st step s :
  In (ObjectStorageQueueSource s) (snd (initializePipeline st step)) ->
  exists i,
    (i < Z.to_nat (processing_threads_num (getTableMetadata st)))%nat
    /\ s = StorageObjectStorageQueue_createSource st i (iterator_after st step None)
             (step_max_block_size step) true.
Proof.
  unfold initializePipeline. cbn [snd].
  set (pipes := map _ (seq 0 _)).
  intros Hin.
  assert (Hpipes : In (ObjectStorageQueueSource s) pipes).
  { destruct pipes as [|p0 rest]; cbn [is_nil] in Hin; [|exact Hin].
    destruct Hin as [H|[]]. discriminate. }
  apply in_map_iff in Hpipes. destruct Hpipes as (i & Heq & Hi).
  injection Heq as <-. apply in_seq in Hi. exists i. split; [lia | reflexivity].
Qed.

(** X7. The file iterator of a read step is created once. When
    [applyFilters] ran first, [initializePipeline] keeps its iterator:
    every source reads through the iterator built for the first output of
    the filter, with the batch size and the hash-ring flag the table had
    then, while the commit settings are those the table has when the
    pipeline is initialized. Without [applyFilters] the iterator has no
    predicate. *)
Theorem read_step_creates_iterator_once :
  (forall st_filter st_pipeline max_block_size dag step s,
      applyFilters st_filter (new_read_step max_block_size) dag = Ok step ->
      In (ObjectStorageQueueSource s) (snd (initializePipeline st_pipeline step)) ->
      source_file_iterator s
      = createFileIterator st_filter
          (match dag with Some (output :: _) => Some output | _ => None end)
      /\ source_commit_settings s = commit_settings st_pipeline
      /\ iterator (fst (initializePipeline st_pipeline step)) = iterator step)
  /\ (forall st max_block_size s,
         In (ObjectStorageQueueSource s)
            (snd (initializePipeline st (new_read_step max_block_size))) ->
         source_file_iterator s = createFileIterator st None).
Proof.
  split.
  - intros st1 st2 mbs dag step s Hfilter Hin.
    assert (Hstep : iterator step
                    = Some (createFileIterator st1
                              (match dag with
                               | Some (output :: _) => Some output
                               | _ => None
                               end))).
    { destruct dag as [[|output outputs]|]; simpl in Hfilter;
        [discriminate | |]; injection Hfilter as <-; reflexivity. }
    destruct (initializePipeline_sources _ _ _ Hin) as (i & _ & ->).
    unfold initializePipeline, createIterator, iterator_after.
    rewrite Hstep. repeat split.
  - intros st mbs s Hin.
    destruct (initializePipeline_sources _ _ _ Hin) as (i & _ & ->).
    reflexivity.
Qed.

Lemma read_step_creates_iterator_once_witness :
  source_file_iterator
    (StorageObjectStorageQueue_createSource
       (set_engine_local (a_queue_table UNORDERED KEEP []) 1000 10000 1000 50 true
          {| max_processed_files_before_commit := 1;
             max_processed_rows_before_commit := 0;
             max_processed_bytes_before_commit := 0;
             max_processing_time_sec_before_commit := 0 |})
       1
       (createFileIterator (a_queue_table UNORDERED KEEP []) (Some "_path = 'a'"))
       8192 true)
  = createFileIterator (a_queue_table UNORDERED KEEP []) (Some "_path = 'a'")
  /\ source_file_iterator
       (StorageObjectStorageQueue_createSource (a_queue_table UNORDERED KEEP []) 0
          (createFileIterator (a_queue_table UNORDERED KEEP []) None) 8192 true)
     = createFileIterator (a_queue_table UNORDERED KEEP []) None.
Proof.
  split.
  - refine (proj1 (proj1 read_step_creates_iterator_once
      (a_queue_table UNORDERED KEEP [])
      (set_engine_local (a_queue_table UNORDERED KEEP []) 1000 10000 1000 50 true
         {| max_processed_files_before_commit := 1;
            max_processed_rows_before_commit := 0;
            max_processed_bytes_before_commit := 0;
            max_processing_time_sec_before_commit := 0 |})
      8192 (Some ["_path = 'a'"]) _ _ eq_refl _)).
    simpl. right. left. reflexivity.
  - refine (proj2 read_step_creates_iterator_once
      (a_queue_table UNORDERED KEEP []) 8192 _ _).
    simpl. left. reflexivity.
Defined.

(** X8. [initializePipeline] builds one source per processing thread,
    numbered from 0, each committing once its file is processed; with no
    processing thread the pipe is a single [NullSource]. *)
Theorem initializePipeline_processors st step :
  (0 < processing_threads_num (getTableMetadata st) ->
   map source_of (snd (initializePipeline st step))
   = map (fun i => Some (StorageObjectStorageQueue_createSource st i
                           (iterator_after st step None)
                           (step_max_block_size step) true))
         (seq 0 (Z.to_nat (processing_threads_num (getTableMetadata st))))
   /\ map (fun p => option_map source_processor_id (source_of p))
          (snd (initializePipeline st step))
      = map Some (seq 0 (Z.to_nat (processing_threads_num (getTableMetadata st))))
   /\ Z.of_nat (List.length (snd (initializePipeline st step)))
      = processing_threads_num (getTableMetadata st))
  /\ (processing_threads_num (getTableMetadata st) <= 0 ->
      snd (initializePipeline st step) = [NullSource])
  /\ (forall s, In (ObjectStorageQueueSource s) (snd (initializePipeline st step)) ->
                source_commit_once_processed s = true).
Proof.
  split; [|split].
  - intros Hpos. unfold initializePipeline. cbn [snd].
    destruct (Z.to_nat (processing_threads_num (getTableMetadata st))) as [|n] eqn:Hn;
      [lia|].
    rewrite <- Hn.
    assert (Hnil : forall f : nat -> Processor,
               is_nil (map f (seq 0 (Z.to_nat (processing_threads_num
                                                 (getTableMetadata st))))) = false).
    { intros f. rewrite Hn. reflexivity. }
    rewrite Hnil. rewrite !map_map. cbn [source_of option_map source_processor_id
      StorageObjectStorageQueue_createSource].
    split; [reflexivity|]. split; [reflexivity|].
    rewrite length_map, length_seq. lia.
  - intros Hle. unfold initializePipeline. cbn [snd].
    replace (Z.to_nat (processing_threads_num (getTableMetadata st))) with 0%nat by lia.
    reflexivity.
  - intros s Hin. destruct (initializePipeline_sources _ _ _ Hin) as (i & _ & ->).
    reflexivity.
Qed.

Lemma initializePipeline_processors_witness :
  map (fun p => option_map source_processor_id (source_of p))
      (snd (initializePipeline (a_queue_table UNORDERED KEEP []) (new_read_step 8192)))
  = [Some 0%nat; Some 1%nat]
  /\ snd (initializePipeline
            (set_files_metadata
               {| table_metadata :=
                    {| mode := UNORDERED; after_processing := KEEP;
                       loading_retries := 10; processing_threads_num := 0;
                       last_processed_path := ""; tracked_files_ttl_sec := 0;
                       tracked_files_limit := 1000; buckets := 0 |};
                  cleanup_interval_min_ms := 0; cleanup_interval_max_ms := 0 |}
               (a_queue_table UNORDERED KEEP []))
            (new_read_step 8192))
     = [NullSource].
Proof.
  split.
  - refine (proj1 (proj2 (proj1 (initializePipeline_processors
             (a_queue_table UNORDERED KEEP []) (new_read_step 8192)) _))).
    reflexivity.
  - refine (proj1 (proj2 (initializePipeline_processors _ (new_read_step 8192))) _).
    discriminate.
Defined.

(* ------------------------------------------------------------------ *)
(** ** Commit: the outcomes *)

Lemma finalize_sources_run sources insert_succeeded exception_message :
  finalize_sources sources insert_succeeded exception_message
  = (map (fun source => FinalizeCommit (processor_id source) insert_succeeded
                          exception_message) sources, Ok tt).
Proof.
  induction sources as [|s rest IH]; simpl; [reflexivity|].
  rewrite IH. reflexivity.
Qed.

Lemma gather_requests_app sources insert_succeeded exception_message requests objects :
  gather_requests sources insert_succeeded exception_message requests objects
  = ((requests
      ++ List.concat (map (fun source =>
                        fst (prepareCommitRequests source insert_succeeded
                               exception_message)) sources))%list,
     (objects
      ++ List.concat (map (fun source =>
                        snd (prepareCommitRequests source insert_succeeded
                               exception_message)) sources))%list).
Proof.
  revert requests objects.
  induction sources as [|s rest IH]; simpl; intros requests objects.
  - rewrite !app_nil_r. reflexivity.
  - destruct (prepareCommitRequests s insert_succeeded exception_message) as [r o].
    rewrite IH, <- !app_assoc. reflexivity.
Qed.

Lemma commit_run st zk insert_succeeded inserted_rows sources exception_message
    requests successful_objects :
  gather_requests sources insert_succeeded exception_message [] []
  = (requests, successful_objects) ->
  commit st zk insert_succeeded inserted_rows sources exception_message
  = if is_nil requests then
      ([ProfileIncrement ObjectStorageQueueProcessedRows inserted_rows], Ok tt)
    else if object_storage_queue_fail_commit zk then
      ((ProfileIncrement ObjectStorageQueueProcessedRows inserted_rows
        :: ProfileIncrement ObjectStorageQueueCommitRequests (size requests)
        :: removal_events st successful_objects)%list,
       Throw (DBException UNKNOWN_EXCEPTION "Failed to commit processed files" []))
    else if is_ZOK (fst (tryMulti zk requests)) then
      ((ProfileIncrement ObjectStorageQueueProcessedRows inserted_rows
        :: ProfileIncrement ObjectStorageQueueCommitRequests (size requests)
        :: removal_events st successful_objects
        ++ TryMulti requests
        :: ProfileIncrement ObjectStorageQueueSuccessfulCommits 1
        :: map (fun source => FinalizeCommit (processor_id source) insert_succeeded
                                exception_message) sources)%list,
       Ok tt)
    else
      ((ProfileIncrement ObjectStorageQueueProcessedRows inserted_rows
        :: ProfileIncrement ObjectStorageQueueCommitRequests (size requests)
        :: removal_events st successful_objects
        ++ [TryMulti requests;
            ProfileIncrement ObjectStorageQueueUnsuccessfulCommits 1])%list,
       Throw (KeeperMultiException (fst (tryMulti zk requests)) requests
                (snd (tryMulti zk requests)))).
Proof.
  intros Hgather. unfold commit, removal_events. simpl. rewrite Hgather.
  destruct (is_nil requests); [reflexivity|]. simpl.
  destruct (negb (is_nil successful_objects)
            && is_DELETE (after_processing (getTableMetadata st))); simpl;
    (destruct (object_storage_queue_fail_commit zk); simpl; [reflexivity|];
     destruct (tryMulti zk requests) as [code responses]; simpl;
     destruct (is_ZOK code); simpl; [|reflexivity];
     rewrite finalize_sources_run; reflexivity).
Qed.

Lemma existsb_app_false {A} (f : A -> bool) l1 l2 :
  existsb f l1 = false -> existsb f l2 = false -> existsb f (l1 ++ l2) = false.
Proof. intros H1 H2. rewrite existsb_app, H1, H2. reflexivity. Qed.

Lemma removal_events_no_finalize st objects :
  existsb is_FinalizeCommit (removal_events st objects) = false.
Proof. unfold removal_events. destruct (_ && _); reflexivity. Qed.

(** X9. When the coordinator rejects the transaction, [commit] throws a
    [KeeperMultiException] with the code, the requests and the responses,
    counts an unsuccessful commit and finalizes no source; the objects of
    a DELETE table have been removed from the blob store all the same. *)
Theorem commit_rejected_transaction st zk insert_succeeded inserted_rows sources
    exception_message requests successful_objects code responses :
  gather_requests sources insert_succeeded exception_message [] []
  = (requests, successful_objects) ->
  requests <> [] ->
  object_storage_queue_fail_commit zk = false ->
  tryMulti zk requests = (code, responses) ->
  code <> ZOK ->
  commit st zk insert_succeeded inserted_rows sources exception_message
  = ((ProfileIncrement ObjectStorageQueueProcessedRows inserted_rows
      :: ProfileIncrement ObjectStorageQueueCommitRequests (size requests)
      :: removal_events st successful_objects
      ++ [TryMulti requests;
          ProfileIncrement ObjectStorageQueueUnsuccessfulCommits 1])%list,
     Throw (KeeperMultiException code requests responses))
  /\ existsb is_FinalizeCommit
       (trace_of (commit st zk insert_succeeded inserted_rows sources
                         exception_message)) = false
  /\ (successful_objects <> [] ->
      after_processing (getTableMetadata st) = DELETE ->
      In (RemoveObjectsIfExist successful_objects)
         (trace_of (commit st zk insert_succeeded inserted_rows sources
                           exception_message))).
Proof.
  intros Hgather Hreq Hfail Hmulti Hcode.
  rewrite (commit_run _ _ _ _ _ _ _ _ Hgather), Hfail, Hmulti.
  destruct requests as [|r requests']; [congruence|]. cbn [is_nil fst snd].
  assert (Hzok : is_ZOK code = false)
    by (clear - Hcode; destruct code; [exfalso; apply Hcode| | | |]; reflexivity).
  rewrite Hzok. split; [reflexivity|]. split.
  - cbn [trace_of fst existsb is_FinalizeCommit orb].
    apply existsb_app_false; [apply removal_events_no_finalize | reflexivity].
  - intros Hobj Hdel. cbn [trace_of fst]. right. right. apply in_or_app. left.
    unfold removal_events. rewrite Hdel.
    destruct successful_objects; [congruence|]. left. reflexivity.
Qed.

Lemma commit_rejected_transaction_witness :
  existsb is_FinalizeCommit
    (trace_of (commit (a_queue_table UNORDERED DELETE []) rejecting_coordinator
                 true 3 [source_of_file 0 "data/a.csv"; idle_source 1] "")) = false
  /\ In (RemoveObjectsIfExist ["data/a.csv"])
        (trace_of (commit (a_queue_table UNORDERED DELETE []) rejecting_coordinator
                     true 3 [source_of_file 0 "data/a.csv"; idle_source 1] "")).
Proof.
  destruct (commit_rejected_transaction
              (a_queue_table UNORDERED DELETE []) rejecting_coordinator
              true 3 [source_of_file 0 "data/a.csv"; idle_source 1] ""
              [CreateRequest "/processed/data/a.csv" "";
               RemoveRequest "/processing/data/a.csv"]
              ["data/a.csv"] ZBADVERSION [ZBADVERSION; ZBADVERSION]
              eq_refl ltac:(discriminate) eq_refl eq_refl ltac:(discriminate))
    as (_ & Hfinal & Hremoved).
  split; [exact Hfinal|]. apply Hremoved; [discriminate | reflexivity].
Defined.

Lemma filter_app_nil {A} (f : A -> bool) l1 l2 :
  existsb f l1 = false -> filter f (l1 ++ l2) = filter f l2.
Proof.
  induction l1 as [|x l1 IH]; simpl; [reflexivity|].
  destruct (f x); [discriminate|]. exact IH.
Qed.

(** X10. When the coordinator accepts the transaction, [commit] returns
    normally; the transaction holds the requests of the sources in the
    order of the sources, a successful commit is counted, and after the
    transaction every source is finalized once, in order, with the outcome
    of the insert and the exception message. *)
Theorem commit_accepted_transaction st zk insert_succeeded inserted_rows sources
    exception_message requests successful_objects :
  gather_requests sources insert_succeeded exception_message [] []
  = (requests, successful_objects) ->
  requests <> [] ->
  object_storage_queue_fail_commit zk = false ->
  fst (tryMulti zk requests) = ZOK ->
  commit st zk insert_succeeded inserted_rows sources exception_message
  = ((ProfileIncrement ObjectStorageQueueProcessedRows inserted_rows
      :: ProfileIncrement ObjectStorageQueueCommitRequests (size requests)
      :: removal_events st successful_objects
      ++ TryMulti requests
      :: ProfileIncrement ObjectStorageQueueSuccessfulCommits 1
      :: map (fun source => FinalizeCommit (processor_id source) insert_succeeded
                              exception_message) sources)%list,
     Ok tt)
  /\ requests
     = List.concat (map (fun source =>
                           fst (prepareCommitRequests source insert_succeeded
                                  exception_message)) sources)
  /\ filter is_FinalizeCommit
       (trace_of (commit st zk insert_succeeded inserted_rows sources
                         exception_message))
     = map (fun source => FinalizeCommit (processor_id source) insert_succeeded
                            exception_message) sources.
Proof.
  intros Hgather Hreq Hfail Hok.
  rewrite (commit_run _ _ _ _ _ _ _ _ Hgather), Hfail, Hok.
  destruct requests as [|r requests'] eqn:Hr; [congruence|]. cbn [is_nil is_ZOK].
  split; [reflexivity|]. split.
  - rewrite gather_requests_app in Hgather. injection Hgather as H1 _.
    symmetry. exact H1.
  - cbn [trace_of fst filter is_FinalizeCommit].
    rewrite (filter_app_nil _ _ _ (removal_events_no_finalize st successful_objects)).
    cbn [filter is_FinalizeCommit].
    induction sources as [|s rest IH] in |- *; [reflexivity|].
    clear. induction (s :: rest) as [|x l IHl]; [reflexivity|].
    cbn [map filter is_FinalizeCommit]. f_equal. exact IHl.
Qed.

Lemma commit_accepted_transaction_witness :
  filter is_FinalizeCommit
    (trace_of (commit (a_queue_table UNORDERED KEEP []) accepting_coordinator
                 false 0 [source_of_file 0 "data/a.csv"; idle_source 1] "parse error"))
  = [FinalizeCommit 0 false "parse error"; FinalizeCommit 1 false "parse error"].
Proof.
  exact (proj2 (proj2 (commit_accepted_transaction
           (a_queue_table UNORDERED KEEP []) accepting_coordinator
           false 0 [source_of_file 0 "data/a.csv"; idle_source 1] "parse error"
           [SetRequest "/failed/data/a.csv" "parse error";
            RemoveRequest "/processing/data/a.csv"] []
           eq_refl ltac:(discriminate) eq_refl eq_refl))).
Defined.

(** X11. One call of [commit] removes objects at most once and issues at
    most one transaction. On a KEEP table, or when the sources report no
    successful object, it removes nothing from the blob store. *)
Theorem commit_removes_at_most_once st zk insert_succeeded inserted_rows sources
    exception_message :
  (List.length
     (filter is_RemoveObjectsIfExist
        (trace_of (commit st zk insert_succeeded inserted_rows sources
                          exception_message))) <= 1)%nat
  /\ (List.length
        (filter is_TryMulti
           (trace_of (commit st zk insert_succeeded inserted_rows sources
                             exception_message))) <= 1)%nat
  /\ (after_processing (getTableMetadata st) = KEEP
      \/ snd (gather_requests sources insert_succeeded exception_message [] []) = [] ->
      existsb is_RemoveObjectsIfExist
        (trace_of (commit st zk insert_succeeded inserted_rows sources
                          exception_message)) = false).
Proof.
  destruct (gather_requests sources insert_succeeded exception_message [] [])
    as [requests objects] eqn:Hgather.
  rewrite (commit_run _ _ _ _ _ _ _ _ Hgather). cbn [snd].
  assert (Hfinal : forall l : list Source,
             filter is_RemoveObjectsIfExist
               (map (fun source => FinalizeCommit (processor_id source)
                                     insert_succeeded exception_message) l) = []
             /\ filter is_TryMulti
                  (map (fun source => FinalizeCommit (processor_id source)
                                        insert_succeeded exception_message) l) = []
             /\ existsb is_RemoveObjectsIfExist
                  (map (fun source => FinalizeCommit (processor_id source)
                                        insert_succeeded exception_message) l) = false).
  { induction l as [|x l IHl]; [repeat split | exact IHl]. }
  destruct (Hfinal sources) as (Hf1 & Hf2 & Hf3).
  unfold removal_events.
  destruct (negb (is_nil objects)
            && is_DELETE (after_processing (getTableMetadata st))) eqn:Hc;
    (destruct (is_nil requests);
     [|destruct (object_storage_queue_fail_commit zk);
       [|destruct (is_ZOK (fst (tryMulti zk requests)))]]);
    cbn [trace_of fst app filter existsb is_RemoveObjectsIfExist is_TryMulti orb];
    rewrite ?Hf1, ?Hf2, ?Hf3; cbn [List.length];
    (split; [lia | split; [lia|]]);
    intros Hkeep; try reflexivity;
    exfalso; destruct Hkeep as [Hkeep|Hkeep]; rewrite Hkeep in Hc;
    try rewrite andb_false_r in Hc; discriminate.
Qed.

Lemma commit_removes_at_most_once_witness :
  existsb is_RemoveObjectsIfExist
    (trace_of (commit (a_queue_table UNORDERED KEEP []) accepting_coordinator
                 true 3 [source_of_file 0 "data/a.csv"] "")) = false.
Proof.
  apply (proj2 (proj2 (commit_removes_at_most_once
           (a_queue_table UNORDERED KEEP []) accepting_coordinator
           true 3 [source_of_file 0 "data/a.csv"] ""))).
  left. reflexivity.
Defined.

(* ------------------------------------------------------------------ *)
(** ** streamToViews: the loop *)

Lemma commit_events st zk insert_succeeded inserted_rows sources exception_message :
  forallb is_commit_event
    (trace_of (commit st zk insert_succeeded inserted_rows sources
                      exception_message)) = true.
Proof.
  destruct (gather_requests sources insert_succeeded exception_message [] [])
    as [requests objects] eqn:Hgather.
  rewrite (commit_run _ _ _ _ _ _ _ _ Hgather).
  assert (Hfinal : forall l : list Source,
             forallb is_commit_event
               (map (fun source => FinalizeCommit (processor_id source)
                                     insert_succeeded exception_message) l) = true).
  { induction l as [|x l IHl]; [reflexivity | exact IHl]. }
  unfold removal_events.
  destruct (negb (is_nil objects)
            && is_DELETE (after_processing (getTableMetadata st)));
    (destruct (is_nil requests);
     [|destruct (object_storage_queue_fail_commit zk);
       [|destruct (is_ZOK (fst (tryMulti zk requests)))]]);
    cbn [trace_of fst app forallb is_commit_event andb];
    rewrite ?Hfinal; reflexivity.
Qed.

Lemma forallb_implies {A} (f g : A -> bool) l :
  (forall x, f x = true -> g x = true) -> forallb f l = true -> forallb g l = true.
Proof.
  intros Himp. induction l as [|x l IH]; simpl; [reflexivity|].
  intros H. apply andb_true_iff in H. destruct H as [Hx Hl].
  rewrite (Himp _ Hx), (IH Hl). reflexivity.
Qed.

Lemma forallb_count_zero {A} (f g : A -> bool) l :
  (forall x, f x = true -> g x = false) -> forallb f l = true -> filter g l = [].
Proof.
  intros Himp. induction l as [|x l IH]; simpl; [reflexivity|].
  intros H. apply andb_true_iff in H. destruct H as [Hx Hl].
  rewrite (Himp _ Hx). exact (IH Hl).
Qed.

Lemma commit_event_is_loop_event ev : is_commit_event ev = true -> is_loop_event ev = true.
Proof. destruct ev; simpl; congruence. Qed.

Lemma count_events_app kind t1 t2 :
  count_events kind (t1 ++ t2)%list
  = (count_events kind t1 + count_events kind t2)%nat.
Proof. unfold count_events. rewrite filter_app, length_app. reflexivity. Qed.

Lemma commit_counts st zk insert_succeeded inserted_rows sources exception_message :
  count_events is_ExecutePipeline
    (trace_of (commit st zk insert_succeeded inserted_rows sources
                      exception_message)) = 0%nat
  /\ count_events is_ReleaseFinishedBuckets
       (trace_of (commit st zk insert_succeeded inserted_rows sources
                         exception_message)) = 0%nat.
Proof.
  unfold count_events.
  pose proof (commit_events st zk insert_succeeded inserted_rows sources
                exception_message) as H.
  rewrite (forallb_count_zero is_commit_event is_ExecutePipeline _
             ltac:(intros [] Hx; simpl in *; congruence) H).
  rewrite (forallb_count_zero is_commit_event is_ReleaseFinishedBuckets _
             ltac:(intros [] Hx; simpl in *; congruence) H).
  split; reflexivity.
Qed.

(** One pass of the loop, by the outcome of the executor and of the
    commit. *)
Lemma streamToViews_loop_step st message n it rest total_rows :
  streamToViews_loop st message n (it :: rest) total_rows
  = match executor_exception it with
    | Some e =>
        match commit st (zookeeper it) false (rows it) (create_sources it n)
                     (message e) with
        | (tc, Ok _) =>
            ((ProfileIncrement ObjectStorageQueueInsertIterations 1
              :: ExecutePipeline n :: tc ++ [ReleaseFinishedBuckets])%list, Throw e)
        | (tc, Throw e') =>
            ((ProfileIncrement ObjectStorageQueueInsertIterations 1
              :: ExecutePipeline n :: tc)%list, Throw e')
        end
    | None =>
        match commit st (zookeeper it) true (rows it) (create_sources it n) "" with
        | (tc, Ok _) =>
            let '(tr, r) := streamToViews_loop st message n rest
                              (wrap64 (total_rows + rows it)) in
            ((ProfileIncrement ObjectStorageQueueInsertIterations 1
              :: ExecutePipeline n :: tc ++ ReleaseFinishedBuckets :: tr)%list, r)
        | (tc, Throw e') =>
            ((ProfileIncrement ObjectStorageQueueInsertIterations 1
              :: ExecutePipeline n :: tc)%list, Throw e')
        end
    end.
Proof.
  cbn [streamToViews_loop]. unfold bind, emit.
  destruct (executor_exception it) as [e|].
  - destruct (commit st (zookeeper it) false (rows it) (create_sources it n) (message e))
      as [tc [[]|e']]; cbn; rewrite ?app_nil_r; reflexivity.
  - destruct (commit st (zookeeper it) true (rows it) (create_sources it n) "")
      as [tc [[]|e']]; cbn; [|reflexivity].
    destruct (streamToViews_loop st message n rest (wrap64 (total_rows + rows it)))
      as [tr r]. reflexivity.
Qed.

Lemma iteration_succeeds_commit st n it :
  iteration_succeeds st n it = true ->
  executor_exception it = None
  /\ exists tc, commit st (zookeeper it) true (rows it) (create_sources it n) ""
                = (tc, Ok tt).
Proof.
  unfold iteration_succeeds. destruct (executor_exception it); [discriminate|].
  destruct (commit st (zookeeper it) true (rows it) (create_sources it n) "")
    as [tc [[]|e]]; [|discriminate].
  intros _. split; [reflexivity | exists tc; reflexivity].
Qed.

Lemma loop_events_of_commit t :
  forallb is_commit_event t = true -> forallb is_loop_event t = true.
Proof. apply forallb_implies. exact commit_event_is_loop_event. Qed.

Lemma streamToViews_loop_all_succeed st message n its total_rows :
  forallb (iteration_succeeds st n) its = true ->
  exists t,
    streamToViews_loop st message n its total_rows
    = (t, Ok (total_rows_after its total_rows))
    /\ count_events is_ExecutePipeline t = List.length its
    /\ count_events is_ReleaseFinishedBuckets t = List.length its
    /\ forallb is_loop_event t = true.
Proof.
  revert total_rows. induction its as [|it rest IH]; intros total_rows Hall.
  - exists []. repeat split.
  - cbn [forallb] in Hall. apply andb_true_iff in Hall. destruct Hall as [Hit Hrest].
    destruct (iteration_succeeds_commit _ _ _ Hit) as (Hexec & tc & Hcommit).
    destruct (IH (wrap64 (total_rows + rows it)) Hrest) as (tr & Hloop & Hpipe & Hrel & Hev).
    rewrite streamToViews_loop_step, Hexec, Hcommit, Hloop.
    eexists. split; [reflexivity|].
    pose proof (commit_counts st (zookeeper it) true (rows it) (create_sources it n) "")
      as [Hc1 Hc2].
    pose proof (commit_events st (zookeeper it) true (rows it) (create_sources it n) "")
      as Hce.
    rewrite Hcommit in Hc1, Hc2, Hce. cbn [trace_of fst] in Hc1, Hc2, Hce.
    change (?a :: ?b :: tc ++ ?c :: tr)%list with ([a; b] ++ tc ++ [c] ++ tr)%list.
    rewrite !count_events_app, Hc1, Hc2, Hpipe, Hrel.
    split; [reflexivity|]. split; [reflexivity|].
    rewrite !forallb_app, (loop_events_of_commit _ Hce), Hev. reflexivity.
Qed.

Lemma streamToViews_loop_prefix st message n pre rest total_rows :
  forallb (iteration_succeeds st n) pre = true ->
  streamToViews_loop st message n (pre ++ rest) total_rows
  = (fst (streamToViews_loop st message n pre total_rows)
     ++ fst (streamToViews_loop st message n rest (total_rows_after pre total_rows)),
     snd (streamToViews_loop st message n rest (total_rows_after pre total_rows)))%list.
Proof.
  revert total_rows. induction pre as [|it pre IH]; intros total_rows Hall.
  - cbn. destruct (streamToViews_loop st message n rest total_rows). reflexivity.
  - cbn [forallb] in Hall. apply andb_true_iff in Hall. destruct Hall as [Hit Hpre].
    destruct (iteration_succeeds_commit _ _ _ Hit) as (Hexec & tc & Hcommit).
    change ((it :: pre) ++ rest)%list with (it :: pre ++ rest)%list.
    rewrite !streamToViews_loop_step, Hexec, Hcommit, (IH _ Hpre).
    cbn [total_rows_after fold_left].
    fold (total_rows_after pre (wrap64 (total_rows + rows it))).
    destruct (streamToViews_loop st message n pre (wrap64 (total_rows + rows it)))
      as [tp rp].
    cbn [fst snd app]. rewrite <- app_assoc. reflexivity.
Qed.

(** X12. When the engine table is not in the catalog any more,
    [streamToViews] throws LOGICAL_ERROR before it creates a file
    iterator; the tick has registered the replica, logs the exception,
    keeps the interval and reschedules. *)
Theorem tick_without_engine_table st w :
  shutdown_called_on_entry w = false ->
  getDependencies (dependent_views w) <> 0 ->
  table_exists w = false ->
  streamToViews (set_mv_attached true st) w
  = ([], Throw (DBException LOGICAL_ERROR "Engine table {} doesn't exist."
                  [ArgString (table_id st)]))
  /\ fst (threadFunc st w)
     = (RegisterIfNot
        :: LogError (DBException LOGICAL_ERROR "Engine table {} doesn't exist."
                       [ArgString (table_id st)])
        :: threadFunc_reschedule st w)
  /\ reschedule_processing_interval_ms (snd (threadFunc st w))
     = reschedule_processing_interval_ms st.
Proof.
  intros Hentry Hdeps Htable.
  assert (Hstream : streamToViews (set_mv_attached true st) w
                    = ([], Throw (DBException LOGICAL_ERROR
                                    "Engine table {} doesn't exist."
                                    [ArgString (table_id st)]))).
  { unfold streamToViews. rewrite Htable. reflexivity. }
  split; [exact Hstream|].
  rewrite (threadFunc_streaming st w Hentry Hdeps), Hstream.
  cbn [fst snd app]. split; [|reflexivity].
  unfold threadFunc_reschedule. reflexivity.
Qed.

Lemma tick_without_engine_table_witness :
  fst (threadFunc (a_queue_table UNORDERED KEEP [])
         (without_engine_table
            (world_of one_materialized_view
               [iteration_over ["data/a.csv"] 3 None accepting_coordinator])))
  = [RegisterIfNot;
     LogError (DBException LOGICAL_ERROR "Engine table {} doesn't exist."
                 [ArgString "db.queue"]);
     ScheduleAfter 1000].
Proof.
  exact (proj1 (proj2 (tick_without_engine_table
           (a_queue_table UNORDERED KEEP [])
           (without_engine_table
              (world_of one_materialized_view
                 [iteration_over ["data/a.csv"] 3 None accepting_coordinator]))
           eq_refl ltac:(discriminate) eq_refl))).
Defined.

(** X13. The first iteration that fails ends the loop, and the iterations
    after it are not run. When the executor throws, the files are
    committed with [insert_succeeded = false] and the message of the
    exception; if that commit goes through, the finished buckets are
    released and the exception of the executor is thrown again; if it
    throws, its exception is the one that leaves and the buckets are not
    released. When the executor returns and the commit throws, the
    exception of the commit leaves and the buckets are not released. *)
Theorem first_failing_iteration_ends_the_loop st message n pre it rest total_rows :
  forallb (iteration_succeeds st n) pre = true ->
  (forall e,
      executor_exception it = Some e ->
      result_of (streamToViews_loop st message n (pre ++ it :: rest) total_rows)
      = match result_of (commit st (zookeeper it) false (rows it)
                           (create_sources it n) (message e)) with
        | Ok _ => Throw e
        | Throw e' => Throw e'
        end
      /\ trace_of (streamToViews_loop st message n (pre ++ it :: rest) total_rows)
         = (trace_of (streamToViews_loop st message n pre total_rows)
            ++ ProfileIncrement ObjectStorageQueueInsertIterations 1
            :: ExecutePipeline n
            :: trace_of (commit st (zookeeper it) false (rows it)
                           (create_sources it n) (message e))
            ++ (if is_ok (result_of (commit st (zookeeper it) false (rows it)
                                       (create_sources it n) (message e)))
                then [ReleaseFinishedBuckets] else []))%list)
  /\ (forall e',
         executor_exception it = None ->
         result_of (commit st (zookeeper it) true (rows it) (create_sources it n) "")
         = Throw e' ->
         result_of (streamToViews_loop st message n (pre ++ it :: rest) total_rows)
         = Throw e'
         /\ trace_of (streamToViews_loop st message n (pre ++ it :: rest) total_rows)
            = (trace_of (streamToViews_loop st message n pre total_rows)
               ++ ProfileIncrement ObjectStorageQueueInsertIterations 1
               :: ExecutePipeline n
               :: trace_of (commit st (zookeeper it) true (rows it)
                              (create_sources it n) ""))%list)
  /\ count_events is_ExecutePipeline
       (trace_of (streamToViews_loop st message n pre total_rows))
     = List.length pre.
Proof.
  intros Hpre. rewrite (streamToViews_loop_prefix _ _ _ _ _ _ Hpre).
  rewrite streamToViews_loop_step. unfold trace_of, result_of. cbn [fst snd].
  split; [|split].
  - intros e Hexec. rewrite Hexec.
    destruct (commit st (zookeeper it) false (rows it) (create_sources it n) (message e))
      as [tc [[]|e']]; cbn [fst snd is_ok]; rewrite ?app_nil_r; split; reflexivity.
  - intros e' Hexec Hcommit. rewrite Hexec.
    destruct (commit st (zookeeper it) true (rows it) (create_sources it n) "")
      as [tc [[]|e'']]; cbn [fst snd] in *; [discriminate|].
    injection Hcommit as ->. split; reflexivity.
  - destruct (streamToViews_loop_all_succeed st message n pre total_rows Hpre)
      as (t & -> & Hpipe & _). exact Hpipe.
Qed.

Lemma first_failing_iteration_ends_the_loop_witness :
  streamToViews_loop (a_queue_table UNORDERED KEEP []) what 2
    [iteration_over ["data/a.csv"] 3 None accepting_coordinator;
     iteration_over ["data/b.csv"] 1 (Some (CollaboratorException "Cannot parse"))
       accepting_coordinator;
     iteration_over ["data/c.csv"] 5 None accepting_coordinator] 0
  = ([ProfileIncrement ObjectStorageQueueInsertIterations 1;
      ExecutePipeline 2;
      ProfileIncrement ObjectStorageQueueProcessedRows 3;
      ProfileIncrement ObjectStorageQueueCommitRequests 2;
      TryMulti [CreateRequest "/processed/data/a.csv" "";
                RemoveRequest "/processing/data/a.csv"];
      ProfileIncrement ObjectStorageQueueSuccessfulCommits 1;
      FinalizeCommit 0 true "";
      FinalizeCommit 1 true "";
      ReleaseFinishedBuckets;
      ProfileIncrement ObjectStorageQueueInsertIterations 1;
      ExecutePipeline 2;
      ProfileIncrement ObjectStorageQueueProcessedRows 1;
      ProfileIncrement ObjectStorageQueueCommitRequests 2;
      TryMulti [SetRequest "/failed/data/b.csv" "Cannot parse";
                RemoveRequest "/processing/data/b.csv"];
      ProfileIncrement ObjectStorageQueueSuccessfulCommits 1;
      FinalizeCommit 0 false "Cannot parse";
      FinalizeCommit 1 false "Cannot parse";
      ReleaseFinishedBuckets],
     Throw (CollaboratorException "Cannot parse"))
  /\ result_of
       (streamToViews_loop (a_queue_table UNORDERED KEEP []) what 2
          [iteration_over ["data/a.csv"] 3 None rejecting_coordinator;
           iteration_over ["data/c.csv"] 5 None accepting_coordinator] 0)
     = Throw (KeeperMultiException ZBADVERSION
                [CreateRequest "/processed/data/a.csv" "";
                 RemoveRequest "/processing/data/a.csv"]
                [ZBADVERSION; ZBADVERSION]).
Proof.
  split.
  - destruct (proj1 (first_failing_iteration_ends_the_loop
                (a_queue_table UNORDERED KEEP []) what 2
                [iteration_over ["data/a.csv"] 3 None accepting_coordinator]
                (iteration_over ["data/b.csv"] 1
                   (Some (CollaboratorException "Cannot parse")) accepting_coordinator)
                [iteration_over ["data/c.csv"] 5 None accepting_coordinator] 0 eq_refl)
                (CollaboratorException "Cannot parse") eq_refl) as [Hres Htrace].
    cbn [app] in Hres, Htrace.
    rewrite (surjective_pairing (streamToViews_loop _ _ _ _ _)).
    unfold trace_of, result_of in Hres, Htrace. rewrite Hres, Htrace. reflexivity.
  - exact (proj1 (proj1 (proj2 (first_failing_iteration_ends_the_loop
             (a_queue_table UNORDERED KEEP []) what 2 []
             (iteration_over ["data/a.csv"] 3 None rejecting_coordinator)
             [iteration_over ["data/c.csv"] 5 None accepting_coordinator] 0 eq_refl))
             _ eq_refl eq_refl)).
Defined.

Lemma rows_read_nonneg its :
  (forall it, In it its -> 0 <= rows it) -> 0 <= rows_read its.
Proof.
  induction its as [|it rest IH]; intros H; cbn; [lia|].
  specialize (H it (or_introl eq_refl)) as Hit.
  assert (0 <= rows_read rest) by (apply IH; intros x Hx; apply H; now right).
  unfold rows_read in *. lia.
Qed.

Lemma total_rows_after_exact its total_rows :
  (forall it, In it its -> 0 <= rows it) ->
  0 <= total_rows ->
  total_rows + rows_read its < two64 ->
  total_rows_after its total_rows = total_rows + rows_read its.
Proof.
  revert total_rows. induction its as [|it rest IH]; intros total_rows Hrows Htotal Hsum.
  - cbn. lia.
  - cbn [total_rows_after fold_left]. fold (total_rows_after rest (wrap64 (total_rows + rows it))).
    pose proof (Hrows it (or_introl eq_refl)) as Hit.
    assert (Hrest : 0 <= rows_read rest)
      by (apply rows_read_nonneg; intros x Hx; apply Hrows; now right).
    change (rows_read (it :: rest)) with (rows it + rows_read rest) in *.
    rewrite wrap64_small by lia.
    rewrite IH; [lia | intros x Hx; apply Hrows; now right | lia | lia].
Qed.

Lemma rows_read_positive its :
  (forall it, In it its -> 0 <= rows it) ->
  (0 < rows_read its <-> exists it, In it its /\ 0 < rows it).
Proof.
  induction its as [|it rest IH]; intros Hrows.
  - cbn. split; [lia | intros (it & [] & _)].
  - change (rows_read (it :: rest)) with (rows it + rows_read rest).
    pose proof (Hrows it (or_introl eq_refl)) as Hit.
    assert (Hrest : forall x, In x rest -> 0 <= rows x)
      by (intros x Hx; apply Hrows; now right).
    pose proof (rows_read_nonneg rest Hrest) as Hnn.
    specialize (IH Hrest). split.
    + intros Hpos. destruct (Z.eq_dec (rows it) 0) as [Hz|Hz].
      * destruct (proj1 IH ltac:(lia)) as (x & Hx & Hxpos).
        exists x. split; [now right | exact Hxpos].
      * exists it. split; [now left | lia].
    + intros (x & [<-|Hx] & Hxpos); [lia|].
      assert (0 < rows_read rest) by (apply IH; eauto). lia.
Qed.

Lemma iteration_events_of_commit t :
  forallb is_commit_event t = true -> forallb is_iteration_event t = true.
Proof. apply forallb_implies. intros []; cbn; congruence. Qed.

Lemma streamToViews_loop_iteration_events st message n its total_rows :
  forallb is_iteration_event
          (trace_of (streamToViews_loop st message n its total_rows)) = true.
Proof.
  revert total_rows. induction its as [|it rest IH]; intros total_rows; [reflexivity|].
  rewrite streamToViews_loop_step.
  destruct (executor_exception it) as [e|].
  - pose proof (commit_events st (zookeeper it) false (rows it) (create_sources it n)
                  (message e)) as Hce.
    destruct (commit st (zookeeper it) false (rows it) (create_sources it n) (message e))
      as [tc [[]|e']];
      cbn [trace_of fst forallb is_iteration_event is_commit_event andb] in *;
      rewrite ?forallb_app, (iteration_events_of_commit _ Hce); reflexivity.
  - pose proof (commit_events st (zookeeper it) true (rows it) (create_sources it n) "")
      as Hce.
    destruct (commit st (zookeeper it) true (rows it) (create_sources it n) "")
      as [tc [[]|e']]; cbn [trace_of fst] in Hce.
    + specialize (IH (wrap64 (total_rows + rows it))).
      destruct (streamToViews_loop st message n rest (wrap64 (total_rows + rows it)))
        as [tr r].
      cbn [trace_of fst forallb is_iteration_event is_commit_event andb] in *.
      rewrite forallb_app, (iteration_events_of_commit _ Hce).
      cbn [forallb is_iteration_event is_commit_event andb]. exact IH.
    + cbn [trace_of fst forallb is_iteration_event is_commit_event andb].
      exact (iteration_events_of_commit _ Hce).
Qed.

Lemma iteration_events_create_no_iterator t :
  forallb is_iteration_event t = true ->
  count_events is_CreateFileIterator t = 0%nat.
Proof.
  intros H. unfold count_events.
  rewrite (forallb_count_zero is_iteration_event is_CreateFileIterator t); [reflexivity| |exact H].
  intros [] Hx; cbn in *; congruence.
Qed.

(** X14. When every iteration succeeds, [streamToViews] creates the file
    iterator once, before the first iteration and never in the loop, runs
    the pipeline and releases the finished buckets once per iteration, and
    returns whether [total_rows] is positive. With row counts that are not
    negative and a sum below 2^64, [total_rows] is the sum of the rows of
    the iterations, and the result is true exactly when some iteration has
    read a row. *)
Theorem streamToViews_when_all_succeed st w :
  table_exists w = true ->
  forallb (iteration_succeeds st (processing_threads_num (getTableMetadata st)))
          (iterations w) = true ->
  (exists t,
      streamToViews st w
      = (CreateFileIterator :: t, Ok (total_rows_after (iterations w) 0 >? 0))
      /\ count_events is_CreateFileIterator t = 0%nat
      /\ count_events is_ExecutePipeline t = List.length (iterations w)
      /\ count_events is_ReleaseFinishedBuckets t = List.length (iterations w)
      /\ forallb is_loop_event t = true)
  /\ count_events is_CreateFileIterator (trace_of (streamToViews st w)) = 1%nat
  /\ ((forall it, In it (iterations w) -> 0 <= rows it) ->
      rows_read (iterations w) < two64 ->
      total_rows_after (iterations w) 0 = rows_read (iterations w)
      /\ (result_of (streamToViews st w) = Ok true
          <-> exists it, In it (iterations w) /\ 0 < rows it)).
Proof.
  intros Htable Hall.
  destruct (streamToViews_loop_all_succeed st (getCurrentExceptionMessage w)
              (processing_threads_num (getTableMetadata st)) (iterations w) 0 Hall)
    as (t & Hloop & Hpipe & Hrel & Hev).
  assert (Hstream : streamToViews st w
                    = (CreateFileIterator :: t,
                       Ok (total_rows_after (iterations w) 0 >? 0))).
  { unfold streamToViews. rewrite Htable. cbn [negb]. unfold bind, emit.
    rewrite Hloop. cbn. rewrite app_nil_r. reflexivity. }
  assert (Hnone : count_events is_CreateFileIterator t = 0%nat).
  { apply iteration_events_create_no_iterator.
    pose proof (streamToViews_loop_iteration_events st (getCurrentExceptionMessage w)
                  (processing_threads_num (getTableMetadata st)) (iterations w) 0) as H.
    rewrite Hloop in H. exact H. }
  split; [|split].
  - exists t. repeat split; assumption.
  - rewrite Hstream. cbn [trace_of fst].
    change (CreateFileIterator :: t) with ([CreateFileIterator] ++ t)%list.
    rewrite count_events_app, Hnone. reflexivity.
  - intros Hrows Hsum.
    assert (Hexact : total_rows_after (iterations w) 0 = rows_read (iterations w))
      by (rewrite total_rows_after_exact; [lia | exact Hrows | lia | lia]).
    split; [exact Hexact|].
    rewrite Hstream, Hexact. cbn [result_of snd].
    rewrite <- (rows_read_positive _ Hrows). split.
    + intros H. injection H as H. apply Z.gtb_lt in H. exact H.
    + intros H. apply Z.gtb_lt in H. rewrite H. reflexivity.
Qed.

Lemma streamToViews_when_all_succeed_witness :
  total_rows_after
    [iteration_over ["data/a.csv"] 0 None accepting_coordinator;
     iteration_over ["data/b.csv"] 4 None accepting_coordinator] 0 = 4
  /\ result_of (streamToViews (a_queue_table UNORDERED KEEP [])
                  (world_of one_materialized_view
                     [iteration_over ["data/a.csv"] 0 None accepting_coordinator;
                      iteration_over ["data/b.csv"] 4 None accepting_coordinator]))
     = Ok true.
Proof.
  destruct (proj2 (proj2 (streamToViews_when_all_succeed
              (a_queue_table UNORDERED KEEP [])
              (world_of one_materialized_view
                 [iteration_over ["data/a.csv"] 0 None accepting_coordinator;
                  iteration_over ["data/b.csv"] 4 None accepting_coordinator])
              eq_refl eq_refl))) as [Htotal Htrue].
  - intros it [<-|[<-|[]]]; cbn; lia.
  - reflexivity.
  - split; [exact Htotal|]. apply Htrue.
    exists (iteration_over ["data/b.csv"] 4 None accepting_coordinator).
    split; [right; left; reflexivity | cbn; lia].
Defined.

(* ------------------------------------------------------------------ *)
(** ** threadFunc: what a tick leaves *)

Lemma streamToViews_loop_events st message n its total_rows :
  forallb is_loop_event
          (trace_of (streamToViews_loop st message n its total_rows)) = true.
Proof.
  revert total_rows. induction its as [|it rest IH]; intros total_rows; [reflexivity|].
  rewrite streamToViews_loop_step.
  destruct (executor_exception it) as [e|].
  - pose proof (commit_events st (zookeeper it) false (rows it) (create_sources it n)
                  (message e)) as Hce.
    destruct (commit st (zookeeper it) false (rows it) (create_sources it n) (message e))
      as [tc [[]|e']]; cbn [trace_of fst forallb is_loop_event is_commit_event andb] in *;
      rewrite ?forallb_app, (loop_events_of_commit _ Hce); reflexivity.
  - pose proof (commit_events st (zookeeper it) true (rows it) (create_sources it n) "")
      as Hce.
    destruct (commit st (zookeeper it) true (rows it) (create_sources it n) "")
      as [tc [[]|e']]; cbn [trace_of fst] in Hce.
    + specialize (IH (wrap64 (total_rows + rows it))).
      destruct (streamToViews_loop st message n rest (wrap64 (total_rows + rows it)))
        as [tr r].
      cbn [trace_of fst forallb is_loop_event is_commit_event andb] in *.
      rewrite forallb_app, (loop_events_of_commit _ Hce).
      cbn [forallb is_loop_event is_commit_event andb]. exact IH.
    + cbn [trace_of fst forallb is_loop_event is_commit_event andb].
      exact (loop_events_of_commit _ Hce).
Qed.

Lemma streamToViews_events st w :
  forallb is_loop_event (trace_of (streamToViews st w)) = true.
Proof.
  unfold streamToViews. destruct (table_exists w); cbn [negb]; [|reflexivity].
  unfold bind, emit, ret.
  pose proof (streamToViews_loop_events st (getCurrentExceptionMessage w)
                (processing_threads_num (getTableMetadata st)) (iterations w) 0) as H.
  destruct (streamToViews_loop st (getCurrentExceptionMessage w)
              (processing_threads_num (getTableMetadata st)) (iterations w) 0)
    as [t [total|e]]; cbn [trace_of fst app forallb is_loop_event andb] in *;
    rewrite ?app_nil_r; exact H.
Qed.

Lemma loop_event_not_scheduling ev :
  is_loop_event ev = true -> not_scheduling ev = true.
Proof. destruct ev; cbn; intros H; try discriminate H; reflexivity. Qed.

Lemma threadFunc_try_events st w :
  forallb not_scheduling (fst (threadFunc_try st w)) = true.
Proof.
  unfold threadFunc_try.
  destruct (negb (getDependencies (dependent_views w) =? 0)); [|reflexivity].
  unfold bind, emit.
  pose proof (streamToViews_events (set_mv_attached true st) w) as H.
  apply (forallb_implies _ _ _ loop_event_not_scheduling) in H.
  destruct (streamToViews (set_mv_attached true st) w) as [t [[|]|e]];
    cbn [trace_of fst app forallb not_scheduling is_ScheduleAfter is_Unregister
         orb negb andb] in *;
    rewrite ?forallb_app, ?H; reflexivity.
Qed.

Lemma threadFunc_try_storage st w :
  snd (threadFunc_try st w) = st
  \/ (exists ms,
         snd (threadFunc_try st w)
         = set_mv_attached false
             (set_reschedule_processing_interval_ms ms (set_mv_attached true st))
         /\ (ms = polling_min_timeout_ms st
             \/ ms = Z.min (polling_max_timeout_ms st)
                       (wrap64 (reschedule_processing_interval_ms st
                                + polling_backoff_ms st))
             \/ ms = reschedule_processing_interval_ms st)).
Proof.
  unfold threadFunc_try.
  destruct (negb (getDependencies (dependent_views w) =? 0)); [|left; reflexivity].
  right. unfold bind, emit.
  destruct (streamToViews (set_mv_attached true st) w) as [t [[|]|e]]; cbn [snd].
  - exists (polling_min_timeout_ms st). split; [reflexivity | auto].
  - eexists. split; [reflexivity | right; left; reflexivity].
  - exists (reschedule_processing_interval_ms st). split; [|auto].
    destruct st; reflexivity.
Qed.

Lemma threadFunc_parts st w :
  shutdown_called_on_entry w = false ->
  threadFunc st w
  = ((fst (threadFunc_try st w)
      ++ threadFunc_reschedule (snd (threadFunc_try st w)) w)%list,
     snd (threadFunc_try st w)).
Proof.
  intros H. unfold threadFunc. rewrite H.
  destruct (threadFunc_try st w). reflexivity.
Qed.

Lemma tick_storage st w :
  (exists ms b,
      snd (threadFunc st w)
      = set_mv_attached b (set_reschedule_processing_interval_ms ms st)
      /\ (ms = reschedule_processing_interval_ms st
          \/ ms = polling_min_timeout_ms st
          \/ ms = Z.min (polling_max_timeout_ms st)
                    (wrap64 (reschedule_processing_interval_ms st
                             + polling_backoff_ms st))))
  /\ (mv_attached st = false -> mv_attached (snd (threadFunc st w)) = false)
  /\ getSettings (snd (threadFunc st w)) = getSettings st.
Proof.
  assert (Hsame : snd (threadFunc st w) = snd (threadFunc_try st w)
                  \/ snd (threadFunc st w) = st).
  { unfold threadFunc. destruct (shutdown_called_on_entry w); [right; reflexivity|].
    left. destruct (threadFunc_try st w). reflexivity. }
  assert (Hid : st = set_mv_attached (mv_attached st)
                       (set_reschedule_processing_interval_ms
                          (reschedule_processing_interval_ms st) st))
    by (destruct st; reflexivity).
  destruct (threadFunc_try_storage st w) as [Htry|(ms & Htry & Hms)].
  - assert (Heq : snd (threadFunc st w) = st) by (destruct Hsame; congruence).
    rewrite Heq. split; [|split; [auto | reflexivity]].
    exists (reschedule_processing_interval_ms st), (mv_attached st).
    split; [exact Hid | auto].
  - destruct Hsame as [Heq|Heq]; rewrite Heq.
    + rewrite Htry. split; [|split; [reflexivity | destruct st; reflexivity]].
      exists ms, false. split; [destruct st; reflexivity | intuition].
    + split; [|split; [auto | reflexivity]].
      exists (reschedule_processing_interval_ms st), (mv_attached st).
      split; [exact Hid | auto].
Qed.

(** X15. A tick changes no member of the storage but the reschedule
    interval and [mv_attached]; the new interval is the old one,
    [polling_min_timeout_ms], or the capped sum; and [mv_attached], false
    before the tick, is false again after it, also when the streaming ended
    with an exception. *)
Theorem tick_changes_interval_only st w :
  (exists ms b,
      snd (threadFunc st w)
      = set_mv_attached b (set_reschedule_processing_interval_ms ms st)
      /\ (ms = reschedule_processing_interval_ms st
          \/ ms = polling_min_timeout_ms st
          \/ ms = Z.min (polling_max_timeout_ms st)
                    (wrap64 (reschedule_processing_interval_ms st
                             + polling_backoff_ms st))))
  /\ (mv_attached st = false -> mv_attached (snd (threadFunc st w)) = false)
  /\ getSettings (snd (threadFunc st w)) = getSettings st.
Proof. exact (tick_storage st w). Qed.

Lemma tick_changes_interval_only_witness :
  mv_attached
    (snd (threadFunc (a_queue_table UNORDERED DELETE [])
            (world_of one_materialized_view
               [iteration_over ["data/a.csv"] 3 None failing_coordinator]))) = false.
Proof.
  apply (proj1 (proj2 (tick_changes_interval_only
           (a_queue_table UNORDERED DELETE [])
           (world_of one_materialized_view
              [iteration_over ["data/a.csv"] 3 None failing_coordinator])))).
  reflexivity.
Defined.

Lemma tick_keeps_polling st w :
  polling_min_timeout_ms (snd (threadFunc st w)) = polling_min_timeout_ms st
  /\ polling_max_timeout_ms (snd (threadFunc st w)) = polling_max_timeout_ms st
  /\ polling_backoff_ms (snd (threadFunc st w)) = polling_backoff_ms st.
Proof.
  destruct (tick_storage st w) as ((ms & b & -> & _) & _).
  repeat split.
Qed.

Lemma tick_interval_bounded st w :
  polling_min_timeout_ms st <= polling_max_timeout_ms st ->
  reschedule_processing_interval_ms st <= polling_max_timeout_ms st ->
  reschedule_processing_interval_ms (snd (threadFunc st w))
  <= polling_max_timeout_ms st.
Proof.
  intros Hmin Hint.
  destruct (tick_storage st w) as ((ms & b & -> & Hms) & _).
  cbn. destruct Hms as [->|[->| ->]]; [lia | lia | apply Z.le_min_l].
Qed.

(** X16. When [polling_min_timeout_ms] is not above
    [polling_max_timeout_ms] and the interval starts at or below the
    maximum, it stays there over any number of ticks, whatever happens in
    them; the three polling settings are not touched by the ticks, and
    every delay handed to the scheduler is at most the maximum. *)
Theorem interval_stays_below_maximum st worlds :
  polling_min_timeout_ms st <= polling_max_timeout_ms st ->
  reschedule_processing_interval_ms st <= polling_max_timeout_ms st ->
  reschedule_processing_interval_ms (run_ticks st worlds) <= polling_max_timeout_ms st
  /\ polling_min_timeout_ms (run_ticks st worlds) = polling_min_timeout_ms st
  /\ polling_max_timeout_ms (run_ticks st worlds) = polling_max_timeout_ms st
  /\ polling_backoff_ms (run_ticks st worlds) = polling_backoff_ms st
  /\ (forall w ms, In (ScheduleAfter ms) (fst (threadFunc st w)) ->
                   ms <= polling_max_timeout_ms st).
Proof.
  intros Hmin Hint.
  assert (Hticks : forall ws s,
             polling_min_timeout_ms s <= polling_max_timeout_ms s ->
             reschedule_processing_interval_ms s <= polling_max_timeout_ms s ->
             reschedule_processing_interval_ms (run_ticks s ws)
             <= polling_max_timeout_ms s
             /\ polling_min_timeout_ms (run_ticks s ws) = polling_min_timeout_ms s
             /\ polling_max_timeout_ms (run_ticks s ws) = polling_max_timeout_ms s
             /\ polling_backoff_ms (run_ticks s ws) = polling_backoff_ms s).
  { induction ws as [|w ws IH]; intros s Hm Hi; [cbn; repeat split; lia|].
    cbn [run_ticks fold_left]. fold (run_ticks (snd (threadFunc s w)) ws).
    destruct (tick_keeps_polling s w) as (Hpmin & Hpmax & Hback).
    pose proof (tick_interval_bounded s w Hm Hi) as Hb.
    destruct (IH (snd (threadFunc s w))) as (H1 & H2 & H3 & H4); [lia | lia|].
    repeat split; congruence. }
  destruct (Hticks worlds st Hmin Hint) as (H1 & H2 & H3 & H4).
  repeat split; try assumption.
  intros w ms Hin.
  pose proof (tick_interval_bounded st w Hmin Hint) as Hb.
  unfold threadFunc in *.
  destruct (shutdown_called_on_entry w); [destruct Hin|].
  pose proof (threadFunc_try_events st w) as Hev.
  destruct (threadFunc_try st w) as [t st']. cbn [fst snd] in *.
  apply in_app_or in Hin. destruct Hin as [Hin|Hin].
  - rewrite forallb_forall in Hev. specialize (Hev _ Hin). discriminate.
  - unfold threadFunc_reschedule in Hin.
    destruct (shutdown_called_on_exit w); cbn [negb] in Hin; [destruct Hin|].
    destruct Hin as [Heq|Hin]; [injection Heq as <-; exact Hb|].
    destruct (reschedule_processing_interval_ms st' >? 5000); [|destruct Hin].
    destruct Hin as [Heq|Hin]; [discriminate|].
    destruct (unregister_exception w); [destruct Hin as [Heq|[]]; discriminate | destruct Hin].
Qed.

Lemma interval_stays_below_maximum_witness :
  reschedule_processing_interval_ms
    (run_ticks (a_queue_table UNORDERED KEEP [])
       [world_of one_materialized_view [];
        world_of [] [];
        world_of one_materialized_view
          [iteration_over ["data/a.csv"] 3 None rejecting_coordinator];
        world_of one_materialized_view []])
  <= 10000.
Proof.
  apply (interval_stays_below_maximum (a_queue_table UNORDERED KEEP [])); cbn; lia.
Defined.

(** X17. A tick that is not cut short by shutdown hands exactly one delay
    to the scheduler, the interval it leaves in the storage, and it does
    so after everything else but the unregistration. The replica is
    unregistered exactly when that interval is above 5000 ms; an exception
    of the unregistration is logged as the last event of the tick. *)
Theorem tick_reschedules_once st w :
  shutdown_called_on_entry w = false ->
  shutdown_called_on_exit w = false ->
  count_events is_ScheduleAfter (fst (threadFunc st w)) = 1%nat
  /\ (exists body,
         forallb not_scheduling body = true
         /\ fst (threadFunc st w)
            = (body
               ++ ScheduleAfter (reschedule_processing_interval_ms (snd (threadFunc st w)))
               :: (if reschedule_processing_interval_ms (snd (threadFunc st w)) >? 5000
                   then Unregister
                        :: match unregister_exception w with
                           | Some e => [LogError e]
                           | None => []
                           end
                   else []))%list)
  /\ (count_events is_Unregister (fst (threadFunc st w))
      = if reschedule_processing_interval_ms (snd (threadFunc st w)) >? 5000
        then 1%nat else 0%nat).
Proof.
  intros Hentry Hexit. rewrite (threadFunc_parts st w Hentry). cbn [fst snd].
  pose proof (threadFunc_try_events st w) as Hev.
  assert (Hsched : filter is_ScheduleAfter (fst (threadFunc_try st w)) = []).
  { apply (forallb_count_zero not_scheduling); [|exact Hev].
    intros [] H; cbn in *; congruence. }
  assert (Hunreg : filter is_Unregister (fst (threadFunc_try st w)) = []).
  { apply (forallb_count_zero not_scheduling); [|exact Hev].
    intros [] H; cbn in *; congruence. }
  unfold threadFunc_reschedule. rewrite Hexit. cbn [negb].
  unfold count_events. rewrite !filter_app, Hsched, Hunreg. cbn [app].
  split; [|split].
  - destruct (reschedule_processing_interval_ms (snd (threadFunc_try st w)) >? 5000);
      [destruct (unregister_exception w)|]; reflexivity.
  - exists (fst (threadFunc_try st w)). split; [exact Hev | reflexivity].
  - destruct (reschedule_processing_interval_ms (snd (threadFunc_try st w)) >? 5000);
      [destruct (unregister_exception w)|]; reflexivity.
Qed.

Lemma tick_reschedules_once_witness :
  count_events is_ScheduleAfter
    (fst (threadFunc
            (set_reschedule_processing_interval_ms 4500 (a_queue_table UNORDERED KEEP []))
            (with_failing_unregister (CollaboratorException "Session expired")
               (world_of one_materialized_view [])))) = 1%nat
  /\ fst (threadFunc
            (set_reschedule_processing_interval_ms 4500 (a_queue_table UNORDERED KEEP []))
            (with_failing_unregister (CollaboratorException "Session expired")
               (world_of one_materialized_view [])))
     = [RegisterIfNot; CreateFileIterator; ScheduleAfter 5500; Unregister;
        LogError (CollaboratorException "Session expired")].
Proof.
  destruct (tick_reschedules_once
              (set_reschedule_processing_interval_ms 4500 (a_queue_table UNORDERED KEEP []))
              (with_failing_unregister (CollaboratorException "Session expired")
                 (world_of one_materialized_view []))
              eq_refl eq_refl) as (Hcount & _ & _).
  split; [exact Hcount | reflexivity].
Defined.

(* ------------------------------------------------------------------ *)
(** ** ALTER: normalization *)

Lemma substring_all s : String.substring 0 (String.length s) s = s.
Proof. induction s as [|c s IH]; simpl; [reflexivity | rewrite IH; reflexivity]. Qed.

Lemma prefix_empty s : String.prefix "" s = true.
Proof. destruct s; reflexivity. Qed.

Lemma starts_with_prefixed n : starts_with ("s3queue_" ++ n) "s3queue_" = true.
Proof. unfold starts_with. simpl. apply prefix_empty. Qed.

Lemma normalizeSetting_prefixed n : normalizeSetting ("s3queue_" ++ n) = n.
Proof.
  unfold normalizeSetting. rewrite starts_with_prefixed.
  unfold substr. simpl. rewrite Nat.sub_0_r. apply substring_all.
Qed.

Lemma normalizeSetting_plain n :
  starts_with n "s3queue_" = false -> normalizeSetting n = n.
Proof. unfold normalizeSetting. intros ->. reflexivity. Qed.

(** X18. [normalizeSetting] strips the prefix s3queue_ once and leaves a
    name without the prefix alone, so both spellings of a setting that may
    be changed are accepted by [isSettingChangeable]; a name that carries
    the prefix twice is still prefixed afterwards, and
    [checkNormalizedSetting] answers it with LOGICAL_ERROR. *)
Theorem normalizeSetting_strips_one_prefix :
  (forall n, normalizeSetting ("s3queue_" ++ n) = n)
  /\ (forall n, starts_with n "s3queue_" = false -> normalizeSetting n = n)
  /\ (forall n mode_,
         In n (changeable_settings mode_) ->
         isSettingChangeable (normalizeSetting n) mode_ = Ok true
         /\ isSettingChangeable (normalizeSetting ("s3queue_" ++ n)) mode_ = Ok true)
  /\ (forall n,
         checkNormalizedSetting (normalizeSetting ("s3queue_" ++ "s3queue_" ++ n))
         = Throw (DBException LOGICAL_ERROR "Setting is not normalized: {}"
                    [ArgString ("s3queue_" ++ n)])).
Proof.
  split; [exact normalizeSetting_prefixed|].
  split; [exact normalizeSetting_plain|]. split.
  - intros n mode_ Hin.
    pose proof (changeable_settings_normalized _ _ Hin) as Hnorm.
    assert (Hplain : normalizeSetting n = n).
    { apply normalizeSetting_plain. unfold is_normalized in Hnorm.
      apply negb_true_iff in Hnorm. exact Hnorm. }
    rewrite Hplain, normalizeSetting_prefixed.
    rewrite (isSettingChangeable_normalized _ _ Hnorm).
    apply contains_In in Hin. rewrite Hin. split; reflexivity.
  - intros n. rewrite normalizeSetting_prefixed.
    unfold checkNormalizedSetting. rewrite starts_with_prefixed. reflexivity.
Qed.

Lemma normalizeSetting_strips_one_prefix_witness :
  normalizeSetting "polling_backoff_ms" = "polling_backoff_ms"
  /\ isSettingChangeable (normalizeSetting "s3queue_buckets") ORDERED = Ok true.
Proof.
  split.
  - apply (proj1 (proj2 normalizeSetting_strips_one_prefix)). reflexivity.
  - apply (proj1 (proj2 (proj2 normalizeSetting_strips_one_prefix)) "buckets" ORDERED).
    simpl. auto 12.
Defined.

Lemma fold_set_insert names acc :
  ordered_set acc ->
  ordered_set (fold_left (fun s n => fst (set_insert (normalizeSetting n) s)) names acc)
  /\ (forall x,
         In x (fold_left (fun s n => fst (set_insert (normalizeSetting n) s)) names acc)
         <-> In x acc \/ In x (map normalizeSetting names)).
Proof.
  revert acc. induction names as [|n rest IH]; intros acc Hord.
  - cbn. split; [exact Hord | intuition].
  - cbn [fold_left map].
    destruct (IH _ (set_insert_ordered (normalizeSetting n) acc Hord)) as [Ho Hmem].
    split; [exact Ho|].
    intros x. rewrite Hmem, set_insert_In. cbn [In]. intuition.
Qed.

(** X19. [normalizeAlterCommands] keeps the commands, their types and the
    order and the values of their changes, and normalizes every name; the
    names to reset become a set of normalized names, in order and without
    repetition, so two spellings of one setting are reset once. *)
Theorem normalizeAlterCommands_normalizes commands :
  map type (normalizeAlterCommands commands) = map type commands
  /\ map (fun command => map value (settings_changes command))
         (normalizeAlterCommands commands)
     = map (fun command => map value (settings_changes command)) commands
  /\ map (fun command => map name (settings_changes command))
         (normalizeAlterCommands commands)
     = map (fun command => map normalizeSetting (map name (settings_changes command)))
           commands
  /\ (forall command,
         In command (normalizeAlterCommands commands) ->
         ordered_set (settings_resets command)
         /\ NoDup (settings_resets command))
  /\ (forall command,
         In command commands ->
         exists normalized,
           In normalized (normalizeAlterCommands commands)
           /\ forall x, In x (settings_resets normalized)
                        <-> In x (map normalizeSetting (settings_resets command))).
Proof.
  unfold normalizeAlterCommands. rewrite !map_map. cbn [type settings_changes].
  split; [reflexivity|]. split; [|split; [|split]].
  - apply map_ext. intros c. rewrite map_map. reflexivity.
  - apply map_ext. intros c. rewrite !map_map. reflexivity.
  - intros command Hin. apply in_map_iff in Hin. destruct Hin as (c & <- & _).
    cbn [settings_resets].
    destruct (fold_set_insert (settings_resets c) [] ordered_set_nil) as [Ho _].
    split; [exact Ho | exact (ordered_set_NoDup _ Ho)].
  - intros command Hin. eexists. split.
    + apply in_map_iff. exists command. split; [reflexivity | exact Hin].
    + cbn [settings_resets]. intros x.
      destruct (fold_set_insert (settings_resets command) [] ordered_set_nil) as [_ Hmem].
      rewrite Hmem. cbn [In]. intuition.
Qed.

Lemma normalizeAlterCommands_normalizes_witness :
  exists normalized,
    In normalized
       (normalizeAlterCommands [RESET ["s3queue_loading_retries"; "buckets";
                                       "loading_retries"]])
    /\ forall x, In x (settings_resets normalized)
                 <-> In x ["loading_retries"; "buckets"; "loading_retries"].
Proof.
  exact (proj2 (proj2 (proj2 (proj2 (normalizeAlterCommands_normalizes
           [RESET ["s3queue_loading_retries"; "buckets"; "loading_retries"]]))))
           (RESET ["s3queue_loading_retries"; "buckets"; "loading_retries"])
           (or_introl eq_refl)).
Defined.

Example reset_of_two_spellings :
  normalizeAlterCommands [RESET ["s3queue_loading_retries"; "buckets"; "loading_retries"]]
  = [RESET ["buckets"; "loading_retries"]].
Proof. reflexivity. Qed.

(* ------------------------------------------------------------------ *)
(** ** checkAlterIsPossible and alter *)

Lemma check_command_types_ok st commands :
  check_command_types st commands = Ok tt
  <-> forallb is_settings_command commands = true.
Proof.
  induction commands as [|c rest IH]; simpl; [intuition|].
  unfold is_settings_command at 1.
  destruct (type c); simpl; try exact IH.
  split; discriminate.
Qed.

(** X20. [checkAlterIsPossible] refuses every alter that holds a command
    other than MODIFY SETTING and RESET SETTING, with SUPPORT_IS_DISABLED
    naming the engine, before it looks at any setting. *)
Theorem checkAlterIsPossible_settings_only ext st views commands hasSettingsChanges :
  forallb is_settings_command commands = false ->
  checkAlterIsPossible ext st views commands hasSettingsChanges
  = Throw (DBException SUPPORT_IS_DISABLED
             "Only MODIFY/RESET SETTING alter is allowed for {}"
             [ArgString (getName st)]).
Proof.
  intros H. unfold checkAlterIsPossible.
  assert (Htypes : check_command_types st commands
                   = Throw (DBException SUPPORT_IS_DISABLED
                              "Only MODIFY/RESET SETTING alter is allowed for {}"
                              [ArgString (getName st)])).
  { induction commands as [|c rest IH]; [discriminate|].
    simpl in *. unfold is_settings_command in H at 1.
    destruct (type c); simpl in H; auto. }
  rewrite Htypes. reflexivity.
Qed.

Lemma checkAlterIsPossible_settings_only_witness :
  checkAlterIsPossible plain_collaborators (a_queue_table ORDERED KEEP []) []
    [MODIFY [a_setting "polling_min_timeout_ms" (FieldUInt64 1)];
     {| type := MODIFY_COLUMN; settings_changes := []; settings_resets := [] |}]
    true
  = Throw (DBException SUPPORT_IS_DISABLED
             "Only MODIFY/RESET SETTING alter is allowed for {}"
             [ArgString "S3Queue"]).
Proof.
  exact (checkAlterIsPossible_settings_only plain_collaborators
           (a_queue_table ORDERED KEEP []) []
           [MODIFY [a_setting "polling_min_timeout_ms" (FieldUInt64 1)];
            {| type := MODIFY_COLUMN; settings_changes := []; settings_resets := [] |}]
           true eq_refl).
Defined.

Lemma check_changed_setting_in_check_ok st views mode_ s :
  is_ok (check_changed_setting_in_check st views mode_ s)
  = is_ok (check_changed_setting st views mode_ s).
Proof.
  unfold check_changed_setting_in_check, check_changed_setting, rbind.
  destruct (isSettingChangeable (name s) mode_) as [[|]|]; cbn [negb]; try reflexivity.
  destruct (requiresDetachedMV (name s)) as [[|]|]; try reflexivity.
  destruct (negb (getDependencies views =? 0)); reflexivity.
Qed.

Lemma setting_changed_in_check_implies old s :
  setting_changed_in_check old s = true -> setting_changed old s = true.
Proof.
  unfold setting_changed_in_check, setting_changed.
  destruct old as [old|]; [|auto].
  destruct (find _ old); [auto | discriminate].
Qed.

Lemma checkAlterIsPossible_loop_ok st views mode_ old new_settings :
  (forall s, In s new_settings -> setting_changed old s = true ->
             check_changed_setting st views mode_ s = Ok tt) ->
  checkAlterIsPossible_loop st views mode_ old new_settings = Ok tt.
Proof.
  induction new_settings as [|s rest IH]; intros H; [reflexivity|].
  cbn [checkAlterIsPossible_loop].
  assert (Hrest : checkAlterIsPossible_loop st views mode_ old rest = Ok tt)
    by (apply IH; intros x Hx; apply H; now right).
  destruct (setting_changed_in_check old s) eqn:Hch; [|exact Hrest].
  pose proof (H s (or_introl eq_refl) (setting_changed_in_check_implies _ _ Hch)) as Hok.
  pose proof (check_changed_setting_in_check_ok st views mode_ s) as Hsame.
  rewrite Hok in Hsame.
  destruct (check_changed_setting_in_check st views mode_ s) as [[]|e];
    [exact Hrest | discriminate].
Qed.

Lemma add_reset_settings_keeps ext old applied new_settings :
  add_reset_settings ext old applied = Ok new_settings ->
  forall s, In s applied -> In s new_settings.
Proof.
  unfold add_reset_settings, rbind. destruct old as [old|].
  - destruct (get_names old); [|discriminate].
    destruct (get_names applied); [|discriminate].
    intros H. injection H as <-. intros s Hs. apply in_or_app. now left.
  - intros H. injection H as <-. auto.
Qed.

(** X21. [alter] is at least as strict as [checkAlterIsPossible]: for
    commands that all modify or reset settings, and a metadata that has a
    settings clause once they are applied, whatever [alter] accepts
    [checkAlterIsPossible] accepts too. *)
Theorem alter_is_stricter_than_check ext st views commands :
  isSettingsAlter ext commands = true ->
  forallb is_settings_command commands = true ->
  snd (alter ext st views commands) = Ok tt ->
  checkAlterIsPossible ext st views commands true = Ok tt.
Proof.
  intros Halter Htypes Hok. unfold checkAlterIsPossible.
  rewrite (proj2 (check_command_types_ok st commands) Htypes). cbn [rbind negb].
  rewrite (alter_unfold _ _ _ _ Halter) in Hok. unfold new_settings_of in Hok.
  destruct (add_reset_settings ext (old_settings_of st)
              (AlterCommands_apply ext (normalizeAlterCommands commands)
                 (old_settings_of st))) as [new_settings|e] eqn:Hnew; [|discriminate].
  destruct (alter_loop st views (mode (getTableMetadata st)) (old_settings_of st)
              new_settings [] []) as [changed|e] eqn:Hloop; [|discriminate].
  apply checkAlterIsPossible_loop_ok. intros s Hin Hch.
  apply (alter_loop_ok _ _ _ _ _ _ _ _ Hloop s); [|exact Hch].
  exact (add_reset_settings_keeps _ _ _ _ Hnew s Hin).
Qed.

Lemma alter_is_stricter_than_check_witness :
  checkAlterIsPossible plain_collaborators (a_queue_table ORDERED KEEP [])
    one_materialized_view
    [MODIFY [a_setting "s3queue_polling_max_timeout_ms" (FieldUInt64 5000)]] true
  = Ok tt.
Proof.
  exact (alter_is_stricter_than_check plain_collaborators
           (a_queue_table ORDERED KEEP []) one_materialized_view
           [MODIFY [a_setting "s3queue_polling_max_timeout_ms" (FieldUInt64 5000)]]
           eq_refl eq_refl eq_refl).
Defined.

(* ------------------------------------------------------------------ *)
(** ** ALTER: what is assigned *)

Lemma assign_if_origin {T} change key (safeGet : Field -> Result T) assign acc e :
  snd (assign_if change key safeGet assign acc) = Throw e ->
  snd acc = Throw e \/ safeGet (value change) = Throw e.
Proof.
  unfold assign_if. destruct acc as [s [u|e0]]; cbn [snd]; [|auto].
  destruct (String.eqb (name change) key); [|discriminate].
  destruct (safeGet (value change)) as [v|e1]; cbn [snd]; [discriminate|].
  intros H. injection H as <-. right. reflexivity.
Qed.

Lemma assign_if_invariant {T} (P : Storage -> Prop) change key
    (safeGet : Field -> Result T) assign acc :
  (forall v s, P s -> P (assign v s)) ->
  P (fst acc) -> P (fst (assign_if change key safeGet assign acc)).
Proof.
  intros Hassign. unfold assign_if. destruct acc as [s [u|e0]]; cbn [fst]; [|auto].
  destruct (String.eqb (name change) key); [|auto].
  destruct (safeGet (value change)) as [v|e1]; cbn [fst]; auto.
Qed.

Lemma alter_local_setting_origin ext acc change e :
  snd (alter_local_setting ext acc change) = Throw e ->
  snd acc = Throw e
  \/ safeGetUInt64 ext (value change) = Throw e
  \/ safeGetBool ext (value change) = Throw e.
Proof.
  unfold alter_local_setting. intros H.
  repeat (apply assign_if_origin in H; destruct H as [H|H]; [|auto]).
  auto.
Qed.

Lemma alter_local_setting_untouched ext s0 acc change :
  untouched_by_assignments s0 (fst acc) ->
  untouched_by_assignments s0 (fst (alter_local_setting ext acc change)).
Proof.
  unfold alter_local_setting. intros H.
  repeat (apply assign_if_invariant;
          [intros v s Hs; exact Hs|]).
  exact H.
Qed.

Lemma fold_alter_local_setting ext s0 changes acc :
  untouched_by_assignments s0 (fst acc) ->
  untouched_by_assignments s0 (fst (fold_left (alter_local_setting ext) changes acc))
  /\ (forall e,
         snd (fold_left (alter_local_setting ext) changes acc) = Throw e ->
         snd acc = Throw e
         \/ exists change,
              In change changes
              /\ (safeGetUInt64 ext (value change) = Throw e
                  \/ safeGetBool ext (value change) = Throw e)).
Proof.
  revert acc. induction changes as [|c rest IH]; intros acc Hacc.
  - cbn. split; [exact Hacc | auto].
  - cbn [fold_left].
    destruct (IH _ (alter_local_setting_untouched ext s0 acc c Hacc)) as [Hu Ho].
    split; [exact Hu|].
    intros e He. destruct (Ho e He) as [H|(c' & Hc' & H)].
    + destruct (alter_local_setting_origin _ _ _ _ H) as [H'|H']; [auto|].
      right. exists c. split; [now left | exact H'].
    + right. exists c'. split; [now right | exact H].
Qed.

Lemma same_outside_settings_refl s : same_outside_settings s s.
Proof. repeat split. Qed.

(** X23. [alter] leaves the identity of the table, its path, the
    reschedule interval and [mv_attached] alone. When one of its checks
    throws (a repeated name, a setting that may not be changed, attached
    views), nothing has been assigned: the storage is the one before.
    Whenever it throws, the settings clause of the metadata is still the
    old one: the clause is replaced by the last statement only. An alter
    that is not a settings alter does nothing. *)
Theorem alter_touches_settings_only ext st views commands :
  same_outside_settings (fst (alter ext st views commands)) st
  /\ (forall e,
         isSettingsAlter ext commands = true ->
         new_settings_of ext st commands = Throw e
         \/ (exists new_settings,
                new_settings_of ext st commands = Ok new_settings
                /\ alter_loop st views (mode (getTableMetadata st)) (old_settings_of st)
                              new_settings [] [] = Throw e) ->
         alter ext st views commands = (st, Throw e))
  /\ (forall e,
         snd (alter ext st views commands) = Throw e ->
         metadata_settings_changes (fst (alter ext st views commands))
         = metadata_settings_changes st)
  /\ (isSettingsAlter ext commands = false ->
      alter ext st views commands = (st, Ok tt)).
Proof.
  destruct (isSettingsAlter ext commands) eqn:Halter.
  - rewrite (alter_unfold _ _ _ _ Halter).
    destruct (new_settings_of ext st commands) as [new_settings|e0].
    + destruct (alter_loop st views (mode (getTableMetadata st)) (old_settings_of st)
                  new_settings [] []) as [changed|e0] eqn:Hloop.
      * set (s0 := set_files_metadata (alterSettings ext changed (files_metadata st)) st).
        assert (Hs0 : untouched_by_assignments s0 (fst (s0, @Ok unit tt)))
          by (repeat split).
        destruct (fold_alter_local_setting ext s0 changed (s0, Ok tt) Hs0) as [Hu _].
        destruct (fold_left (alter_local_setting ext) changed (s0, Ok tt))
          as [st2 [u|e2]]; cbn [fst snd] in *;
          destruct Hu as (Hout & _ & Hclause).
        -- split; [exact Hout|]. split; [|split; discriminate].
           intros e _ [H|(new' & Hnew' & H)]; [discriminate|].
           injection Hnew' as <-. rewrite Hloop in H. discriminate.
        -- split; [exact Hout|]. split; [|split; [|discriminate]].
           ++ intros e _ [H|(new' & Hnew' & H)]; [discriminate|].
              injection Hnew' as <-. rewrite Hloop in H. discriminate.
           ++ intros e _. exact Hclause.
      * cbn [fst snd]. split; [apply same_outside_settings_refl|].
        split; [|split; [reflexivity | discriminate]].
        intros e _ [H|(new' & Hnew' & H)]; [discriminate|].
        injection Hnew' as <-. rewrite Hloop in H. injection H as <-. reflexivity.
    + cbn [fst snd]. split; [apply same_outside_settings_refl|].
      split; [|split; [reflexivity | discriminate]].
      intros e _ [H|(new' & Hnew' & _)]; [|discriminate].
      injection H as <-. reflexivity.
  - unfold alter. rewrite Halter. cbn.
    split; [apply same_outside_settings_refl|].
    split; [discriminate|]. split; [discriminate | reflexivity].
Qed.

Lemma alter_touches_settings_only_witness :
  alter plain_collaborators (a_queue_table UNORDERED KEEP []) one_materialized_view
    [MODIFY [a_setting "polling_min_timeout_ms" (FieldUInt64 10);
             a_setting "keeper_path" (FieldString "/other")]]
  = (a_queue_table UNORDERED KEEP [],
     Throw (DBException SUPPORT_IS_DISABLED
              "Changing setting {} is not allowed for {} mode of {}"
              [ArgString "keeper_path"; ArgString "UNORDERED"; ArgString "S3Queue"]))
  /\ metadata_settings_changes
       (fst (alter plain_collaborators (a_queue_table ORDERED KEEP [])
               one_materialized_view
               [MODIFY [a_setting "polling_min_timeout_ms" (FieldUInt64 10);
                        a_setting "polling_backoff_ms" (FieldString "soon")]]))
     = metadata_settings_changes (a_queue_table ORDERED KEEP [])
  /\ alter plain_collaborators (a_queue_table ORDERED KEEP []) one_materialized_view
       [{| type := MODIFY_COLUMN; settings_changes := []; settings_resets := [] |}]
     = (a_queue_table ORDERED KEEP [], Ok tt).
Proof.
  split; [|split].
  - apply (proj1 (proj2 (alter_touches_settings_only plain_collaborators
             (a_queue_table UNORDERED KEEP []) one_materialized_view
             [MODIFY [a_setting "polling_min_timeout_ms" (FieldUInt64 10);
                      a_setting "keeper_path" (FieldString "/other")]]))).
    + reflexivity.
    + right.
      exists [a_setting "mode" (FieldString "unordered");
              a_setting "polling_min_timeout_ms" (FieldUInt64 10);
              a_setting "keeper_path" (FieldString "/other")].
      split; reflexivity.
  - exact (proj1 (proj2 (proj2 (alter_touches_settings_only plain_collaborators
             (a_queue_table ORDERED KEEP []) one_materialized_view
             [MODIFY [a_setting "polling_min_timeout_ms" (FieldUInt64 10);
                      a_setting "polling_backoff_ms" (FieldString "soon")]])))
             (CollaboratorException "Bad get: UInt64 expected") eq_refl).
  - exact (proj2 (proj2 (proj2 (alter_touches_settings_only plain_collaborators
             (a_queue_table ORDERED KEEP []) one_materialized_view
             [{| type := MODIFY_COLUMN; settings_changes := [];
                 settings_resets := [] |}]))) eq_refl).
Defined.

Example alter_with_a_value_of_the_wrong_type :
  let '(st, r) :=
    alter plain_collaborators (a_queue_table ORDERED KEEP []) one_materialized_view
      [MODIFY [a_setting "polling_min_timeout_ms" (FieldUInt64 10);
               a_setting "polling_backoff_ms" (FieldString "soon")]] in
  r = Throw (CollaboratorException "Bad get: UInt64 expected")
  /\ polling_min_timeout_ms st = 10
  /\ polling_backoff_ms st = 1000
  /\ metadata_settings_changes st = Some [a_setting "mode" (FieldString "ordered")].
Proof. repeat split. Qed.

Lemma alter_loop_changed st views mode_ old new_settings names changed changed' :
  alter_loop st views mode_ old new_settings names changed = Ok changed' ->
  changed' = (changed ++ filter (setting_changed old) new_settings)%list.
Proof.
  revert names changed.
  induction new_settings as [|s rest IH]; simpl; intros names changed H.
  - injection H as <-. rewrite app_nil_r. reflexivity.
  - destruct (set_insert (name s) names) as [names' inserted].
    destruct inserted; simpl in H; [|discriminate].
    destruct (setting_changed old s); simpl in H.
    + destruct (check_changed_setting st views mode_ s) as [[]|e]; [|discriminate].
      rewrite (IH _ _ H), <- app_assoc. reflexivity.
    + exact (IH _ _ H).
Qed.

Lemma alter_loop_ok_NoDup st views mode_ old new_settings changed :
  alter_loop st views mode_ old new_settings [] [] = Ok changed ->
  NoDup (map name new_settings).
Proof.
  intros H. apply has_duplicates_false.
  destruct (has_duplicates (map name new_settings)) eqn:Hdup; [|reflexivity].
  destruct (alter_loop_dup st views mode_ old new_settings [] [] ordered_set_nil
              (or_introl Hdup)) as (e & He).
  congruence.
Qed.

Lemma assign_if_skip_invariant {T} (P : Storage -> Prop) change key
    (safeGet : Field -> Result T) assign acc :
  String.eqb (name change) key = false ->
  P (fst acc) -> P (fst (assign_if change key safeGet assign acc)).
Proof.
  intros Hne. unfold assign_if. destruct acc as [s [u|e0]]; cbn [fst]; [|auto].
  rewrite Hne. auto.
Qed.

Lemma alter_local_setting_throw ext s e change :
  snd (alter_local_setting ext (s, Throw e) change) = Throw e.
Proof. reflexivity. Qed.

Lemma fold_alter_local_setting_throw ext changes s e :
  snd (fold_left (alter_local_setting ext) changes (s, Throw e)) = Throw e.
Proof.
  revert s. induction changes as [|c rest IH]; intros s; [reflexivity|].
  cbn [fold_left].
  rewrite (surjective_pairing (alter_local_setting ext (s, Throw e) c)).
  rewrite alter_local_setting_throw. apply IH.
Qed.

Section AssignedMember.

Variable ext : AlterCollaborators.
Variable key : string.
Variable member : Storage -> Z.

Hypothesis assigned :
  forall s change,
    name change = key ->
    snd (alter_local_setting ext (s, Ok tt) change) = Ok tt ->
    safeGetUInt64 ext (value change)
    = Ok (member (fst (alter_local_setting ext (s, Ok tt) change))).

Hypothesis kept :
  forall acc change,
    name change <> key ->
    member (fst (alter_local_setting ext acc change)) = member (fst acc).

Lemma member_kept changes acc :
  (forall change, In change changes -> name change <> key) ->
  member (fst (fold_left (alter_local_setting ext) changes acc)) = member (fst acc).
Proof.
  revert acc. induction changes as [|c rest IH]; intros acc H; [reflexivity|].
  cbn [fold_left]. rewrite IH by (intros x Hx; apply H; now right).
  apply kept. apply H. now left.
Qed.

Lemma member_assigned changes s change :
  NoDup (map name changes) ->
  In change changes ->
  name change = key ->
  snd (fold_left (alter_local_setting ext) changes (s, Ok tt)) = Ok tt ->
  safeGetUInt64 ext (value change)
  = Ok (member (fst (fold_left (alter_local_setting ext) changes (s, Ok tt)))).
Proof.
  revert s. induction changes as [|c rest IH]; intros s Hnd Hin Hname Hok; [destruct Hin|].
  cbn [fold_left] in Hok |- *. cbn [map] in Hnd.
  apply NoDup_cons_iff in Hnd. destruct Hnd as [Hnin Hnd'].
  destruct (alter_local_setting ext (s, Ok tt) c) as [s1 [[]|e1]] eqn:Hstep.
  - destruct Hin as [Hc|Hin].
    + rewrite member_kept.
      * pose proof (assigned s c) as Ha. rewrite Hstep in Ha. rewrite <- Hc.
        apply Ha; [rewrite Hc; exact Hname | reflexivity].
      * intros x Hx Heq. apply Hnin. rewrite Hc, Hname, <- Heq. apply in_map. exact Hx.
    + exact (IH s1 Hnd' Hin Hname Hok).
  - rewrite fold_alter_local_setting_throw in Hok. discriminate.
Qed.

End AssignedMember.

Ltac member_is_kept :=
  intros acc change Hne; unfold alter_local_setting;
  apply String.eqb_neq in Hne;
  repeat first
    [ apply assign_if_invariant; [intros v s Hs; exact Hs|]
    | apply assign_if_skip_invariant; [exact Hne|] ];
  reflexivity.

Ltac member_is_assigned :=
  intros s change Hname; unfold alter_local_setting, assign_if;
  rewrite Hname; cbn [String.eqb Ascii.eqb Bool.eqb];
  match goal with
  | |- context [safeGetUInt64 ?e ?f] => destruct (safeGetUInt64 e f)
  end; cbn [fst snd]; [reflexivity | discriminate].

Lemma polling_min_timeout_ms_kept ext acc change :
  name change <> "polling_min_timeout_ms" ->
  polling_min_timeout_ms (fst (alter_local_setting ext acc change))
  = polling_min_timeout_ms (fst acc).
Proof. revert acc change. member_is_kept. Qed.

Lemma polling_max_timeout_ms_kept ext acc change :
  name change <> "polling_max_timeout_ms" ->
  polling_max_timeout_ms (fst (alter_local_setting ext acc change))
  = polling_max_timeout_ms (fst acc).
Proof. revert acc change. member_is_kept. Qed.

Lemma polling_backoff_ms_kept ext acc change :
  name change <> "polling_backoff_ms" ->
  polling_backoff_ms (fst (alter_local_setting ext acc change))
  = polling_backoff_ms (fst acc).
Proof. revert acc change. member_is_kept. Qed.

Lemma list_objects_batch_size_kept ext acc change :
  name change <> "list_objects_batch_size" ->
  list_objects_batch_size (fst (alter_local_setting ext acc change))
  = list_objects_batch_size (fst acc).
Proof. revert acc change. member_is_kept. Qed.

Lemma polling_min_timeout_ms_assigned ext s change :
  name change = "polling_min_timeout_ms" ->
  snd (alter_local_setting ext (s, Ok tt) change) = Ok tt ->
  safeGetUInt64 ext (value change)
  = Ok (polling_min_timeout_ms (fst (alter_local_setting ext (s, Ok tt) change))).
Proof. revert s change. member_is_assigned. Qed.

Lemma polling_max_timeout_ms_assigned ext s change :
  name change = "polling_max_timeout_ms" ->
  snd (alter_local_setting ext (s, Ok tt) change) = Ok tt ->
  safeGetUInt64 ext (value change)
  = Ok (polling_max_timeout_ms (fst (alter_local_setting ext (s, Ok tt) change))).
Proof. revert s change. member_is_assigned. Qed.

Lemma polling_backoff_ms_assigned ext s change :
  name change = "polling_backoff_ms" ->
  snd (alter_local_setting ext (s, Ok tt) change) = Ok tt ->
  safeGetUInt64 ext (value change)
  = Ok (polling_backoff_ms (fst (alter_local_setting ext (s, Ok tt) change))).
Proof. revert s change. member_is_assigned. Qed.

Lemma list_objects_batch_size_assigned ext s change :
  name change = "list_objects_batch_size" ->
  snd (alter_local_setting ext (s, Ok tt) change) = Ok tt ->
  safeGetUInt64 ext (value change)
  = Ok (list_objects_batch_size (fst (alter_local_setting ext (s, Ok tt) change))).
Proof. revert s change. member_is_assigned. Qed.

Lemma alter_member ext key (member : Storage -> Z) st views commands new_settings :
  (forall s change, name change = key ->
     snd (alter_local_setting ext (s, Ok tt) change) = Ok tt ->
     safeGetUInt64 ext (value change)
     = Ok (member (fst (alter_local_setting ext (s, Ok tt) change)))) ->
  (forall acc change, name change <> key ->
     member (fst (alter_local_setting ext acc change)) = member (fst acc)) ->
  (forall changes s, member (setInMemoryMetadata changes s) = member s) ->
  (forall m s, member (set_files_metadata m s) = member s) ->
  isSettingsAlter ext commands = true ->
  new_settings_of ext st commands = Ok new_settings ->
  snd (alter ext st views commands) = Ok tt ->
  (forall s, In s new_settings ->
     setting_changed (old_settings_of st) s = true -> name s = key ->
     safeGetUInt64 ext (value s) = Ok (member (fst (alter ext st views commands))))
  /\ ((forall s, In s new_settings ->
         setting_changed (old_settings_of st) s = true -> name s <> key) ->
      member (fst (alter ext st views commands)) = member st).
Proof.
  intros Hassigned Hkept Hmeta Hfiles Hsettings Hnew.
  rewrite (alter_unfold _ _ _ _ Hsettings), Hnew.
  destruct (alter_loop st views (mode (getTableMetadata st)) (old_settings_of st)
              new_settings [] []) as [changed|e] eqn:Hloop; [|discriminate].
  pose proof (alter_loop_ok_NoDup _ _ _ _ _ _ Hloop) as Hnd.
  apply alter_loop_changed in Hloop. cbn [app] in Hloop. subst changed.
  set (changed := filter (setting_changed (old_settings_of st)) new_settings).
  set (st1 := set_files_metadata (alterSettings ext changed (files_metadata st)) st).
  destruct (fold_left (alter_local_setting ext) changed (st1, Ok tt))
    as [st2 [[]|e]] eqn:Hfold; cbn [fst snd]; [intros _|discriminate].
  rewrite Hmeta. split.
  - intros s Hin Hchanged Hname.
    pose proof (member_assigned ext key member Hassigned Hkept changed st1 s) as H.
    rewrite Hfold in H. apply H.
    + clear - Hnd. subst changed. induction new_settings as [|x rest IH]; [constructor|].
      cbn [map] in Hnd. apply NoDup_cons_iff in Hnd. destruct Hnd as [Hnin Hnd].
      cbn [filter]. destruct (setting_changed (old_settings_of st) x); [|exact (IH Hnd)].
      cbn [map]. constructor; [|exact (IH Hnd)].
      intros Hx. apply Hnin. apply in_map_iff in Hx. destruct Hx as (y & Hy & Hin).
      apply filter_In in Hin. rewrite <- Hy. apply in_map, Hin.
    + apply filter_In. split; assumption.
    + exact Hname.
    + reflexivity.
  - intros Hnone.
    pose proof (member_kept ext key member Hkept changed (st1, Ok tt)) as H.
    rewrite Hfold in H. cbn [fst] in H. rewrite H; [apply Hfiles|].
    intros change Hin. apply filter_In in Hin. destruct Hin as [Hin Hchanged].
    exact (Hnone change Hin Hchanged).
Qed.

(** X22. After a successful settings alter, each of [polling_min_timeout_ms],
    [polling_max_timeout_ms], [polling_backoff_ms] and [list_objects_batch_size]
    holds the value of the changed setting of its name, read as a [UInt64]; and
    it holds what it held before when no changed setting has that name. *)
Theorem alter_assigns_changed_members ext st views commands new_settings key member :
  In (key, member) local_uint64_members ->
  isSettingsAlter ext commands = true ->
  new_settings_of ext st commands = Ok new_settings ->
  snd (alter ext st views commands) = Ok tt ->
  (forall s, In s new_settings ->
     setting_changed (old_settings_of st) s = true -> name s = key ->
     safeGetUInt64 ext (value s) = Ok (member (fst (alter ext st views commands))))
  /\ ((forall s, In s new_settings ->
         setting_changed (old_settings_of st) s = true -> name s <> key) ->
      member (fst (alter ext st views commands)) = member st).
Proof.
  intros Hmember.
  cbn [local_uint64_members In] in Hmember.
  destruct Hmember as [H|[H|[H|[H|[]]]]]; injection H as <- <-; apply alter_member;
    try (intros; reflexivity).
  - apply polling_min_timeout_ms_assigned.
  - apply polling_min_timeout_ms_kept.
  - apply polling_max_timeout_ms_assigned.
  - apply polling_max_timeout_ms_kept.
  - apply polling_backoff_ms_assigned.
  - apply polling_backoff_ms_kept.
  - apply list_objects_batch_size_assigned.
  - apply list_objects_batch_size_kept.
Qed.

Lemma alter_assigns_changed_members_witness :
  safeGetUInt64 plain_collaborators (FieldUInt64 500)
  = Ok (polling_max_timeout_ms
          (fst (alter plain_collaborators (a_queue_table ORDERED KEEP [])
                  one_materialized_view
                  [MODIFY [a_setting "polling_max_timeout_ms" (FieldUInt64 500)]])))
  /\ polling_backoff_ms
       (fst (alter plain_collaborators (a_queue_table ORDERED KEEP [])
               one_materialized_view
               [MODIFY [a_setting "polling_max_timeout_ms" (FieldUInt64 500)]]))
     = polling_backoff_ms (a_queue_table ORDERED KEEP []).
Proof.
  split.
  - exact (proj1 (alter_assigns_changed_members plain_collaborators
             (a_queue_table ORDERED KEEP []) one_materialized_view
             [MODIFY [a_setting "polling_max_timeout_ms" (FieldUInt64 500)]]
             [a_setting "mode" (FieldString "ordered");
              a_setting "polling_max_timeout_ms" (FieldUInt64 500)]
             "polling_max_timeout_ms" polling_max_timeout_ms
             (or_intror (or_introl eq_refl)) eq_refl eq_refl eq_refl)
             (a_setting "polling_max_timeout_ms" (FieldUInt64 500))
             (or_intror (or_introl eq_refl)) eq_refl eq_refl).
  - apply (proj2 (alter_assigns_changed_members plain_collaborators
             (a_queue_table ORDERED KEEP []) one_materialized_view
             [MODIFY [a_setting "polling_max_timeout_ms" (FieldUInt64 500)]]
             [a_setting "mode" (FieldString "ordered");
              a_setting "polling_max_timeout_ms" (FieldUInt64 500)]
             "polling_backoff_ms" polling_backoff_ms
             (or_intror (or_intror (or_introl eq_refl))) eq_refl eq_refl eq_refl)).
    intros s [<-|[<-|[]]] Hchanged; [discriminate Hchanged | discriminate].
Defined.

(* ------------------------------------------------------------------ *)
(** ** ALTER: the settings that were reset *)

Lemma find_by_name old c :
  NoDup (map name old) -> In c old ->
  find (fun change => String.eqb (name change) (name c)) old = Some c.
Proof.
  induction old as [|x rest IH]; cbn [map find]; intros Hnd Hin; [destruct Hin|].
  apply NoDup_cons_iff in Hnd. destruct Hnd as [Hnin Hnd].
  destruct Hin as [->|Hin]; [rewrite String.eqb_refl; reflexivity|].
  destruct (String.eqb (name x) (name c)) eqn:Heq; [|exact (IH Hnd Hin)].
  apply String.eqb_eq in Heq. exfalso. apply Hnin. rewrite Heq. apply in_map, Hin.
Qed.

(** X24. What [alter] appends for the settings that disappeared from the
    clause. When the old clause and the applied one have no repeated name,
    the list the main loop runs over has none either; it holds every applied
    setting, and for every old setting whose name is no longer there one
    entry of that name with the default value, which counts as changed
    exactly when the default differs from the old value. It holds nothing
    else. *)
Theorem reset_settings_take_defaults ext old applied new_settings :
  add_reset_settings ext (Some old) applied = Ok new_settings ->
  NoDup (map name new_settings)
  /\ (forall s, In s applied -> In s new_settings)
  /\ (forall c, In c old -> ~ In (name c) (map name applied) ->
        In {| name := name c; value := default_settings_get ext (name c) |} new_settings
        /\ setting_changed (Some old)
             {| name := name c; value := default_settings_get ext (name c) |}
           = negb (Field_eqb (value c) (default_settings_get ext (name c))))
  /\ (forall s, In s new_settings ->
        In s applied
        \/ (In (name s) (map name old) /\ ~ In (name s) (map name applied)
            /\ value s = default_settings_get ext (name s))).
Proof.
  intros H.
  split; [exact (add_reset_settings_NoDup _ _ _ _ H)|].
  split; [exact (add_reset_settings_keeps _ _ _ _ H)|].
  unfold add_reset_settings, get_names, rbind in H.
  destruct (get_names_from old []) as [old_set|] eqn:Hold; [|discriminate].
  destruct (get_names_from applied []) as [new_set|] eqn:Hnew; [|discriminate].
  injection H as <-.
  destruct (get_names_from_ok _ _ _ ordered_set_nil Hold) as (Hmem_old & Hnd_old & _ & _).
  destruct (get_names_from_ok _ _ _ ordered_set_nil Hnew) as (Hmem_new & _ & _ & _).
  assert (Hreset : forall n, In n (set_difference old_set new_set)
                             <-> In n (map name old) /\ ~ In n (map name applied)).
  { intros n. unfold set_difference. rewrite filter_In, negb_true_iff, contains_not_In.
    rewrite Hmem_old, Hmem_new. cbn [In]. tauto. }
  split.
  - intros c Hc Hgone. split.
    + apply in_or_app. right.
      apply (in_map (fun name_ => {| name := name_;
                                     value := default_settings_get ext name_ |})).
      apply Hreset. split; [apply in_map, Hc | exact Hgone].
    + unfold setting_changed. cbn [name value].
      rewrite (find_by_name old c Hnd_old Hc). reflexivity.
  - intros s Hs. apply in_app_or in Hs. destruct Hs as [Hs|Hs]; [now left|].
    right. apply in_map_iff in Hs. destruct Hs as (n & <- & Hn). cbn [name value].
    apply Hreset in Hn. tauto.
Qed.

Lemma reset_settings_take_defaults_witness :
  In {| name := "buckets";
        value := default_settings_get plain_collaborators "buckets" |}
     [a_setting "mode" (FieldString "ordered");
      a_setting "buckets" (FieldUInt64 0)]
  /\ setting_changed (Some [a_setting "mode" (FieldString "ordered");
                            a_setting "buckets" (FieldUInt64 4)])
       {| name := "buckets";
          value := default_settings_get plain_collaborators "buckets" |}
     = negb (Field_eqb (FieldUInt64 4) (default_settings_get plain_collaborators "buckets")).
Proof.
  exact (proj1 (proj2 (proj2 (reset_settings_take_defaults plain_collaborators
           [a_setting "mode" (FieldString "ordered"); a_setting "buckets" (FieldUInt64 4)]
           [a_setting "mode" (FieldString "ordered")]
           [a_setting "mode" (FieldString "ordered"); a_setting "buckets" (FieldUInt64 0)]
           eq_refl)))
         (a_setting "buckets" (FieldUInt64 4)) (or_intror (or_introl eq_refl))
         ltac:(intros [H|[]]; discriminate H)).
Defined.

(* ------------------------------------------------------------------ *)
(** ** ALTER: nothing changed *)

Lemma alter_loop_unchanged st views mode_ old new_settings names changed :
  ordered_set names ->
  NoDup (map name new_settings) ->
  (forall x, In x names -> ~ In x (map name new_settings)) ->
  (forall s, In s new_settings -> setting_changed old s = false) ->
  alter_loop st views mode_ old new_settings names changed = Ok changed.
Proof.
  revert names.
  induction new_settings as [|s rest IH]; cbn [alter_loop map];
    intros names Hord Hnd Hdisj Hsame; [reflexivity|].
  apply NoDup_cons_iff in Hnd. destruct Hnd as [Hnin Hnd].
  assert (Hnew : ~ In (name s) names) by (intros Hin; apply (Hdisj _ Hin); now left).
  rewrite (surjective_pairing (set_insert (name s) names)).
  rewrite (set_insert_new _ _ Hnew). cbn [negb].
  rewrite (Hsame s (or_introl eq_refl)). cbn [negb].
  apply IH.
  - apply set_insert_ordered, Hord.
  - exact Hnd.
  - intros x Hx. apply set_insert_In in Hx. destruct Hx as [->|Hx]; [exact Hnin|].
    intros Hx'. apply (Hdisj _ Hx). now right.
  - intros x Hx. apply Hsame. now right.
Qed.

(** X25. An alter whose settings all keep the value the clause already has
    is accepted whatever the mode, the names and the dependent views are:
    no setting is asked whether it may be changed. It passes an empty list to
    the metadata of the coordinator, assigns no member, and stores the new
    clause. *)
Theorem alter_without_changes ext st views commands new_settings :
  isSettingsAlter ext commands = true ->
  new_settings_of ext st commands = Ok new_settings ->
  NoDup (map name new_settings) ->
  (forall s, In s new_settings -> setting_changed (old_settings_of st) s = false) ->
  alter ext st views commands
  = (setInMemoryMetadata new_settings
       (set_files_metadata (alterSettings ext [] (files_metadata st)) st), Ok tt).
Proof.
  intros Hsettings Hnew Hnd Hsame.
  rewrite (alter_unfold _ _ _ _ Hsettings), Hnew.
  rewrite (alter_loop_unchanged st views _ _ _ [] [] ordered_set_nil Hnd
             (fun x Hx => match Hx with end) Hsame).
  reflexivity.
Qed.

Lemma alter_without_changes_witness :
  alter plain_collaborators (a_queue_table ORDERED KEEP [a_setting "buckets" (FieldUInt64 4)])
    one_materialized_view
    [MODIFY [a_setting "s3queue_buckets" (FieldUInt64 4);
             a_setting "mode" (FieldString "ordered")]]
  = (setInMemoryMetadata
       [a_setting "mode" (FieldString "ordered"); a_setting "buckets" (FieldUInt64 4)]
       (set_files_metadata
          (alterSettings plain_collaborators []
             (files_metadata
                (a_queue_table ORDERED KEEP [a_setting "buckets" (FieldUInt64 4)])))
          (a_queue_table ORDERED KEEP [a_setting "buckets" (FieldUInt64 4)])), Ok tt).
Proof.
  apply alter_without_changes.
  - reflexivity.
  - reflexivity.
  - repeat constructor; cbn; intuition discriminate.
  - intros s [<-|[<-|[]]]; reflexivity.
Defined.
